(** * Memory-mapping of files of a FAT ramdisk: kernel/fs/fat32_mm.c

    A shallow embedding of [fat_ramdisk_prepare_for_mmap] and [fat_mmap],
    with the paging subsystem and the FAT decoder they call kept as explicit
    state and as an interface record. *)

From Stdlib Require Import ZArith Lia List Bool String Ascii.
From stdpp Require Import base option gmap list.

Local Open Scope Z_scope.

(** ** Machine integers and kernel constants *)

(** Modelled from the spec: the page size of the target, 4096 bytes (the
    comments of fat32_mm.c call the extra page "the extra 4k region");
    PAGE_SHIFT and PAGE_SIZE come from the paging headers. *)
Definition PAGE_SHIFT : Z := 12.
Definition PAGE_SIZE : Z := Z.shiftl 1 PAGE_SHIFT.

(** [ulong], [size_t] and [u32] are 32-bit unsigned on the i386 target:
    sums, differences and shifts wrap around modulo 2^32. *)
Definition ULONG_BITS : Z := 32.
Definition ulong (x : Z) : Z := x mod 2 ^ ULONG_BITS.

(** IS_PAGE_ALIGNED(x): the low PAGE_SHIFT bits of x are zero. *)
Definition IS_PAGE_ALIGNED (x : Z) : bool :=
  Z.land x (PAGE_SIZE - 1) =? 0.

(** errno values returned (negated) by the VFS callbacks. *)
Definition ENOMEM : Z := 12.
Definition EACCES : Z := 13.
Definition ENODEV : Z := 19.

(** PAGING_FL_US | PAGING_FL_SHARED, kept symbolic: the page mapper of this
    model does not look at it. *)
Inductive paging_flags := PAGING_FL_US_SHARED.

(** ** Data model *)

Inductive fat_type_e := fat12_type | fat16_type | fat32_type.

(** The raw bytes of the ramdisk, addressed from [hdr]. *)
Definition fat_image := list Byte.byte.

(** struct fat_fs_device_data, the fields fat32_mm.c reads. *)
Record fat_fs_device_data := {
  hdr : Z;                 (* kernel virtual address of the image *)
  type : fat_type_e;
  cluster_size : Z;        (* u32 *)
  mmap_support : bool;
}.

(** struct fat_entry as seen through a handle: the directory flag and what
    fat_get_first_cluster() decodes from it. *)
Record fat_entry := {
  directory : bool;
  first_cluster : Z;
}.

(** struct fatfs_handle.  [fh->fs->device_data] points to the device data of
    the mount, which lives in the [world] below ([w_dev]). *)
Record fatfs_handle := {
  e : fat_entry;
}.

Record user_mapping := {
  h : fatfs_handle;
  um_vaddr : Z;
  um_len : Z;
  um_off : Z;
}.

(** The FAT decoder of fat32_base.c and the build-dependent macros, consumed
    by fat32_mm.c as an interface. *)
Record fat_ops := {
  fat_read_fat_entry : fat_image -> fat_type_e -> Z -> Z -> Z;
  fat_is_end_of_clusterchain : fat_type_e -> Z -> bool;
  fat_is_bad_cluster : fat_type_e -> Z -> bool;
  (* pointer to the data of a cluster, from the address of the header *)
  fat_get_pointer_to_cluster_data : Z -> fat_image -> Z -> Z;
  fat_is_first_data_sector_aligned : fat_image -> Z -> bool;
  fat_calculate_used_bytes : fat_image -> Z;
  fat_align_first_data_sector : fat_image -> Z -> fat_image;
  (* system_mmap_check_for_extra_ramdisk_region(hdr) *)
  system_mmap_check_for_extra_ramdisk_region : Z -> bool;
  KERNEL_VA_TO_PA : Z -> Z;
  VFS_MM_DONT_MMAP : Z;
  (* whether ASSERT() is compiled in (debug build) *)
  asserts_enabled : bool;
}.

(** ** The paging subsystem *)

(** A page directory: the virtual pages that are mapped, each with the
    physical address behind it, and how many more pages can be mapped before
    the mapper runs out of memory for page tables. *)
Record pdir_t := {
  pd_map : gmap Z Z;
  pd_avail : nat;
}.

(** One invocation of the page mapper.  [mc_idx] and [mc_clu] are ghost
    fields: the position in the cluster chain and the cluster number the
    caller was at; the other three are the arguments of map_pages(). *)
Record map_call := {
  mc_idx : nat;
  mc_clu : Z;
  mc_vaddr : Z;
  mc_paddr : Z;
  mc_count : Z;
}.

Inductive event :=
| EvMapPages (c : map_call)
| EvUnmapPages (vaddr count : Z)
| EvRetain (vaddr len : Z)
| EvSetPageRw (vaddr : Z) (rw : bool)
| EvAlignFirstDataSector
| EvPrintk (msg : nat).

(** Everything the two functions can read or change. *)
Record world := {
  w_dev : fat_fs_device_data;   (* device data of the mounted ramdisk *)
  w_image : fat_image;          (* bytes of the ramdisk *)
  w_pdir : pdir_t;              (* the page directory passed to fat_mmap *)
  w_pins : gmap Z nat;          (* reference counts of retained pages *)
  w_rw : gmap Z bool;           (* kernel pages made writable / read-only *)
  w_log : list event;           (* calls made, oldest first *)
}.

Definition set_pdir (w : world) (pd : pdir_t) : world :=
  {| w_dev := w_dev w; w_image := w_image w; w_pdir := pd; w_pins := w_pins w;
     w_rw := w_rw w; w_log := w_log w |}.

Definition set_image (w : world) (img : fat_image) : world :=
  {| w_dev := w_dev w; w_image := img; w_pdir := w_pdir w; w_pins := w_pins w;
     w_rw := w_rw w; w_log := w_log w |}.

Definition log_event (ev : event) (w : world) : world :=
  {| w_dev := w_dev w; w_image := w_image w; w_pdir := w_pdir w; w_pins := w_pins w;
     w_rw := w_rw w; w_log := w_log w ++ [ev] |}.

(** Modelled from the spec: map-pages of the Page Mapper (kernel paging
    code, not part of fat32_mm.c), "pages actually mapped (may fall short
    only under resource exhaustion)": pages are mapped one after the other
    until the request is served or no page can be mapped any more. *)
Fixpoint map_pages_int (n : nat) (pd : pdir_t) (vaddr paddr : Z)
  : pdir_t * Z :=
  match n with
  | O => (pd, 0)
  | S n' =>
      match pd_avail pd with
      | O => (pd, 0)
      | S a =>
          let pd1 := {| pd_map := <[vaddr := paddr]> (pd_map pd);
                        pd_avail := a |} in
          let '(pd2, k) :=
            map_pages_int n' pd1 (vaddr + PAGE_SIZE) (paddr + PAGE_SIZE) in
          (pd2, k + 1)
      end
  end.

Definition map_pages (pd : pdir_t) (vaddr paddr pg_count : Z)
    (fl : paging_flags) : pdir_t * Z :=
  map_pages_int (Z.to_nat pg_count) pd vaddr paddr.

(** Modelled from the spec: unmap-pages of the Page Mapper in permissive
    mode, "releases mappings, tolerating partial/absent mappings"; with
    do_free = false nothing else happens. *)
Fixpoint unmap_pages_int (n : nat) (m : gmap Z Z) (vaddr : Z) : gmap Z Z :=
  match n with
  | O => m
  | S n' => unmap_pages_int n' (delete vaddr m) (vaddr + PAGE_SIZE)
  end.

Definition unmap_pages_permissive (pd : pdir_t) (vaddr count : Z)
    (do_free : bool) : pdir_t :=
  {| pd_map := unmap_pages_int (Z.to_nat count) (pd_map pd) vaddr;
     pd_avail := pd_avail pd |}.

(** The loop [for (va = va_begin; va < va_end; va += PAGE_SIZE) f(va)];
    [n] bounds the number of rounds. *)
Fixpoint for_each_page (n : nat) (va va_end : Z) (f : Z -> world -> world)
    (w : world) : world :=
  match n with
  | O => w
  | S n' =>
      if va <? va_end
      then for_each_page n' (va + PAGE_SIZE) va_end f (f va w)
      else w
  end.

Definition page_rounds (len : Z) : nat := Z.to_nat (len / PAGE_SIZE + 1).

(** The same loop over [char *] pointers of 32 bits, as
    fat_ramdisk_prepare_for_mmap has it: [va += PAGE_SIZE] wraps around
    modulo 2^32.  [n] bounds the number of rounds. *)
Fixpoint for_each_page_ptr (n : nat) (va va_end : Z)
    (f : Z -> world -> world) (w : world) : world :=
  match n with
  | O => w
  | S n' =>
      if va <? va_end
      then for_each_page_ptr n' (ulong (va + PAGE_SIZE)) va_end f (f va w)
      else w
  end.

(** Modelled from the spec: retain_pageframes_mapped_at() "pins (retains)
    the ramdisk's pages": one more reference on every page of the range. *)
Definition retain_page (va : Z) (w : world) : world :=
  {| w_dev := w_dev w; w_image := w_image w; w_pdir := w_pdir w;
     w_pins := <[va := S (default O (w_pins w !! va))]> (w_pins w);
     w_rw := w_rw w; w_log := w_log w |}.

Definition retain_pageframes_mapped_at (vaddr len : Z) (w : world) : world :=
  for_each_page (page_rounds len) vaddr (vaddr + len) retain_page
    (log_event (EvRetain vaddr len) w).

(** Modelled from the spec: set-page-writable of the Page Mapper. *)
Definition set_page_rw (rw : bool) (va : Z) (w : world) : world :=
  log_event (EvSetPageRw va rw)
    {| w_dev := w_dev w; w_image := w_image w; w_pdir := w_pdir w; w_pins := w_pins w;
       w_rw := <[va := rw]> (w_rw w); w_log := w_log w |}.

(** ** Outcomes *)

Inductive panic_reason :=
| AssertOffAligned        (* ASSERT((off % d->cluster_size) == 0) *)
| AssertNotBadCluster     (* ASSERT(!fat_is_bad_cluster(d->type, clu)) *)
| VerifyRdSizeGeUsed.     (* VERIFY(rd_size >= used) *)

Inductive outcome :=
| Ret (rc : Z)
| Panic (why : panic_reason)
| OutOfFuel.

Section WithOps.

Variable ops : fat_ops.

(** ** fat_ramdisk_prepare_for_mmap *)

Definition fat_ramdisk_prepare_for_mmap (rd_size : Z) (w : world)
  : outcome * world :=
  let d := w_dev w in
  let rd_size :=
    if system_mmap_check_for_extra_ramdisk_region ops (hdr d)
    then ulong (rd_size + PAGE_SIZE)
    else rd_size in
  if (cluster_size d <? PAGE_SIZE) || negb (IS_PAGE_ALIGNED (cluster_size d))
  then (Ret (-1), w)
  else
    let w := retain_pageframes_mapped_at (hdr d) rd_size w in
    if fat_is_first_data_sector_aligned ops (w_image w) PAGE_SIZE
    then (Ret 0, w)
    else
      let used := fat_calculate_used_bytes ops (w_image w) in
      let va_begin := hdr d in
      let va_end := ulong (va_begin + rd_size) in
      if negb (used <=? rd_size) then (Panic VerifyRdSizeGeUsed, w)
      else if ulong (rd_size - used) <? PAGE_SIZE
      then (Ret (-1), log_event (EvPrintk 0) w)
      else
        let w :=
          for_each_page_ptr (page_rounds rd_size) va_begin va_end
            (set_page_rw true) w in
        let w :=
          set_image (log_event EvAlignFirstDataSector w)
            (fat_align_first_data_sector ops (w_image w) PAGE_SIZE) in
        let w :=
          for_each_page_ptr (page_rounds rd_size) va_begin va_end
            (set_page_rw false) w in
        (Ret 0, log_event (EvPrintk 1) w).

(** ** fat_mmap *)

(** The call of map_pages() in the loop, with the call recorded. *)
Definition call_map_pages (idx : nat) (clu vaddr paddr pg_count : Z)
    (w : world) : Z * world :=
  let '(pd, mapped_cnt) :=
    map_pages (w_pdir w) vaddr paddr pg_count PAGING_FL_US_SHARED in
  (mapped_cnt,
   set_pdir
     (log_event
        (EvMapPages {| mc_idx := idx; mc_clu := clu; mc_vaddr := vaddr;
                       mc_paddr := paddr; mc_count := pg_count |}) w)
     pd).

Definition call_unmap_pages_permissive (vaddr count : Z) (w : world)
  : world :=
  set_pdir (log_event (EvUnmapPages vaddr count) w)
    (unmap_pages_permissive (w_pdir w) vaddr count false).

(** The locals of the do-while loop.  [lv_idx] counts the rounds made so
    far; it is not a variable of the C code. *)
Record loop_vars := {
  lv_idx : nat;
  lv_clu : Z;
  lv_off : Z;
  lv_vaddr : Z;
  lv_tot_mapped_cnt : Z;
}.

Inductive step_result :=
| Done (o : outcome) (w : world)         (* break or return *)
| Next (lv : loop_vars) (w : world).     (* one more round *)

(** What follows the if/else in the loop body: the next cluster is read,
    asserted not to be bad, and tested for the end of the chain. *)
Definition fat_mmap_next (idx : nat) (clu off vaddr tot_mapped_cnt : Z)
    (w : world) : step_result :=
  let d := w_dev w in
  let clu := fat_read_fat_entry ops (w_image w) (type d) 0 clu in
  if asserts_enabled ops && fat_is_bad_cluster ops (type d) clu
  then Done (Panic AssertNotBadCluster) w
  else if fat_is_end_of_clusterchain ops (type d) clu
  then Done (Ret 0) w
  else Next {| lv_idx := S idx; lv_clu := clu; lv_off := off;
               lv_vaddr := vaddr; lv_tot_mapped_cnt := tot_mapped_cnt |} w.

(** One round of the do-while loop. *)
Definition fat_mmap_body (um : user_mapping) (lv : loop_vars) (w : world)
  : step_result :=
  let d := w_dev w in
  let off_begin := um_off um in
  let off_end := ulong (off_begin + um_len um) in
  let idx := lv_idx lv in
  let clu := lv_clu lv in
  let off := lv_off lv in
  let vaddr := lv_vaddr lv in
  let tot_mapped_cnt := lv_tot_mapped_cnt lv in
  let clu_end_off := ulong (off + cluster_size d) in
  if off_end <=? off then Done (Ret 0) w
  else if off_begin <? clu_end_off then
    let data := fat_get_pointer_to_cluster_data ops (hdr d) (w_image w) clu in
    let '(off, data) :=
      if off <? off_begin then
        let off := off_begin in
        let data := data + ulong (off_begin - off) in
        (off, data)
      else (off, data) in
    let pg_count :=
      Z.shiftr (ulong (Z.min clu_end_off off_end - off)) PAGE_SHIFT in
    let '(mapped_cnt, w) :=
      call_map_pages idx clu vaddr (KERNEL_VA_TO_PA ops data) pg_count w in
    if negb (mapped_cnt =? pg_count) then
      Done (Ret (- ENOMEM))
        (call_unmap_pages_permissive (um_vaddr um) tot_mapped_cnt w)
    else
      let vaddr := ulong (vaddr + ulong (Z.shiftl pg_count PAGE_SHIFT)) in
      let off := ulong (off + ulong (Z.shiftl pg_count PAGE_SHIFT)) in
      let tot_mapped_cnt := ulong (tot_mapped_cnt + mapped_cnt) in
      if asserts_enabled ops && negb (off mod cluster_size d =? 0)
      then Done (Panic AssertOffAligned) w
      else fat_mmap_next idx clu off vaddr tot_mapped_cnt w
  else
    fat_mmap_next idx clu (ulong (off + cluster_size d)) vaddr
      tot_mapped_cnt w.

Fixpoint fat_mmap_loop (fuel : nat) (um : user_mapping) (lv : loop_vars)
    (w : world) : outcome * world :=
  match fuel with
  | O => (OutOfFuel, w)
  | S fuel' =>
      match fat_mmap_body um lv w with
      | Done o w' => (o, w')
      | Next lv' w' => fat_mmap_loop fuel' um lv' w'
      end
  end.

Definition fat_mmap (fuel : nat) (um : user_mapping) (flags : Z) (w : world)
  : outcome * world :=
  let fh := h um in
  let d := w_dev w in
  if negb (mmap_support d) then (Ret (- ENODEV), w)
  else if directory (e fh) then (Ret (- EACCES), w)
  else if negb (Z.land flags (VFS_MM_DONT_MMAP ops) =? 0) then (Ret 0, w)
  else
    let clu := first_cluster (e fh) in
    fat_mmap_loop fuel um
      {| lv_idx := O; lv_clu := clu; lv_off := 0; lv_vaddr := um_vaddr um;
         lv_tot_mapped_cnt := 0 |} w.

(** A sequence of fat_mmap calls on the mount, one after the other. *)
Fixpoint fat_mmap_calls (calls : list (nat * user_mapping * Z)) (w : world)
  : list outcome * world :=
  match calls with
  | [] => ([], w)
  | (fuel, um, flags) :: rest =>
      let '(o, w1) := fat_mmap fuel um flags w in
      let '(os, w2) := fat_mmap_calls rest w1 in
      (o :: os, w2)
  end.

(** The cluster the loop is at in round [i]. *)
Definition cluster_at (w : world) (first : Z) (i : nat) : Z :=
  Nat.iter i (fat_read_fat_entry ops (w_image w) (type (w_dev w)) 0) first.

(** The invocations of the page mapper recorded in a log. *)
Definition map_calls (l : list event) : list map_call :=
  omap (fun ev => match ev with EvMapPages c => Some c | _ => None end) l.

End WithOps.

(** ** A test fixture: a FAT given by its table *)

(** A decoder for scenarios: the FAT is given as a table from cluster to
    next entry, entries from 0x0FFFFFF8 on end a chain, 0x0FFFFFF7 marks a
    bad cluster, cluster 2 is the first of the data region, which starts
    [data_off] bytes into the image; kernel addresses are mapped 3 GB up. *)
Definition table_ops (fat : gmap Z Z) (data_off cs used : Z)
    (aligned extra asserts : bool) : fat_ops :=
  {| fat_read_fat_entry := fun _ _ _ clu => default 0 (fat !! clu);
     fat_is_end_of_clusterchain := fun _ v => 268435448 <=? v;
     fat_is_bad_cluster := fun _ v => v =? 268435447;
     fat_get_pointer_to_cluster_data :=
       fun hdr _ clu => hdr + data_off + (clu - 2) * cs;
     fat_is_first_data_sector_aligned := fun _ _ => aligned;
     fat_calculate_used_bytes := fun _ => used;
     fat_align_first_data_sector := fun img _ => img;
     system_mmap_check_for_extra_ramdisk_region := fun _ => extra;
     KERNEL_VA_TO_PA := fun va => va - 3221225472;
     VFS_MM_DONT_MMAP := 1;
     asserts_enabled := asserts |}.

(** A file of three contiguous clusters 2, 3, 4. *)
Definition three_clusters : gmap Z Z :=
  <[2 := 3]> (<[3 := 4]> (<[4 := 268435455]> ∅)).

Definition one_cluster : gmap Z Z := <[2 := 268435455]> ∅.

Definition mk_world (cs : Z) (support : bool) (avail : nat) : world :=
  {| w_dev := {| hdr := 3225419776; type := fat32_type; cluster_size := cs;
                 mmap_support := support |};
     w_image := [];
     w_pdir := {| pd_map := ∅; pd_avail := avail |};
     w_pins := ∅; w_rw := ∅; w_log := [] |}.

(** A mount whose ramdisk of 16384 bytes ends at the top of the 32-bit
    address space. *)
Definition top_world : world :=
  {| w_dev := {| hdr := 4294950912; type := fat32_type; cluster_size := 4096;
                 mmap_support := false |};
     w_image := [];
     w_pdir := {| pd_map := ∅; pd_avail := 0 |};
     w_pins := ∅; w_rw := ∅; w_log := [] |}.

Definition mk_um (dir : bool) (vaddr off len : Z) : user_mapping :=
  {| h := {| e := {| directory := dir; first_cluster := 2 |} |};
     um_vaddr := vaddr; um_len := len; um_off := off |}.

(** The inputs of the scenarios: the file of three clusters of one page
    mapped at 0x40000000, and a file of one cluster of two pages. *)
Definition scenario_ops (asserts : bool) : fat_ops :=
  table_ops three_clusters 16384 4096 0 true false asserts.

Definition scenario_world : world := mk_world 4096 true 100.

Definition two_page_ops (asserts : bool) : fat_ops :=
  table_ops one_cluster 16384 8192 0 true false asserts.

Definition big_cluster_ops (asserts : bool) : fat_ops :=
  table_ops three_clusters 16384 8192 0 true false asserts.

Definition prepare_ops (used : Z) (aligned extra : bool) : fat_ops :=
  table_ops three_clusters 16384 4096 used aligned extra true.

(** ** Properties of runs *)

Section RunProperties.

Variable ops : fat_ops.

(** The size of the ramdisk region the function works with: the size passed
    in, plus one page when the extra region after the ramdisk exists. *)
Definition region_size (rd_size : Z) (w : world) : Z :=
  if system_mmap_check_for_extra_ramdisk_region ops (hdr (w_dev w))
  then ulong (rd_size + PAGE_SIZE)
  else rd_size.

(** The disk (device data and image bytes) is the same in both worlds and
    the log of the second extends the log of the first by [evs]. *)
Definition extends (w w' : world) (evs : list event) : Prop :=
  w_dev w' = w_dev w /\ w_image w' = w_image w /\
  w_log w' = w_log w ++ evs.

(** A property [P] of page-mapper calls that holds in a step whenever the
    step makes one, and an invariant [I] of the loop variables. *)
Definition step_ok (P : map_call -> Prop) (I : loop_vars -> Prop)
    (w : world) (r : step_result) : Prop :=
  match r with
  | Done _ w' =>
      exists evs, extends w w' evs /\ Forall P (map_calls evs)
  | Next lv' w' =>
      exists evs, extends w w' evs /\ Forall P (map_calls evs) /\ I lv'
  end.

(** The call is made for the cluster of its round, with the physical address
    of the first byte of that cluster. *)
Definition cluster_start_call (w : world) (first : Z) (c : map_call) : Prop :=
  mc_clu c = cluster_at ops w first (mc_idx c) /\
  mc_paddr c
  = KERNEL_VA_TO_PA ops
      (fat_get_pointer_to_cluster_data ops (hdr (w_dev w)) (w_image w)
         (mc_clu c)).

Definition at_cluster (w : world) (first : Z) (lv : loop_vars) : Prop :=
  lv_clu lv = cluster_at ops w first (lv_idx lv).

(** The cluster of the call overlaps the region [um_off, um_off + um_len). *)
Definition overlapping_call (um : user_mapping) (w0 : world) (c : map_call)
  : Prop :=
  cluster_start_call w0 (first_cluster (e (h um))) c /\
  um_off um < (Z.of_nat (mc_idx c) + 1) * cluster_size (w_dev w0) /\
  Z.of_nat (mc_idx c) * cluster_size (w_dev w0) < um_off um + um_len um.

(** At the head of the loop, [off] is the file offset of the cluster the
    loop is at, unless the region has been served to its end. *)
Definition in_step (um : user_mapping) (w0 : world) (lv : loop_vars) : Prop :=
  at_cluster w0 (first_cluster (e (h um))) lv /\
  (lv_off lv = Z.of_nat (lv_idx lv) * cluster_size (w_dev w0) \/
   um_off um + um_len um <= lv_off lv).

End RunProperties.

(** Every call of the page mapper made by this fat_mmap is for a cluster
    that overlaps the region [um_off, um_off + um_len): the cluster of
    round [i] holds the file bytes [i * cs, (i + 1) * cs). *)
Definition only_overlapping_calls (ops : fat_ops) (fuel : nat)
    (um : user_mapping) (flags : Z) (w : world) : Prop :=
  exists evs,
    w_log (snd (fat_mmap ops fuel um flags w)) = w_log w ++ evs /\
    Forall
      (fun c =>
         mc_clu c = cluster_at ops w (first_cluster (e (h um))) (mc_idx c) /\
         um_off um < (Z.of_nat (mc_idx c) + 1) * cluster_size (w_dev w) /\
         Z.of_nat (mc_idx c) * cluster_size (w_dev w) < um_off um + um_len um)
      (map_calls evs).

(** The file of the scenario: three clusters, the third one the last. *)
Definition three_cluster_file (ops : fat_ops) (w : world) (c0 : Z) : Prop :=
  let next := fat_read_fat_entry ops (w_image w) (type (w_dev w)) 0 in
  let ty := type (w_dev w) in
  fat_is_end_of_clusterchain ops ty (next c0) = false /\
  fat_is_end_of_clusterchain ops ty (next (next c0)) = false /\
  fat_is_end_of_clusterchain ops ty (next (next (next c0))) = true /\
  fat_is_bad_cluster ops ty (next c0) = false /\
  fat_is_bad_cluster ops ty (next (next c0)) = false /\
  fat_is_bad_cluster ops ty (next (next (next c0))) = false.

(** fat_mmap succeeds and maps the three clusters of the file, one page
    each, at [um_vaddr], [um_vaddr + 4096] and [um_vaddr + 8192]; each of
    the three rounds calls the page mapper (no cluster is skipped). *)
Definition maps_three_pages (ops : fat_ops) (fuel : nat) (um : user_mapping)
    (flags : Z) (w : world) : Prop :=
  let next := fat_read_fat_entry ops (w_image w) (type (w_dev w)) 0 in
  let pa clu :=
    KERNEL_VA_TO_PA ops
      (fat_get_pointer_to_cluster_data ops (hdr (w_dev w)) (w_image w) clu) in
  let c0 := first_cluster (e (h um)) in
  let v := um_vaddr um in
  exists w',
    fat_mmap ops fuel um flags w = (Ret 0, w') /\
    pd_map (w_pdir w')
    = <[v + 2 * PAGE_SIZE := pa (next (next c0))]>
        (<[v + PAGE_SIZE := pa (next c0)]>
           (<[v := pa c0]> (pd_map (w_pdir w)))) /\
    exists evs,
      w_log w' = w_log w ++ evs /\
      map_calls evs
      = [ {| mc_idx := 0; mc_clu := c0; mc_vaddr := v;
             mc_paddr := pa c0; mc_count := 1 |};
          {| mc_idx := 1; mc_clu := next c0; mc_vaddr := v + PAGE_SIZE;
             mc_paddr := pa (next c0); mc_count := 1 |};
          {| mc_idx := 2; mc_clu := next (next c0);
             mc_vaddr := v + 2 * PAGE_SIZE;
             mc_paddr := pa (next (next c0)); mc_count := 1 |} ].

(** ** fat_munmap *)

(** fat_munmap(): the test of the mount's mmap support, then the generic
    unmap of the VFS layer, [generic_fs_munmap], which is not part of
    fat32_mm.c and is taken as a parameter. *)
Definition fat_munmap
    (generic_fs_munmap : user_mapping -> Z -> Z -> world -> Z * world)
    (um : user_mapping) (vaddrp len : Z) (w : world) : Z * world :=
  let d := w_dev w in
  if negb (mmap_support d) then (- ENODEV, w)
  else generic_fs_munmap um vaddrp len w.

(** ** Vocabulary for whole runs of fat_mmap *)

Definition is_map_event (ev : event) : bool :=
  match ev with EvMapPages _ => true | _ => false end.

(** The virtual address after the calls of [l], starting from [v]: each
    call moves it on by its page count, modulo 2^32. *)
Definition end_vaddr (v : Z) (l : list map_call) : Z :=
  foldl (fun v c => ulong (v + ulong (Z.shiftl (mc_count c) PAGE_SHIFT))) v l.

(** The calls of [l] are made at consecutive virtual addresses from [v]. *)
Fixpoint chained (v : Z) (l : list map_call) : Prop :=
  match l with
  | [] => True
  | c :: l' =>
      mc_vaddr c = v /\
      chained (ulong (v + ulong (Z.shiftl (mc_count c) PAGE_SHIFT))) l'
  end.

(** The value of [tot_mapped_cnt] after the calls of [l] have all been
    served in full. *)
Definition tot_of (l : list map_call) : Z :=
  foldl (fun t c => ulong (t + mc_count c)) 0 l.

(** The pages of the range [va_begin, va_end) that the loops over a range
    visit: va_begin, va_begin + PAGE_SIZE, ... *)
Fixpoint pages_from (n : nat) (va : Z) : list Z :=
  match n with
  | O => []
  | S n' => va :: pages_from n' (va + PAGE_SIZE)
  end.

Definition range_pages (va_begin va_end : Z) : list Z :=
  pages_from (Z.to_nat ((va_end - va_begin + PAGE_SIZE - 1) / PAGE_SIZE))
    va_begin.

(** The number of rounds the loop of fat_mmap needs at most from the state
    [lv] on, for a region that ends at [b]. *)
Definition rounds_left (cs b : Z) (lv : loop_vars) : nat :=
  if b <=? lv_off lv then 1%nat
  else Z.to_nat ((b - lv_off lv) / cs + 2).

(** What holds of the loop variables and the world at the head of each
    round of a run of fat_mmap started in [w0]. *)
Definition run_inv (um : user_mapping) (w0 : world) (lv : loop_vars)
    (w : world) : Prop :=
  exists evs,
    w_log w = w_log w0 ++ evs /\
    forallb is_map_event evs = true /\
    chained (um_vaddr um) (map_calls evs) /\
    lv_vaddr lv = end_vaddr (um_vaddr um) (map_calls evs) /\
    lv_tot_mapped_cnt lv = tot_of (map_calls evs) /\
    w_dev w = w_dev w0 /\ w_image w = w_image w0 /\
    w_pins w = w_pins w0 /\ w_rw w = w_rw w0.

(** What holds when the loop is left with outcome [o] in world [w]. *)
Definition run_post (um : user_mapping) (w0 : world) (o : outcome)
    (w : world) : Prop :=
  exists evs,
    w_log w = w_log w0 ++ evs /\
    w_dev w = w_dev w0 /\ w_image w = w_image w0 /\
    w_pins w = w_pins w0 /\ w_rw w = w_rw w0 /\
    ((o <> Ret (- ENOMEM) /\
      (forall rc, o = Ret rc -> rc = 0) /\
      forallb is_map_event evs = true /\
      chained (um_vaddr um) (map_calls evs)) \/
     (o = Ret (- ENOMEM) /\
      exists pre c,
        evs = pre ++ [EvMapPages c;
                      EvUnmapPages (um_vaddr um) (tot_of (map_calls pre))] /\
        forallb is_map_event pre = true /\
        chained (um_vaddr um) (map_calls (pre ++ [EvMapPages c])) /\
        forall k, 0 <= k < tot_of (map_calls pre) ->
          pd_map (w_pdir w) !! (um_vaddr um + k * PAGE_SIZE) = None)).

(** The call is made for a cluster that overlaps the region, with the
    page count of the part of the cluster that lies in the region, and (when
    the virtual range of the mapping does not wrap around) at the virtual
    address of that part: a byte at file offset [f] of the region belongs at
    [um_vaddr + (f - um_off)]. *)
Definition exact_call (ops : fat_ops) (um : user_mapping) (w0 : world)
    (c : map_call) : Prop :=
  overlapping_call ops um w0 c /\
  mc_count c * PAGE_SIZE
  = Z.min ((Z.of_nat (mc_idx c) + 1) * cluster_size (w_dev w0))
      (um_off um + um_len um)
    - Z.max (Z.of_nat (mc_idx c) * cluster_size (w_dev w0)) (um_off um) /\
  (0 <= um_vaddr um -> um_vaddr um + um_len um < 2 ^ ULONG_BITS ->
   mc_vaddr c
   = um_vaddr um
     + (Z.max (Z.of_nat (mc_idx c) * cluster_size (w_dev w0)) (um_off um)
        - um_off um)).

(** [in_step], with [off] a non-negative multiple of the page size inside
    the region or at its end, and [vaddr] in step with [off]. *)
Definition in_step_aligned (ops : fat_ops) (um : user_mapping) (w0 : world)
    (lv : loop_vars) : Prop :=
  in_step ops um w0 lv /\ 0 <= lv_off lv /\ lv_off lv mod PAGE_SIZE = 0 /\
  lv_off lv <= um_off um + um_len um /\
  (0 <= um_vaddr um -> um_vaddr um + um_len um < 2 ^ ULONG_BITS ->
   lv_vaddr lv = um_vaddr um + (Z.max (lv_off lv) (um_off um) - um_off um)).

(** In the page directory [m], the pages the call [c] asked for are mapped
    as it asked, and they lie in the virtual range [lo, hi). *)
Definition served (m : gmap Z Z) (lo hi : Z) (c : map_call) : Prop :=
  lo <= mc_vaddr c /\ mc_vaddr c + mc_count c * PAGE_SIZE <= hi /\
  0 <= mc_count c /\
  forall j, 0 <= j < mc_count c ->
    m !! (mc_vaddr c + j * PAGE_SIZE) = Some (mc_paddr c + j * PAGE_SIZE).

(** At the head of a round of a run on a page-aligned region: the page
    directory differs from the initial one only in [um_vaddr, vaddr), where
    the calls made so far have been served. *)
Definition pages_inv (um : user_mapping) (w0 : world) (lv : loop_vars)
    (w : world) : Prop :=
  w_dev w = w_dev w0 /\
  0 <= lv_off lv <= um_off um + um_len um /\
  lv_off lv mod PAGE_SIZE = 0 /\
  lv_vaddr lv = um_vaddr um + (Z.max (lv_off lv) (um_off um) - um_off um) /\
  lv_tot_mapped_cnt lv * PAGE_SIZE
  = Z.max (lv_off lv) (um_off um) - um_off um /\
  (forall x, x < um_vaddr um \/ lv_vaddr lv <= x ->
     pd_map (w_pdir w) !! x = pd_map (w_pdir w0) !! x) /\
  (um_len um <= Z.of_nat (pd_avail (w_pdir w0)) * PAGE_SIZE ->
   um_off um + um_len um - Z.max (lv_off lv) (um_off um)
   <= Z.of_nat (pd_avail (w_pdir w)) * PAGE_SIZE) /\
  exists evs,
    w_log w = w_log w0 ++ evs /\
    Forall (served (pd_map (w_pdir w)) (um_vaddr um) (lv_vaddr lv))
      (map_calls evs).

(** When the run is over: nothing outside the requested virtual range has
    changed, unless the outcome is -ENOMEM every call has been served, and
    the outcome is not -ENOMEM when the page mapper could map the whole
    region at the start. *)
Definition pages_post (um : user_mapping) (w0 : world) (o : outcome)
    (w : world) : Prop :=
  (forall x, x < um_vaddr um \/ um_vaddr um + um_len um <= x ->
     pd_map (w_pdir w) !! x = pd_map (w_pdir w0) !! x) /\
  (o <> Ret (- ENOMEM) ->
   exists evs,
     w_log w = w_log w0 ++ evs /\
     Forall
       (served (pd_map (w_pdir w)) (um_vaddr um) (um_vaddr um + um_len um))
       (map_calls evs)) /\
  (um_len um <= Z.of_nat (pd_avail (w_pdir w0)) * PAGE_SIZE ->
   o <> Ret (- ENOMEM)).

(** ** modules/tracing/tracing_types.c: dumping open() flags *)

(** The cast to [int]: 32 bits, two's complement. *)
Definition sint (x : Z) : Z := (x + 2 ^ 31) mod 2 ^ 32 - 2 ^ 31.

(** The memory around [dest], as bytes by their offset from [dest] (the
    code also reads and writes [dest[used - 1]], which can be [dest[-1]]). *)
Definition dest_mem := gmap Z Z.

(** snprintk(dest + off, size, "%s", str) of the kernel's printk code, which
    is not part of tracing_types.c: a function from the memory, the offset,
    the size and the string to the memory after the call and the [int]
    returned. *)
Definition snprintk_t := dest_mem -> Z -> Z -> string -> dest_mem * Z.

(** The result of buf_append(): what it returns, the memory, *used and
    *rem; [None] when its ASSERT() fails. *)
Definition buf_state : Type := bool * dest_mem * Z * Z.

Definition buf_append (asserts : bool) (snprintk : snprintk_t)
    (dest : dest_mem) (used rem : Z) (str : string) : option buf_state :=
  if asserts && (rem <? 0) then None
  else if rem =? 0 then Some (false, dest, used, rem)
  else
    let '(dest, rc) := snprintk dest used (ulong rem) str in
    if rem <=? rc then Some (false, dest, used, rem)
    else Some (true, dest, sint (used + rc), sint (rem - rc)).

Definition is_flag_on (var fl : Z) : bool := Z.land var fl =? fl.

(** The flags dump_param_open_flags() checks, in its order. *)
Inductive open_flag :=
| O_APPEND | O_ASYNC | O_CLOEXEC | O_CREAT | O_DIRECT | O_DIRECTORY
| O_DSYNC | O_EXCL | O_LARGEFILE | O_NOATIME | O_NOCTTY | O_NOFOLLOW
| O_NONBLOCK | O_NDELAY | O_PATH | O_SYNC | O_TMPFILE | O_TRUNC.

Definition open_flags_checked : list open_flag :=
  [O_APPEND; O_ASYNC; O_CLOEXEC; O_CREAT; O_DIRECT; O_DIRECTORY; O_DSYNC;
   O_EXCL; O_LARGEFILE; O_NOATIME; O_NOCTTY; O_NOFOLLOW; O_NONBLOCK;
   O_NDELAY; O_PATH; O_SYNC; O_TMPFILE; O_TRUNC].

(** #x "|" of OPEN_CHECK_FLAG(x). *)
Definition flag_text (x : open_flag) : string :=
  match x with
  | O_APPEND => "O_APPEND|" | O_ASYNC => "O_ASYNC|"
  | O_CLOEXEC => "O_CLOEXEC|" | O_CREAT => "O_CREAT|"
  | O_DIRECT => "O_DIRECT|" | O_DIRECTORY => "O_DIRECTORY|"
  | O_DSYNC => "O_DSYNC|" | O_EXCL => "O_EXCL|"
  | O_LARGEFILE => "O_LARGEFILE|" | O_NOATIME => "O_NOATIME|"
  | O_NOCTTY => "O_NOCTTY|" | O_NOFOLLOW => "O_NOFOLLOW|"
  | O_NONBLOCK => "O_NONBLOCK|" | O_NDELAY => "O_NDELAY|"
  | O_PATH => "O_PATH|" | O_SYNC => "O_SYNC|"
  | O_TMPFILE => "O_TMPFILE|" | O_TRUNC => "O_TRUNC|"
  end%string.

(** The OPEN_CHECK_FLAG(x) lines for the flags of [l]: each flag that is on
    is appended, and the first append that fails ends the function with
    [false].  [flag_val] gives the values of the O_* constants, which come
    from the system headers. *)
Fixpoint open_check_flags (asserts : bool) (snprintk : snprintk_t)
    (flag_val : open_flag -> Z) (l : list open_flag) (fl : Z)
    (dest : dest_mem) (used rem : Z) : option buf_state :=
  match l with
  | [] => Some (true, dest, used, rem)
  | x :: l' =>
      if is_flag_on fl (flag_val x) then
        match buf_append asserts snprintk dest used rem (flag_text x) with
        | None => None
        | Some (false, dest, used, rem) => Some (false, dest, used, rem)
        | Some (true, dest, used, rem) =>
            open_check_flags asserts snprintk flag_val l' fl dest used rem
        end
      else open_check_flags asserts snprintk flag_val l' fl dest used rem
  end.

(** dump_param_open_flags(): what it returns and the memory afterwards;
    [None] when an ASSERT() fails.  '0' is 48 and '|' is 124. *)
Definition dump_param_open_flags (asserts : bool) (snprintk : snprintk_t)
    (flag_val : open_flag -> Z) (fl : Z) (dest : dest_mem)
    (dest_buf_size : Z) : option (bool * dest_mem) :=
  let rem := sint dest_buf_size in
  let used := 0 in
  if fl =? 0 then Some (true, <[1 := 0]> (<[0 := 48]> dest))
  else
    match open_check_flags asserts snprintk flag_val open_flags_checked fl
            dest used rem with
    | None => None
    | Some (false, dest, _, _) => Some (false, dest)
    | Some (true, dest, used, _) =>
        if asserts && negb (default 0 (dest !! (used - 1)) =? 124) then None
        else Some (true, <[used - 1 := 0]> dest)
    end.

(** A snprintk for examples, with the return value of C99: the string is
    written as far as the size allows, a NUL after it, and the length of
    the string is returned. *)
Fixpoint write_str (dest : dest_mem) (off : Z) (room : nat) (str : string)
  : dest_mem :=
  match room with
  | O => dest
  | S room' =>
      match room', str with
      | O, _ => <[off := 0]> dest
      | _, EmptyString => <[off := 0]> dest
      | _, String ch str' =>
          write_str (<[off := Z.of_N (N_of_ascii ch)]> dest) (off + 1) room'
            str'
      end
  end.

Definition snprintk_c99 : snprintk_t :=
  fun dest off size str =>
    (write_str dest off (Z.to_nat size) str, Z.of_nat (String.length str)).

(** The values of the flags on Linux/i386, for examples. *)
Definition flag_val_linux (x : open_flag) : Z :=
  match x with
  | O_APPEND => 1024 | O_ASYNC => 8192 | O_CLOEXEC => 524288
  | O_CREAT => 64 | O_DIRECT => 16384 | O_DIRECTORY => 65536
  | O_DSYNC => 4096 | O_EXCL => 128 | O_LARGEFILE => 32768
  | O_NOATIME => 262144 | O_NOCTTY => 256 | O_NOFOLLOW => 131072
  | O_NONBLOCK => 2048 | O_NDELAY => 2048 | O_PATH => 2097152
  | O_SYNC => 1052672 | O_TMPFILE => 4259840 | O_TRUNC => 512
  end.

(** ** Entry guards of fat_mmap *)

Section Guards.

Variable ops : fat_ops.

(** C2: fat_mmap tests, in this order, the mount's mmap support (-ENODEV),
    the directory flag of the entry (-EACCES) and the VFS_MM_DONT_MMAP bit
    of the flags (0); the first test that applies decides, and in the three
    cases the world is returned as it was: no page is mapped and the log of
    calls to the page mapper gets no entry. *)
Theorem fat_mmap_entry_guards (fuel : nat) (um : user_mapping) (flags : Z)
    (w : world) :
  (mmap_support (w_dev w) = false ->
   fat_mmap ops fuel um flags w = (Ret (- ENODEV), w)) /\
  (mmap_support (w_dev w) = true -> directory (e (h um)) = true ->
   fat_mmap ops fuel um flags w = (Ret (- EACCES), w)) /\
  (mmap_support (w_dev w) = true -> directory (e (h um)) = false ->
   Z.land flags (VFS_MM_DONT_MMAP ops) <> 0 ->
   fat_mmap ops fuel um flags w = (Ret 0, w)).
Proof.
  unfold fat_mmap. repeat split.
  - intros ->. reflexivity.
  - intros -> ->. reflexivity.
  - intros -> -> Hfl. cbn.
    destruct (Z.eqb_spec (Z.land flags (VFS_MM_DONT_MMAP ops)) 0); [lia|].
    reflexivity.
Qed.

Lemma fat_mmap_unsupported (fuel : nat) (um : user_mapping) (flags : Z)
    (w : world) :
  mmap_support (w_dev w) = false ->
  fat_mmap ops fuel um flags w = (Ret (- ENODEV), w).
Proof. intros H. unfold fat_mmap. rewrite H. reflexivity. Qed.

Lemma fat_mmap_calls_unsupported (calls : list (nat * user_mapping * Z))
    (w : world) :
  mmap_support (w_dev w) = false ->
  fat_mmap_calls ops calls w
  = (List.map (fun _ => Ret (- ENODEV)) calls, w).
Proof.
  intros H. induction calls as [|[[fuel um] flags] rest IH]; [reflexivity|].
  cbn [fat_mmap_calls List.map].
  rewrite fat_mmap_unsupported by exact H. rewrite IH. reflexivity.
Qed.

Lemma IS_PAGE_ALIGNED_spec (x : Z) :
  IS_PAGE_ALIGNED x = true <-> x mod PAGE_SIZE = 0.
Proof.
  unfold IS_PAGE_ALIGNED.
  change (PAGE_SIZE - 1) with (Z.ones PAGE_SHIFT).
  rewrite Z.land_ones by (unfold PAGE_SHIFT; lia).
  change (2 ^ PAGE_SHIFT) with PAGE_SIZE.
  apply Z.eqb_eq.
Qed.

(** C3: when the cluster size is below the page size or not a multiple of
    it, fat_ramdisk_prepare_for_mmap returns -1 and leaves everything as it
    was (nothing retained, no page made writable, image and device data
    untouched); mmap support, off before the call, is still off, and every
    later fat_mmap on the mount returns -ENODEV, the world (and with it the
    log of page-mapper calls) unchanged. *)
Theorem prepare_rejects_cluster_size (rd_size : Z) (w : world)
    (calls : list (nat * user_mapping * Z)) :
  cluster_size (w_dev w) < PAGE_SIZE \/
  cluster_size (w_dev w) mod PAGE_SIZE <> 0 ->
  mmap_support (w_dev w) = false ->
  exists w',
    fat_ramdisk_prepare_for_mmap ops rd_size w = (Ret (-1), w') /\
    w' = w /\
    mmap_support (w_dev w') = false /\
    fat_mmap_calls ops calls w'
    = (List.map (fun _ => Ret (- ENODEV)) calls, w').
Proof.
  intros Hcs Hoff. exists w. split; [|split; [reflexivity|split; [exact Hoff|]]].
  - unfold fat_ramdisk_prepare_for_mmap.
    destruct (Z.ltb_spec (cluster_size (w_dev w)) PAGE_SIZE) as [Hlt|Hge].
    + reflexivity.
    + destruct (IS_PAGE_ALIGNED (cluster_size (w_dev w))) eqn:Hal.
      * apply IS_PAGE_ALIGNED_spec in Hal. destruct Hcs; [lia|contradiction].
      * reflexivity.
  - apply fat_mmap_calls_unsupported, Hoff.
Qed.

End Guards.

(** ** fat_ramdisk_prepare_for_mmap *)

Lemma for_each_page_preserves {A : Type} (proj : world -> A)
    (f : Z -> world -> world) :
  (forall va w, proj (f va w) = proj w) ->
  forall n va va_end w, proj (for_each_page n va va_end f w) = proj w.
Proof.
  intros Hf n. induction n as [|n IH]; intros va va_end w; cbn.
  - reflexivity.
  - destruct (va <? va_end); [|reflexivity]. rewrite IH. apply Hf.
Qed.

Lemma for_each_page_ptr_preserves {A : Type} (proj : world -> A)
    (f : Z -> world -> world) :
  (forall va w, proj (f va w) = proj w) ->
  forall n va va_end w, proj (for_each_page_ptr n va va_end f w) = proj w.
Proof.
  intros Hf n. induction n as [|n IH]; intros va va_end w; cbn.
  - reflexivity.
  - destruct (va <? va_end); [|reflexivity]. rewrite IH. apply Hf.
Qed.

Lemma retain_image vaddr len w :
  w_image (retain_pageframes_mapped_at vaddr len w) = w_image w.
Proof.
  unfold retain_pageframes_mapped_at.
  rewrite (for_each_page_preserves w_image) by reflexivity. reflexivity.
Qed.

Lemma retain_dev vaddr len w :
  w_dev (retain_pageframes_mapped_at vaddr len w) = w_dev w.
Proof.
  unfold retain_pageframes_mapped_at.
  rewrite (for_each_page_preserves w_dev) by reflexivity. reflexivity.
Qed.

Lemma retain_rw vaddr len w :
  w_rw (retain_pageframes_mapped_at vaddr len w) = w_rw w.
Proof.
  unfold retain_pageframes_mapped_at.
  rewrite (for_each_page_preserves w_rw) by reflexivity. reflexivity.
Qed.

Lemma retain_pdir vaddr len w :
  w_pdir (retain_pageframes_mapped_at vaddr len w) = w_pdir w.
Proof.
  unfold retain_pageframes_mapped_at.
  rewrite (for_each_page_preserves w_pdir) by reflexivity. reflexivity.
Qed.

Lemma retain_log vaddr len w :
  w_log (retain_pageframes_mapped_at vaddr len w)
  = w_log w ++ [EvRetain vaddr len].
Proof.
  unfold retain_pageframes_mapped_at.
  rewrite (for_each_page_preserves w_log) by reflexivity. reflexivity.
Qed.

Lemma PAGE_SIZE_pos : 0 < PAGE_SIZE.
Proof. reflexivity. Qed.

(** Pages below the one the loop is at keep their reference count. *)
Lemma for_each_page_retain_below n : forall va va_end w x,
  x < va ->
  w_pins (for_each_page n va va_end retain_page w) !! x = w_pins w !! x.
Proof.
  induction n as [|n IH]; intros va va_end w x Hx; cbn; [reflexivity|].
  destruct (va <? va_end); [|reflexivity].
  rewrite IH by (pose proof PAGE_SIZE_pos; lia).
  cbn. apply lookup_insert_ne. lia.
Qed.

(** The first page of a non-empty range gets one more reference. *)
Lemma retain_first_page vaddr len w :
  0 < len ->
  w_pins (retain_pageframes_mapped_at vaddr len w) !! vaddr
  = Some (S (default O (w_pins w !! vaddr))).
Proof.
  intros Hlen. unfold retain_pageframes_mapped_at, page_rounds.
  assert (Hn : exists n, Z.to_nat (len / PAGE_SIZE + 1) = S n).
  { exists (Z.to_nat (len / PAGE_SIZE)).
    pose proof (Z.div_pos len PAGE_SIZE ltac:(lia) PAGE_SIZE_pos). lia. }
  destruct Hn as [n ->]. cbn [for_each_page].
  destruct (Z.ltb_spec vaddr (vaddr + len)); [|lia].
  rewrite for_each_page_retain_below by (pose proof PAGE_SIZE_pos; lia).
  cbn. apply lookup_insert_eq.
Qed.

Section Prepare.

Variable ops : fat_ops.

Lemma cluster_size_ok_test (w : world) :
  PAGE_SIZE <= cluster_size (w_dev w) ->
  cluster_size (w_dev w) mod PAGE_SIZE = 0 ->
  (cluster_size (w_dev w) <? PAGE_SIZE)
  || negb (IS_PAGE_ALIGNED (cluster_size (w_dev w))) = false.
Proof.
  intros Hge Hmod. apply IS_PAGE_ALIGNED_spec in Hmod. rewrite Hmod.
  destruct (Z.ltb_spec (cluster_size (w_dev w)) PAGE_SIZE); [lia|reflexivity].
Qed.

(** C6, amended: for a misaligned image whose used bytes equal the full
    size of the region the function works with, which is the ramdisk size
    passed in when no extra page follows the ramdisk, and that size plus
    one page when the extra page after the ramdisk is there,
    fat_ramdisk_prepare_for_mmap returns -1; the device data, hence mmap
    support, and the image are as before. *)
Theorem prepare_no_headroom_fails (rd_size : Z) (w : world) :
  PAGE_SIZE <= cluster_size (w_dev w) ->
  cluster_size (w_dev w) mod PAGE_SIZE = 0 ->
  fat_is_first_data_sector_aligned ops (w_image w) PAGE_SIZE = false ->
  (system_mmap_check_for_extra_ramdisk_region ops (hdr (w_dev w)) = false /\
   fat_calculate_used_bytes ops (w_image w) = rd_size) \/
  (system_mmap_check_for_extra_ramdisk_region ops (hdr (w_dev w)) = true /\
   fat_calculate_used_bytes ops (w_image w) = ulong (rd_size + PAGE_SIZE)) ->
  exists w',
    fat_ramdisk_prepare_for_mmap ops rd_size w = (Ret (-1), w') /\
    w_dev w' = w_dev w /\
    mmap_support (w_dev w') = mmap_support (w_dev w) /\
    w_image w' = w_image w.
Proof.
  intros Hge Hmod Hmis Hcase.
  assert (Hused : fat_calculate_used_bytes ops (w_image w)
                  = region_size ops rd_size w).
  { unfold region_size. destruct Hcase as [[-> ->]|[-> ->]]; reflexivity. }
  unfold fat_ramdisk_prepare_for_mmap. fold (region_size ops rd_size w).
  rewrite cluster_size_ok_test by assumption.
  rewrite retain_image, Hmis, Hused, Z.leb_refl, Z.sub_diag. cbn [negb].
  change (ulong 0 <? PAGE_SIZE) with true. cbv iota.
  eexists. split; [reflexivity|].
  cbn. rewrite retain_dev, retain_image. auto.
Qed.

(** With the extra page after the ramdisk, an image that uses all of the
    [rd_size] bytes passed in still has its page of headroom, and the
    function goes on to align it. *)
Remark prepare_extra_page_is_headroom (rd_size : Z) (w : world) :
  PAGE_SIZE <= cluster_size (w_dev w) ->
  cluster_size (w_dev w) mod PAGE_SIZE = 0 ->
  fat_is_first_data_sector_aligned ops (w_image w) PAGE_SIZE = false ->
  system_mmap_check_for_extra_ramdisk_region ops (hdr (w_dev w)) = true ->
  0 <= rd_size -> rd_size + PAGE_SIZE < 2 ^ ULONG_BITS ->
  fat_calculate_used_bytes ops (w_image w) = rd_size ->
  fst (fat_ramdisk_prepare_for_mmap ops rd_size w) = Ret 0.
Proof.
  intros Hge Hmod Hmis Hextra H0 Hlt Hused.
  unfold fat_ramdisk_prepare_for_mmap.
  rewrite cluster_size_ok_test by assumption.
  rewrite Hextra, retain_image, Hmis, Hused.
  assert (Hu : ulong (rd_size + PAGE_SIZE) = rd_size + PAGE_SIZE).
  { unfold ulong. apply Z.mod_small. pose proof PAGE_SIZE_pos. lia. }
  rewrite Hu.
  destruct (Z.leb_spec rd_size (rd_size + PAGE_SIZE));
    [|pose proof PAGE_SIZE_pos; lia].
  cbn [negb].
  replace (rd_size + PAGE_SIZE - rd_size) with PAGE_SIZE by lia.
  reflexivity.
Qed.

(** C8: with a cluster size that passes the test and a first data sector
    that is page-aligned already, fat_ramdisk_prepare_for_mmap returns 0
    and all it does is retain the pages of the ramdisk: the image, the
    device data, the page permissions and the page directory are as before
    and the log gains the one retain call. *)
Theorem prepare_aligned_only_retains (rd_size : Z) (w : world) :
  PAGE_SIZE <= cluster_size (w_dev w) ->
  cluster_size (w_dev w) mod PAGE_SIZE = 0 ->
  fat_is_first_data_sector_aligned ops (w_image w) PAGE_SIZE = true ->
  exists w',
    fat_ramdisk_prepare_for_mmap ops rd_size w = (Ret 0, w') /\
    w' = retain_pageframes_mapped_at (hdr (w_dev w)) (region_size ops rd_size w) w /\
    w_image w' = w_image w /\
    w_dev w' = w_dev w /\
    w_rw w' = w_rw w /\
    w_pdir w' = w_pdir w /\
    w_log w' = w_log w ++ [EvRetain (hdr (w_dev w)) (region_size ops rd_size w)].
Proof.
  intros Hge Hmod Hal.
  unfold fat_ramdisk_prepare_for_mmap. fold (region_size ops rd_size w).
  rewrite cluster_size_ok_test by assumption.
  rewrite retain_image, Hal.
  eexists. split; [reflexivity|].
  rewrite retain_image, retain_dev, retain_rw, retain_pdir, retain_log.
  repeat split; reflexivity.
Qed.

Lemma for_each_page_rw_log (b : bool) n : forall va va_end w,
  exists evs,
    w_log (for_each_page_ptr n va va_end (set_page_rw b) w) = w_log w ++ evs.
Proof.
  induction n as [|n IH]; intros va va_end w; cbn.
  - exists []. symmetry. apply app_nil_r.
  - destruct (va <? va_end).
    + destruct (IH (ulong (va + PAGE_SIZE)) va_end (set_page_rw b va w))
        as [evs ->].
      cbn. rewrite <- app_assoc. eauto.
    + exists []. symmetry. apply app_nil_r.
Qed.

Lemma for_each_page_rw_pins (b : bool) n va va_end w :
  w_pins (for_each_page_ptr n va va_end (set_page_rw b) w) = w_pins w.
Proof. apply (for_each_page_ptr_preserves w_pins). reflexivity. Qed.

(** C9: when the cluster size passes the test, the first thing
    fat_ramdisk_prepare_for_mmap does is retain the pages of the ramdisk
    region: whatever the outcome, the retain call is the first new entry
    of the log and the reference counts are those after retaining.  On the
    path where the image is misaligned and less than a page of the region
    is unused, the function returns -1 with the pages still retained, so
    the world it leaves differs from the one it found. *)
Theorem prepare_retains_before_checks (rd_size : Z) (w : world) :
  PAGE_SIZE <= cluster_size (w_dev w) ->
  cluster_size (w_dev w) mod PAGE_SIZE = 0 ->
  let rd := region_size ops rd_size w in
  let w1 := retain_pageframes_mapped_at (hdr (w_dev w)) rd w in
  let r := fat_ramdisk_prepare_for_mmap ops rd_size w in
  (exists rest,
     w_log (snd r) = w_log w ++ EvRetain (hdr (w_dev w)) rd :: rest) /\
  w_pins (snd r) = w_pins w1 /\
  (fat_is_first_data_sector_aligned ops (w_image w) PAGE_SIZE = false ->
   fat_calculate_used_bytes ops (w_image w) <= rd ->
   ulong (rd - fat_calculate_used_bytes ops (w_image w)) < PAGE_SIZE ->
   r = (Ret (-1), log_event (EvPrintk 0) w1) /\
   snd r <> w /\
   (0 < rd ->
    w_pins (snd r) !! hdr (w_dev w)
    = Some (S (default O (w_pins w !! hdr (w_dev w)))))).
Proof.
  intros Hge Hmod rd w1 r.
  assert (Himg : w_image w1 = w_image w) by apply retain_image.
  assert (Hr : r =
    if fat_is_first_data_sector_aligned ops (w_image w) PAGE_SIZE
    then (Ret 0, w1)
    else
      let used := fat_calculate_used_bytes ops (w_image w) in
      if negb (used <=? rd) then (Panic VerifyRdSizeGeUsed, w1)
      else if ulong (rd - used) <? PAGE_SIZE
      then (Ret (-1), log_event (EvPrintk 0) w1)
      else
        let w2 :=
          for_each_page_ptr (page_rounds rd) (hdr (w_dev w))
            (ulong (hdr (w_dev w) + rd)) (set_page_rw true) w1 in
        let w3 :=
          set_image (log_event EvAlignFirstDataSector w2)
            (fat_align_first_data_sector ops (w_image w2) PAGE_SIZE) in
        let w4 :=
          for_each_page_ptr (page_rounds rd) (hdr (w_dev w))
            (ulong (hdr (w_dev w) + rd)) (set_page_rw false) w3 in
        (Ret 0, log_event (EvPrintk 1) w4)).
  { subst r. unfold fat_ramdisk_prepare_for_mmap.
    fold (region_size ops rd_size w). fold rd.
    rewrite cluster_size_ok_test by assumption. fold w1.
    rewrite !Himg. reflexivity. }
  assert (Hlog1 : w_log w1 = w_log w ++ [EvRetain (hdr (w_dev w)) rd])
    by apply retain_log.
  split; [|split].
  - rewrite Hr.
    destruct (fat_is_first_data_sector_aligned ops (w_image w) PAGE_SIZE).
    { exists []. exact Hlog1. }
    cbv zeta.
    destruct (negb _). { exists []. exact Hlog1. }
    destruct (_ <? PAGE_SIZE).
    { exists [EvPrintk 0]. cbn. rewrite Hlog1, <- app_assoc. reflexivity. }
    cbn [snd log_event w_log].
    match goal with
    |- context [for_each_page_ptr ?n ?a ?b (set_page_rw false) ?w3]
      => destruct (for_each_page_rw_log false n a b w3) as [evs2 ->] end.
    cbn [set_image log_event w_log].
    match goal with
    |- context [for_each_page_ptr ?n ?a ?b (set_page_rw true) ?w1']
      => destruct (for_each_page_rw_log true n a b w1') as [evs1 ->] end.
    rewrite Hlog1. repeat rewrite <- app_assoc. cbn. eauto.
  - rewrite Hr.
    destruct (fat_is_first_data_sector_aligned ops (w_image w) PAGE_SIZE);
      [reflexivity|].
    cbv zeta. destruct (negb _); [reflexivity|].
    destruct (_ <? PAGE_SIZE); [reflexivity|].
    cbn [snd log_event w_pins]. rewrite for_each_page_rw_pins.
    cbn [set_image log_event w_pins]. apply for_each_page_rw_pins.
  - intros Hmis Hused Hhead. rewrite Hr, Hmis. cbv zeta.
    destruct (Z.leb_spec (fat_calculate_used_bytes ops (w_image w)) rd);
      [|lia].
    cbn [negb].
    destruct (Z.ltb_spec
                (ulong (rd - fat_calculate_used_bytes ops (w_image w)))
                PAGE_SIZE); [|lia].
    split; [reflexivity|]. split.
    + cbn [snd]. intros Heq.
      apply (f_equal (fun x => length (w_log x))) in Heq.
      cbn in Heq. rewrite Hlog1 in Heq. repeat rewrite length_app in Heq.
      cbn in Heq. lia.
    + intros Hpos. cbn [snd log_event w_pins].
      apply retain_first_page. exact Hpos.
Qed.

End Prepare.

(** ** The loop of fat_mmap: what is passed to the page mapper *)

Section MapCalls.

Variable ops : fat_ops.

Lemma extends_refl w : extends w w [].
Proof. repeat split. symmetry. apply app_nil_r. Qed.

Lemma extends_trans w1 w2 w3 evs1 evs2 :
  extends w1 w2 evs1 -> extends w2 w3 evs2 -> extends w1 w3 (evs1 ++ evs2).
Proof.
  intros (Hd1 & Hi1 & Hl1) (Hd2 & Hi2 & Hl2). repeat split.
  - congruence.
  - congruence.
  - rewrite Hl2, Hl1. symmetry. apply app_assoc.
Qed.

Lemma call_map_pages_extends idx clu vaddr paddr pg_count w :
  extends w (snd (call_map_pages idx clu vaddr paddr pg_count w))
    [EvMapPages {| mc_idx := idx; mc_clu := clu; mc_vaddr := vaddr;
                   mc_paddr := paddr; mc_count := pg_count |}].
Proof.
  unfold call_map_pages. destruct (map_pages _ _ _ _ _) as [pd n].
  repeat split.
Qed.

Lemma call_unmap_extends vaddr count w :
  extends w (call_unmap_pages_permissive vaddr count w)
    [EvUnmapPages vaddr count].
Proof. repeat split. Qed.

Lemma cluster_at_extends w w' evs first i :
  extends w w' evs -> cluster_at ops w' first i = cluster_at ops w first i.
Proof. intros (Hd & Hi & _). unfold cluster_at. rewrite Hd, Hi. reflexivity. Qed.

Lemma map_calls_app l1 l2 : map_calls (l1 ++ l2) = map_calls l1 ++ map_calls l2.
Proof. apply omap_app. Qed.

(** If every round keeps [I] and makes only calls with [P], so does the
    whole loop, whatever the fuel. *)
Lemma fat_mmap_loop_calls (P : map_call -> Prop) (I : loop_vars -> Prop)
    (um : user_mapping) (w0 : world) :
  (forall lv w evs0, extends w0 w evs0 -> I lv ->
     step_ok P I w (fat_mmap_body ops um lv w)) ->
  forall fuel lv w evs0, extends w0 w evs0 -> I lv ->
    exists evs,
      extends w (snd (fat_mmap_loop ops fuel um lv w)) evs /\
      Forall P (map_calls evs).
Proof.
  intros Hstep fuel. induction fuel as [|fuel IH]; intros lv w evs0 Hext HI.
  - exists []. split; [apply extends_refl|constructor].
  - cbn [fat_mmap_loop]. pose proof (Hstep lv w evs0 Hext HI) as Hs.
    destruct (fat_mmap_body ops um lv w) as [o w'|lv' w']; cbn in Hs.
    + exact Hs.
    + destruct Hs as (evs1 & Hext1 & HP1 & HI').
      destruct (IH lv' w' (evs0 ++ evs1)) as (evs2 & Hext2 & HP2).
      { eapply extends_trans; eassumption. }
      { exact HI'. }
      exists (evs1 ++ evs2). split.
      * eapply extends_trans; eassumption.
      * rewrite map_calls_app. apply Forall_app. split; assumption.
Qed.

Lemma fat_mmap_next_step (P : map_call -> Prop) (I : loop_vars -> Prop)
    idx clu off vaddr tot w w' evs :
  extends w w' evs -> Forall P (map_calls evs) ->
  (fat_is_end_of_clusterchain ops (type (w_dev w'))
     (fat_read_fat_entry ops (w_image w') (type (w_dev w')) 0 clu) = false ->
   I {| lv_idx := S idx;
        lv_clu := fat_read_fat_entry ops (w_image w') (type (w_dev w')) 0 clu;
        lv_off := off; lv_vaddr := vaddr; lv_tot_mapped_cnt := tot |}) ->
  step_ok P I w (fat_mmap_next ops idx clu off vaddr tot w').
Proof.
  intros Hext HP HI. unfold fat_mmap_next.
  destruct (asserts_enabled ops && _).
  - exists evs. auto.
  - destruct (fat_is_end_of_clusterchain _ _ _) eqn:Hend.
    + exists evs. auto.
    + exists evs. auto.
Qed.

Lemma ulong_0 : ulong 0 = 0.
Proof. reflexivity. Qed.

Lemma cluster_at_S w first i :
  cluster_at ops w first (S i)
  = fat_read_fat_entry ops (w_image w) (type (w_dev w)) 0
      (cluster_at ops w first i).
Proof. reflexivity. Qed.

Lemma at_cluster_next w0 w evs first lv off vaddr tot :
  extends w0 w evs -> at_cluster ops w0 first lv ->
  at_cluster ops w0 first
    {| lv_idx := S (lv_idx lv);
       lv_clu := fat_read_fat_entry ops (w_image w) (type (w_dev w)) 0
                   (lv_clu lv);
       lv_off := off; lv_vaddr := vaddr; lv_tot_mapped_cnt := tot |}.
Proof.
  intros (Hd & Hi & _) Hat. unfold at_cluster in *. cbn [lv_idx lv_clu].
  rewrite cluster_at_S, Hd, Hi, Hat. reflexivity.
Qed.

Lemma fat_mmap_body_cluster_start (um : user_mapping) (w0 : world)
    (first : Z) lv w evs0 :
  extends w0 w evs0 -> at_cluster ops w0 first lv ->
  step_ok (cluster_start_call ops w0 first) (at_cluster ops w0 first) w
    (fat_mmap_body ops um lv w).
Proof.
  intros Hext Hat. unfold fat_mmap_body.
  destruct (ulong (um_off um + um_len um) <=? lv_off lv).
  { exists []. split; [apply extends_refl|constructor]. }
  destruct (um_off um <? ulong (lv_off lv + cluster_size (w_dev w))).
  2: { apply fat_mmap_next_step with (evs := []).
       - apply extends_refl.
       - constructor.
       - intros _. eapply at_cluster_next; eassumption. }
  assert (Hdata :
    (let '(off, data) :=
       if lv_off lv <? um_off um
       then (um_off um,
             fat_get_pointer_to_cluster_data ops (hdr (w_dev w)) (w_image w)
               (lv_clu lv) + ulong (um_off um - um_off um))
       else (lv_off lv,
             fat_get_pointer_to_cluster_data ops (hdr (w_dev w)) (w_image w)
               (lv_clu lv)) in data)
    = fat_get_pointer_to_cluster_data ops (hdr (w_dev w)) (w_image w)
        (lv_clu lv)).
  { destruct (lv_off lv <? um_off um); [|reflexivity].
    rewrite Z.sub_diag, ulong_0. apply Z.add_0_r. }
  destruct (if lv_off lv <? um_off um then _ else _) as [off data].
  cbv beta iota zeta in Hdata. subst data.
  match goal with |- context [call_map_pages ?i ?c ?v ?p ?n ?w] =>
    pose proof (call_map_pages_extends i c v p n w) as Hcall;
    destruct (call_map_pages i c v p n w) as [mapped_cnt w1] end.
  cbn [snd] in Hcall.
  assert (HP : Forall (cluster_start_call ops w0 first)
                 (map_calls
                    [EvMapPages
                       {| mc_idx := lv_idx lv; mc_clu := lv_clu lv;
                          mc_vaddr := lv_vaddr lv;
                          mc_paddr :=
                            KERNEL_VA_TO_PA ops
                              (fat_get_pointer_to_cluster_data ops
                                 (hdr (w_dev w)) (w_image w) (lv_clu lv));
                          mc_count :=
                            Z.shiftr
                              (ulong
                                 (Z.min
                                    (ulong (lv_off lv + cluster_size (w_dev w)))
                                    (ulong (um_off um + um_len um)) - off))
                              PAGE_SHIFT |}])).
  { cbn. constructor; [|constructor]. split; cbn.
    - exact Hat.
    - destruct Hext as (Hd & Hi & _). rewrite Hd, Hi. reflexivity. }
  destruct (negb (mapped_cnt =? _)).
  { eexists. split.
    - eapply extends_trans; [exact Hcall|apply call_unmap_extends].
    - rewrite map_calls_app. apply Forall_app. split; [exact HP|constructor]. }
  destruct (asserts_enabled ops && negb _).
  { eexists. split; [exact Hcall|exact HP]. }
  eapply fat_mmap_next_step; [exact Hcall|exact HP|].
  intros _. destruct Hcall as (Hd1 & Hi1 & _). rewrite Hd1, Hi1.
  eapply at_cluster_next; eassumption.
Qed.

(** C10: every call of map_pages() made by fat_mmap is made for the
    cluster the loop is at and passes the physical address of the first byte
    of that cluster's data, also when the region begins inside the cluster:
    [off] is set to [off_begin] before [data += off_begin - off], which thus
    adds zero. *)
Theorem fat_mmap_paddr_is_cluster_start (fuel : nat) (um : user_mapping)
    (flags : Z) (w : world) :
  exists evs,
    w_log (snd (fat_mmap ops fuel um flags w)) = w_log w ++ evs /\
    Forall
      (fun c =>
         mc_clu c = cluster_at ops w (first_cluster (e (h um))) (mc_idx c) /\
         mc_paddr c
         = KERNEL_VA_TO_PA ops
             (fat_get_pointer_to_cluster_data ops (hdr (w_dev w)) (w_image w)
                (mc_clu c)))
      (map_calls evs).
Proof.
  unfold fat_mmap.
  destruct (negb (mmap_support (w_dev w))).
  { exists []. split; [symmetry; apply app_nil_r|constructor]. }
  destruct (directory (e (h um))).
  { exists []. split; [symmetry; apply app_nil_r|constructor]. }
  destruct (negb _).
  { exists []. split; [symmetry; apply app_nil_r|constructor]. }
  destruct (fat_mmap_loop_calls
              (cluster_start_call ops w (first_cluster (e (h um))))
              (at_cluster ops w (first_cluster (e (h um)))) um w
              (fat_mmap_body_cluster_start um w (first_cluster (e (h um))))
              fuel
              {| lv_idx := O; lv_clu := first_cluster (e (h um)); lv_off := 0;
                 lv_vaddr := um_vaddr um; lv_tot_mapped_cnt := 0 |}
              w [] (extends_refl w))
    as (evs & (_ & _ & Hlog) & HP).
  { reflexivity. }
  exists evs. split; [exact Hlog|exact HP].
Qed.

End MapCalls.

(** ** Page-aligned regions: only overlapping clusters reach the mapper *)

Lemma PAGE_SIZE_eq : PAGE_SIZE = 4096.
Proof. reflexivity. Qed.

Lemma ulong_range_eq : 2 ^ ULONG_BITS = 4294967296.
Proof. reflexivity. Qed.

Lemma ulong_small x : 0 <= x < 2 ^ ULONG_BITS -> ulong x = x.
Proof. intros H. unfold ulong. apply Z.mod_small. exact H. Qed.

(** Shifting a multiple of the page size right and left again by
    PAGE_SHIFT gives it back. *)
Lemma page_round_exact x :
  0 <= x < 2 ^ ULONG_BITS -> Z.divide PAGE_SIZE x ->
  ulong (Z.shiftl (Z.shiftr (ulong x) PAGE_SHIFT) PAGE_SHIFT) = x.
Proof.
  intros Hx [k Hk]. rewrite (ulong_small x) by exact Hx.
  rewrite Z.shiftr_div_pow2, Z.shiftl_mul_pow2 by (unfold PAGE_SHIFT; lia).
  change (2 ^ PAGE_SHIFT) with PAGE_SIZE. subst x.
  rewrite Z.div_mul by (rewrite PAGE_SIZE_eq; lia).
  apply ulong_small. exact Hx.
Qed.

Section AlignedRegion.

Variable ops : fat_ops.
Variable um : user_mapping.
Variable w0 : world.

Hypothesis cs_ge_page : PAGE_SIZE <= cluster_size (w_dev w0).
Hypothesis cs_aligned : cluster_size (w_dev w0) mod PAGE_SIZE = 0.
Hypothesis off_nonneg : 0 <= um_off um.
Hypothesis len_nonneg : 0 <= um_len um.
Hypothesis off_aligned : um_off um mod PAGE_SIZE = 0.
Hypothesis len_aligned : um_len um mod PAGE_SIZE = 0.
Hypothesis no_overflow :
  um_off um + um_len um + cluster_size (w_dev w0) <= 2 ^ ULONG_BITS.

Lemma divide_of_mod x : x mod PAGE_SIZE = 0 -> Z.divide PAGE_SIZE x.
Proof. intros H. apply Z.mod_divide; [rewrite PAGE_SIZE_eq; lia|exact H]. Qed.

Lemma fat_mmap_body_overlapping lv w evs0 :
  extends w0 w evs0 -> in_step ops um w0 lv ->
  step_ok (overlapping_call ops um w0) (in_step ops um w0) w
    (fat_mmap_body ops um lv w).
Proof.
  intros Hext [Hat Hoff].
  pose proof cs_ge_page as G1. pose proof cs_aligned as G2.
  pose proof off_nonneg as G3. pose proof len_nonneg as G4.
  pose proof off_aligned as G5. pose proof len_aligned as G6.
  pose proof no_overflow as G7.
  pose proof (fat_mmap_body_cluster_start ops um w0 (first_cluster (e (h um)))
                lv w evs0 Hext Hat) as Hstart.
  revert Hstart. unfold fat_mmap_body.
  destruct Hext as (Hd & Hi & Hl). rewrite Hd.
  set (cs := cluster_size (w_dev w0)) in G1, G2, G7, Hoff |- *.
  set (a := um_off um) in G3, G5, G7, Hoff |- *.
  set (len := um_len um) in G4, G6, G7, Hoff |- *.
  set (first := first_cluster (e (h um))) in Hat |- *.
  pose proof PAGE_SIZE_eq as HP. pose proof ulong_range_eq as HU.
  rewrite (ulong_small (a + len)) by lia.
  destruct (Z.leb_spec (a + len) (lv_off lv)) as [Hpast|Hin].
  { intros _. exists []. split; [apply extends_refl|constructor]. }
  destruct Hoff as [Hoff|Hoff]; [|lia].
  assert (Hi0 : 0 <= Z.of_nat (lv_idx lv)) by lia.
  assert (Hoff0 : 0 <= lv_off lv) by nia.
  rewrite (ulong_small (lv_off lv + cs)) by lia.
  destruct (Z.ltb_spec a (lv_off lv + cs)) as [Hov|Hbefore].
  2: { intros _. apply fat_mmap_next_step with (evs := []).
       - apply extends_refl.
       - constructor.
       - intros _. split.
         + eapply at_cluster_next; [|exact Hat]. repeat split; eassumption.
         + left. cbn [lv_off lv_idx]. rewrite Hoff. lia. }
  set (off1 := if lv_off lv <? a then a else lv_off lv).
  set (m := Z.min (lv_off lv + cs) (a + len)).
  assert (Hoff1 : off1 = Z.max (lv_off lv) a).
  { unfold off1. destruct (Z.ltb_spec (lv_off lv) a); lia. }
  assert (Hm : 0 <= m - off1 < 2 ^ ULONG_BITS) by lia.
  assert (Hdiv : Z.divide PAGE_SIZE (m - off1)).
  { assert (Hdoff : Z.divide PAGE_SIZE (lv_off lv)).
    { rewrite Hoff. apply Z.divide_mul_r, divide_of_mod, G2. }
    assert (Hda := divide_of_mod a G5).
    assert (Hdl := divide_of_mod len G6).
    assert (Hdc := divide_of_mod cs G2).
    apply Z.divide_sub_r.
    - unfold m. destruct (Z.min_spec (lv_off lv + cs) (a + len)) as [[_ ->]|[_ ->]];
        apply Z.divide_add_r; assumption.
    - rewrite Hoff1.
      destruct (Z.max_spec (lv_off lv) a) as [[_ ->]|[_ ->]]; assumption. }
  assert (Hadv :
    ulong (off1 + ulong (Z.shiftl (Z.shiftr (ulong (m - off1)) PAGE_SHIFT)
                           PAGE_SHIFT)) = m).
  { rewrite page_round_exact by assumption.
    replace (off1 + (m - off1)) with m by lia. apply ulong_small. lia. }
  replace
    (if lv_off lv <? a
     then (a, fat_get_pointer_to_cluster_data ops (hdr (w_dev w0)) (w_image w)
                (lv_clu lv) + ulong (a - a))
     else (lv_off lv,
           fat_get_pointer_to_cluster_data ops (hdr (w_dev w0)) (w_image w)
             (lv_clu lv)))
    with (off1,
          fat_get_pointer_to_cluster_data ops (hdr (w_dev w0)) (w_image w)
            (lv_clu lv)).
  2: { unfold off1. destruct (lv_off lv <? a); [|reflexivity].
       rewrite Z.sub_diag, ulong_0, Z.add_0_r. reflexivity. }
  cbv beta iota zeta. fold m. rewrite Hadv.
  match goal with |- context [call_map_pages ?i ?c ?v ?p ?n ?w] =>
    pose proof (call_map_pages_extends i c v p n w) as Hcall;
    destruct (call_map_pages i c v p n w) as [mapped_cnt w1] end.
  cbn [snd] in Hcall.
  assert (Hover : forall evs w' (P : map_call -> Prop),
            extends w w' evs ->
            Forall (cluster_start_call ops w0 first) (map_calls evs) ->
            Forall (fun c => mc_idx c = lv_idx lv) (map_calls evs) ->
            Forall (overlapping_call ops um w0) (map_calls evs)).
  { intros evs w' _ _ H1 H2. rewrite Forall_forall in *.
    intros c Hc. split; [apply H1, Hc|]. rewrite (H2 c Hc).
    fold cs a len. lia. }
  destruct (negb (mapped_cnt =? _)).
  { intros (evs & Hext' & Hcs). exists evs. split; [exact Hext'|].
    apply (Hover evs _ (fun _ => True) Hext' Hcs).
    destruct Hext' as (_ & _ & Hl').
    destruct (extends_trans _ _ _ _ _ Hcall
                (call_unmap_extends (um_vaddr um) (lv_tot_mapped_cnt lv) w1))
      as (_ & _ & Hl'').
    rewrite Hl'' in Hl'. apply app_inv_head in Hl'. subst evs.
    cbn. constructor; [reflexivity|constructor]. }
  destruct (asserts_enabled ops && negb _).
  { intros (evs & Hext' & Hcs). exists evs. split; [exact Hext'|].
    apply (Hover evs _ (fun _ => True) Hext' Hcs).
    destruct Hext' as (_ & _ & Hl'). destruct Hcall as (_ & _ & Hl'').
    rewrite Hl'' in Hl'. apply app_inv_head in Hl'. subst evs.
    cbn. constructor; [reflexivity|constructor]. }
  intros _. eapply fat_mmap_next_step; [exact Hcall| |].
  - cbn. constructor; [|constructor]. split; [split|]; cbn.
    + exact Hat.
    + rewrite Hi. reflexivity.
    + lia.
  - intros _. split.
    + destruct Hcall as (Hd1 & Hi1 & _). rewrite Hd1, Hi1.
      eapply at_cluster_next; [|exact Hat]. repeat split; eassumption.
    + cbn [lv_off lv_idx]. unfold m. lia.
Qed.

End AlignedRegion.

(** C5, for page-aligned regions: when the offset and the length of the
    region are multiples of the page size (and the cluster size is one too,
    and the offsets stay below 2^32), a cluster that lies before the start
    of the region or at or after its end is never passed to the page
    mapper. *)
Theorem fat_mmap_maps_only_overlapping (ops : fat_ops) (fuel : nat)
    (um : user_mapping) (flags : Z) (w : world) :
  PAGE_SIZE <= cluster_size (w_dev w) ->
  cluster_size (w_dev w) mod PAGE_SIZE = 0 ->
  0 <= um_off um -> 0 <= um_len um ->
  um_off um mod PAGE_SIZE = 0 ->
  um_len um mod PAGE_SIZE = 0 ->
  um_off um + um_len um + cluster_size (w_dev w) <= 2 ^ ULONG_BITS ->
  only_overlapping_calls ops fuel um flags w.
Proof.
  intros H1 H2 H3 H4 H5 H6 H7. unfold only_overlapping_calls, fat_mmap.
  destruct (negb (mmap_support (w_dev w))).
  { exists []. split; [symmetry; apply app_nil_r|constructor]. }
  destruct (directory (e (h um))).
  { exists []. split; [symmetry; apply app_nil_r|constructor]. }
  destruct (negb _).
  { exists []. split; [symmetry; apply app_nil_r|constructor]. }
  destruct (fat_mmap_loop_calls ops
              (overlapping_call ops um w) (in_step ops um w) um w
              (fat_mmap_body_overlapping ops um w H1 H2 H3 H4 H5 H6 H7)
              fuel
              {| lv_idx := O; lv_clu := first_cluster (e (h um)); lv_off := 0;
                 lv_vaddr := um_vaddr um; lv_tot_mapped_cnt := 0 |}
              w [] (extends_refl w))
    as (evs & (_ & _ & Hlog) & HP).
  { split; [reflexivity|]. left. reflexivity. }
  exists evs. split; [exact Hlog|].
  eapply Forall_impl; [exact HP|].
  intros c ((Hc & _) & Ha & Hb). auto.
Qed.

(** ** A file of three page-sized clusters *)

Lemma map_pages_one pd vaddr paddr fl n :
  pd_avail pd = S n ->
  map_pages pd vaddr paddr 1 fl
  = ({| pd_map := <[vaddr := paddr]> (pd_map pd); pd_avail := n |}, 1).
Proof.
  intros H. unfold map_pages. change (Z.to_nat 1) with 1%nat.
  cbn [map_pages_int]. rewrite H. reflexivity.
Qed.

(** A round at a cluster of one page that lies inside the region maps that
    page and moves on by one page. *)
Lemma fat_mmap_body_one_page (ops : fat_ops) (um : user_mapping)
    (lv : loop_vars) (w : world) (n : nat) :
  cluster_size (w_dev w) = PAGE_SIZE ->
  0 <= um_off um -> um_off um <= lv_off lv ->
  lv_off lv + PAGE_SIZE <= um_off um + um_len um ->
  um_off um + um_len um < 2 ^ ULONG_BITS ->
  lv_off lv mod PAGE_SIZE = 0 ->
  pd_avail (w_pdir w) = S n ->
  fat_mmap_body ops um lv w
  = fat_mmap_next ops (lv_idx lv) (lv_clu lv) (lv_off lv + PAGE_SIZE)
      (ulong (lv_vaddr lv + PAGE_SIZE)) (ulong (lv_tot_mapped_cnt lv + 1))
      (set_pdir
         (log_event
            (EvMapPages
               {| mc_idx := lv_idx lv; mc_clu := lv_clu lv;
                  mc_vaddr := lv_vaddr lv;
                  mc_paddr :=
                    KERNEL_VA_TO_PA ops
                      (fat_get_pointer_to_cluster_data ops (hdr (w_dev w))
                         (w_image w) (lv_clu lv));
                  mc_count := 1 |}) w)
         {| pd_map :=
              <[lv_vaddr lv :=
                  KERNEL_VA_TO_PA ops
                    (fat_get_pointer_to_cluster_data ops (hdr (w_dev w))
                       (w_image w) (lv_clu lv))]> (pd_map (w_pdir w));
            pd_avail := n |}).
Proof.
  intros Hcs Ha Hoff Hend Hlt Hal Hav.
  pose proof PAGE_SIZE_eq as HP. pose proof ulong_range_eq as HU.
  unfold fat_mmap_body. rewrite Hcs.
  rewrite (ulong_small (um_off um + um_len um)) by lia.
  rewrite (ulong_small (lv_off lv + PAGE_SIZE)) by lia.
  destruct (Z.leb_spec (um_off um + um_len um) (lv_off lv)); [lia|].
  destruct (Z.ltb_spec (um_off um) (lv_off lv + PAGE_SIZE)); [|lia].
  destruct (Z.ltb_spec (lv_off lv) (um_off um)); [lia|].
  rewrite Z.min_l by lia.
  replace (lv_off lv + PAGE_SIZE - lv_off lv) with PAGE_SIZE by lia.
  change (Z.shiftr (ulong PAGE_SIZE) PAGE_SHIFT) with 1.
  unfold call_map_pages. rewrite (map_pages_one _ _ _ _ n Hav).
  change (negb (1 =? 1)) with false. cbv iota.
  change (ulong (Z.shiftl 1 PAGE_SHIFT)) with PAGE_SIZE.
  rewrite (ulong_small (lv_off lv + PAGE_SIZE)) by lia.
  replace ((lv_off lv + PAGE_SIZE) mod PAGE_SIZE) with 0.
  2: { rewrite <- Z.add_mod_idemp_r, Z.mod_same, Z.add_0_r by lia.
       symmetry. exact Hal. }
  rewrite andb_false_r. reflexivity.
Qed.

(** C4, for the region widened to page boundaries: with clusters of one
    page (4096 bytes) and a file of three clusters, a request for the
    region [0, 12288) maps the three pages of the file at consecutive
    virtual addresses from the requested one, no cluster skipped. *)
Theorem fat_mmap_three_clusters (ops : fat_ops) (fuel : nat)
    (um : user_mapping) (flags : Z) (w : world) :
  cluster_size (w_dev w) = 4096 ->
  mmap_support (w_dev w) = true ->
  directory (e (h um)) = false ->
  Z.land flags (VFS_MM_DONT_MMAP ops) = 0 ->
  three_cluster_file ops w (first_cluster (e (h um))) ->
  um_off um = 0 -> um_len um = 12288 ->
  0 <= um_vaddr um -> um_vaddr um + 12288 <= 2 ^ ULONG_BITS ->
  (3 <= pd_avail (w_pdir w))%nat ->
  (3 <= fuel)%nat ->
  maps_three_pages ops fuel um flags w.
Proof.
  intros Hcs Hsup Hdir Hfl (He1 & He2 & He3 & Hb1 & Hb2 & Hb3)
    Hoff Hlen Hv0 Hv1 Hav Hfuel.
  pose proof PAGE_SIZE_eq as HP. pose proof ulong_range_eq as HU.
  destruct fuel as [|[|[|fuel]]]; try lia.
  destruct (pd_avail (w_pdir w)) as [|[|[|n]]] eqn:Hn; try lia.
  unfold maps_three_pages, fat_mmap. rewrite Hsup, Hdir, Hfl. cbn [negb Z.eqb].
  cbv iota.
  (* first round *)
  cbn [fat_mmap_loop].
  rewrite (fat_mmap_body_one_page ops um _ w (S (S n)));
    cbn [lv_off lv_idx lv_clu lv_vaddr lv_tot_mapped_cnt];
    try rewrite Hoff; try rewrite Hlen; try lia; try reflexivity;
    try assumption.
  unfold fat_mmap_next at 1. cbn [w_dev w_image set_pdir log_event].
  rewrite Hb1, He1, andb_false_r.
  (* second round *)
  rewrite (fat_mmap_body_one_page ops um _ _ (S n));
    cbn [lv_off lv_idx lv_clu lv_vaddr lv_tot_mapped_cnt w_dev w_image
         w_pdir set_pdir log_event pd_avail];
    try rewrite Hoff; try rewrite Hlen; try lia; try reflexivity;
    try assumption.
  unfold fat_mmap_next at 1. cbn [w_dev w_image set_pdir log_event].
  rewrite Hb2, He2, andb_false_r.
  (* third round *)
  rewrite (fat_mmap_body_one_page ops um _ _ n);
    cbn [lv_off lv_idx lv_clu lv_vaddr lv_tot_mapped_cnt w_dev w_image
         w_pdir set_pdir log_event pd_avail];
    try rewrite Hoff; try rewrite Hlen; try lia; try reflexivity;
    try assumption.
  unfold fat_mmap_next. cbn [w_dev w_image set_pdir log_event].
  rewrite Hb3, He3, andb_false_r.
  eexists. split; [reflexivity|].
  cbn [w_pdir w_log pd_map set_pdir log_event].
  rewrite (ulong_small (um_vaddr um + PAGE_SIZE)) by lia.
  rewrite (ulong_small (um_vaddr um + PAGE_SIZE + PAGE_SIZE)) by lia.
  replace (um_vaddr um + PAGE_SIZE + PAGE_SIZE)
    with (um_vaddr um + 2 * PAGE_SIZE) by lia.
  split; [reflexivity|].
  eexists. split.
  - repeat rewrite <- app_assoc. reflexivity.
  - reflexivity.
Qed.

(** ** The scenarios, run *)

(** The requested region [2000, 10000) as it is, not widened to pages: with
    ASSERT() compiled out the call maps one page only, the second cluster
    of the file at the requested address; with ASSERT() compiled in, the
    first round stops at the assertion on [off]. *)
Lemma fat_mmap_three_clusters_unaligned :
  ~ maps_three_pages (scenario_ops false) 10
      (mk_um false 1073741824 2000 8000) 0 scenario_world /\
  ~ maps_three_pages (scenario_ops true) 10
      (mk_um false 1073741824 2000 8000) 0 scenario_world.
Proof.
  split; intros (w' & Hrun & Hmap & _).
  - vm_compute in Hrun. injection Hrun as <-.
    apply (f_equal (fun m : gmap Z Z => m !! (1073741824 + 4096))) in Hmap.
    vm_compute in Hmap. discriminate Hmap.
  - vm_compute in Hrun. discriminate Hrun.
Qed.

Example fat_mmap_three_clusters_unaligned_run :
  exists w',
    fat_mmap (scenario_ops false) 10 (mk_um false 1073741824 2000 8000) 0
      scenario_world = (Ret 0, w') /\
    pd_map (w_pdir w') = {[ 1073741824 := 4214784 ]} /\
    KERNEL_VA_TO_PA (scenario_ops false)
      (fat_get_pointer_to_cluster_data (scenario_ops false)
         (hdr (w_dev scenario_world)) [] 3) = 4214784.
Proof. eexists. split; [vm_compute; reflexivity|]. split; reflexivity. Qed.

Lemma fat_mmap_three_clusters_witness :
  maps_three_pages (scenario_ops true) 10 (mk_um false 1073741824 0 12288) 0
    scenario_world.
Proof.
  apply fat_mmap_three_clusters;
    first [ reflexivity | (vm_compute; discriminate) | (vm_compute; lia)
          | (repeat split; reflexivity) ].
Defined.

(** A region that is not page-aligned, [2000, 4000): the second round
    passes the second cluster of the file, bytes [4096, 8192), to the page
    mapper (with a page count of 0), though it lies after the region. *)
Lemma fat_mmap_unaligned_passes_cluster_after_end :
  ~ only_overlapping_calls (scenario_ops false) 10
      (mk_um false 1073741824 2000 2000) 0 scenario_world.
Proof.
  intros (evs & Hlog & Hall). vm_compute in Hlog. subst evs.
  inversion Hall as [|c0 l0 _ Hrest]; subst.
  inversion Hrest as [|c1 l1 (_ & _ & Hlt) _]; subst.
  vm_compute in Hlt. discriminate Hlt.
Qed.

Lemma fat_mmap_maps_only_overlapping_witness :
  only_overlapping_calls (scenario_ops true) 10
    (mk_um false 1073741824 4096 4096) 0 scenario_world.
Proof.
  apply fat_mmap_maps_only_overlapping;
    first [ reflexivity | (vm_compute; discriminate) ].
Defined.

(** C1 at a failing input: clusters of two pages, a request for the first
    two clusters (four pages) and a page mapper that runs out of memory
    after three pages.  The second round gets one page of two; fat_mmap
    unmaps [tot_mapped_cnt] = 2 pages from [um->vaddr] and returns -ENOMEM,
    and the page mapped in the failing round, at [um->vaddr + 8192], is
    still mapped afterwards. *)
Theorem fat_mmap_partial_round_stays_mapped :
  let um := mk_um false 1073741824 0 16384 in
  let w := mk_world 8192 true 3 in
  let r := fat_mmap (big_cluster_ops false) 10 um 0 w in
  fst r = Ret (- ENOMEM) /\
  map_calls (w_log (snd r))
  = [ {| mc_idx := 0; mc_clu := 2; mc_vaddr := 1073741824;
         mc_paddr := 4210688; mc_count := 2 |};
      {| mc_idx := 1; mc_clu := 3; mc_vaddr := 1073741824 + 8192;
         mc_paddr := 4210688 + 8192; mc_count := 2 |} ] /\
  last (w_log (snd r)) = Some (EvUnmapPages 1073741824 2) /\
  pd_map (w_pdir w) = ∅ /\
  pd_map (w_pdir (snd r)) = {[ 1073741824 + 8192 := 4210688 + 8192 ]}.
Proof. vm_compute. repeat split; reflexivity. Qed.

(** C7 at a failing input: clusters of two pages and a request for the
    first page of a file.  The round maps one page and leaves [off] at 4096,
    which is not a multiple of the cluster size 8192: with ASSERT() compiled
    in, the assertion on [off] fails; with ASSERT() compiled out the loop
    goes on with that [off]. *)
Theorem fat_mmap_off_assertion_fails :
  let um := mk_um false 1073741824 0 4096 in
  let w := mk_world 8192 true 100 in
  let lv0 := {| lv_idx := 0; lv_clu := 2; lv_off := 0;
                lv_vaddr := 1073741824; lv_tot_mapped_cnt := 0 |} in
  fst (fat_mmap (big_cluster_ops true) 10 um 0 w) = Panic AssertOffAligned /\
  (exists w', fat_mmap_body (big_cluster_ops true) um lv0 w
              = Done (Panic AssertOffAligned) w') /\
  (exists lv' w',
     fat_mmap_body (big_cluster_ops false) um lv0 w = Next lv' w' /\
     lv_off lv' = 4096 /\
     lv_off lv' mod cluster_size (w_dev w) <> 0).
Proof.
  cbv zeta. split; [vm_compute; reflexivity|]. split.
  - eexists. vm_compute. reflexivity.
  - eexists. eexists. split; [vm_compute; reflexivity|].
    split; [reflexivity|]. vm_compute. discriminate.
Qed.

(** ** The theorems at concrete inputs *)

Lemma fat_mmap_entry_guards_witness :
  fat_mmap (scenario_ops true) 10 (mk_um false 1073741824 0 4096) 0
    (mk_world 4096 false 100)
  = (Ret (- ENODEV), mk_world 4096 false 100) /\
  fat_mmap (scenario_ops true) 10 (mk_um true 1073741824 0 4096) 0
    scenario_world
  = (Ret (- EACCES), scenario_world) /\
  fat_mmap (scenario_ops true) 10 (mk_um false 1073741824 0 4096) 1
    scenario_world
  = (Ret 0, scenario_world).
Proof.
  split; [|split].
  - apply (fat_mmap_entry_guards (scenario_ops true) 10
             (mk_um false 1073741824 0 4096) 0 (mk_world 4096 false 100)).
    reflexivity.
  - apply (fat_mmap_entry_guards (scenario_ops true) 10
             (mk_um true 1073741824 0 4096) 0 scenario_world);
      reflexivity.
  - apply (fat_mmap_entry_guards (scenario_ops true) 10
             (mk_um false 1073741824 0 4096) 1 scenario_world);
      first [reflexivity | (vm_compute; discriminate)].
Defined.

Lemma prepare_rejects_cluster_size_witness :
  exists w',
    fat_ramdisk_prepare_for_mmap (prepare_ops 0 true false) 65536
      (mk_world 6144 false 100) = (Ret (-1), w') /\
    w' = mk_world 6144 false 100 /\
    mmap_support (w_dev w') = false /\
    fat_mmap_calls (prepare_ops 0 true false)
      [(10%nat, mk_um false 1073741824 0 4096, 0);
       (10%nat, mk_um true 1073741824 0 4096, 1)] w'
    = ([Ret (- ENODEV); Ret (- ENODEV)], w').
Proof.
  apply (prepare_rejects_cluster_size (prepare_ops 0 true false) 65536
           (mk_world 6144 false 100)
           [(10%nat, mk_um false 1073741824 0 4096, 0);
            (10%nat, mk_um true 1073741824 0 4096, 1)]).
  - right. vm_compute. discriminate.
  - reflexivity.
Defined.

Lemma prepare_no_headroom_fails_witness :
  (exists w',
     fat_ramdisk_prepare_for_mmap (prepare_ops 65536 false false) 65536
       (mk_world 4096 false 100) = (Ret (-1), w') /\
     w_dev w' = w_dev (mk_world 4096 false 100) /\
     mmap_support (w_dev w')
     = mmap_support (w_dev (mk_world 4096 false 100)) /\
     w_image w' = w_image (mk_world 4096 false 100)) /\
  (exists w',
     fat_ramdisk_prepare_for_mmap (prepare_ops 69632 false true) 65536
       (mk_world 4096 false 100) = (Ret (-1), w') /\
     w_dev w' = w_dev (mk_world 4096 false 100) /\
     mmap_support (w_dev w')
     = mmap_support (w_dev (mk_world 4096 false 100)) /\
     w_image w' = w_image (mk_world 4096 false 100)).
Proof.
  split.
  - apply (prepare_no_headroom_fails (prepare_ops 65536 false false) 65536
             (mk_world 4096 false 100));
      first [ reflexivity | (vm_compute; discriminate)
            | (left; split; reflexivity) ].
  - apply (prepare_no_headroom_fails (prepare_ops 69632 false true) 65536
             (mk_world 4096 false 100));
      first [ reflexivity | (vm_compute; discriminate)
            | (right; split; reflexivity) ].
Defined.

(** A misaligned image that uses all of the 65536 bytes of the ramdisk
    passed in, on a machine where the extra page after the ramdisk is
    there: the function finds its page of headroom in the extra page,
    aligns the image and returns 0, not a failure. *)
Lemma prepare_full_ramdisk_with_extra_page :
  fat_is_first_data_sector_aligned (prepare_ops 65536 false true)
    (w_image (mk_world 4096 false 100)) PAGE_SIZE = false /\
  fat_calculate_used_bytes (prepare_ops 65536 false true)
    (w_image (mk_world 4096 false 100)) = 65536 /\
  fst (fat_ramdisk_prepare_for_mmap (prepare_ops 65536 false true) 65536
         (mk_world 4096 false 100)) = Ret 0 /\
  ~ (exists w',
       fat_ramdisk_prepare_for_mmap (prepare_ops 65536 false true) 65536
         (mk_world 4096 false 100) = (Ret (-1), w')).
Proof.
  split; [reflexivity|]. split; [reflexivity|].
  split; [vm_compute; reflexivity|].
  intros (w' & Hrun). apply (f_equal fst) in Hrun.
  vm_compute in Hrun. discriminate Hrun.
Qed.

(** A ramdisk that ends at the top of the 32-bit address space: [va_end]
    wraps around to 0, so the two loops over the pages make no call, and
    the first data sector is aligned all the same. *)
Example prepare_repair_at_top_of_memory :
  fat_ramdisk_prepare_for_mmap (prepare_ops 8192 false false) 16384 top_world
  = (Ret 0,
     log_event (EvPrintk 1)
       (log_event EvAlignFirstDataSector
          (retain_pageframes_mapped_at 4294950912 16384 top_world))).
Proof. vm_compute. reflexivity. Qed.


Lemma prepare_aligned_only_retains_witness :
  exists w',
    fat_ramdisk_prepare_for_mmap (prepare_ops 60000 true false) 65536
      (mk_world 4096 false 100) = (Ret 0, w') /\
    w_image w' = w_image (mk_world 4096 false 100) /\
    w_log w' = [EvRetain 3225419776 65536].
Proof.
  destruct (prepare_aligned_only_retains (prepare_ops 60000 true false) 65536
              (mk_world 4096 false 100))
    as (w' & Hrun & _ & Himg & _ & _ & _ & Hlog);
    [ vm_compute; discriminate | reflexivity | reflexivity | ].
  exists w'. split; [exact Hrun|]. split; [exact Himg|exact Hlog].
Defined.

Lemma prepare_retains_before_checks_witness :
  fat_ramdisk_prepare_for_mmap (prepare_ops 65000 false false) 65536
    (mk_world 4096 false 100)
  = (Ret (-1),
     log_event (EvPrintk 0)
       (retain_pageframes_mapped_at 3225419776 65536
          (mk_world 4096 false 100))).
Proof.
  apply (prepare_retains_before_checks (prepare_ops 65000 false false) 65536
           (mk_world 4096 false 100));
    first [reflexivity | (vm_compute; discriminate) | (vm_compute; reflexivity)].
Defined.

(** ** Whole runs of fat_mmap *)

Lemma fat_mmap_next_cases (ops : fat_ops) idx clu off vaddr tot w :
  fat_mmap_next ops idx clu off vaddr tot w
  = Done (Panic AssertNotBadCluster) w \/
  fat_mmap_next ops idx clu off vaddr tot w = Done (Ret 0) w \/
  fat_mmap_next ops idx clu off vaddr tot w
  = Next {| lv_idx := S idx;
            lv_clu := fat_read_fat_entry ops (w_image w) (type (w_dev w)) 0
                        clu;
            lv_off := off; lv_vaddr := vaddr; lv_tot_mapped_cnt := tot |} w.
Proof.
  unfold fat_mmap_next.
  destruct (asserts_enabled ops && _); [auto|].
  destruct (fat_is_end_of_clusterchain _ _ _); auto.
Qed.

(** The world after a call of map_pages(): the call is logged and the page
    directory is the one the page mapper returns. *)
Lemma call_map_pages_world idx clu vaddr paddr pg_count w cnt w1 :
  call_map_pages idx clu vaddr paddr pg_count w = (cnt, w1) ->
  w1 = set_pdir
         (log_event
            (EvMapPages {| mc_idx := idx; mc_clu := clu; mc_vaddr := vaddr;
                           mc_paddr := paddr; mc_count := pg_count |}) w)
         (fst (map_pages (w_pdir w) vaddr paddr pg_count PAGING_FL_US_SHARED))
  /\ cnt = snd (map_pages (w_pdir w) vaddr paddr pg_count PAGING_FL_US_SHARED).
Proof.
  unfold call_map_pages. destruct (map_pages _ _ _ _ _) as [pd n].
  intros [= <- <-]. split; reflexivity.
Qed.

(** The shape of one round, whatever the region: the loop is left because
    the region is served, or the cluster is skipped, or the page mapper is
    called once, at the current virtual address. *)
Lemma fat_mmap_body_cases (ops : fat_ops) (um : user_mapping)
    (lv : loop_vars) (w : world) :
  fat_mmap_body ops um lv w = Done (Ret 0) w \/
  (exists off',
     fat_mmap_body ops um lv w
     = fat_mmap_next ops (lv_idx lv) (lv_clu lv) off' (lv_vaddr lv)
         (lv_tot_mapped_cnt lv) w) \/
  (exists paddr pg_count cnt w1,
     call_map_pages (lv_idx lv) (lv_clu lv) (lv_vaddr lv) paddr pg_count w
     = (cnt, w1) /\
     ((cnt <> pg_count /\
       fat_mmap_body ops um lv w
       = Done (Ret (- ENOMEM))
           (call_unmap_pages_permissive (um_vaddr um)
              (lv_tot_mapped_cnt lv) w1)) \/
      (cnt = pg_count /\
       fat_mmap_body ops um lv w = Done (Panic AssertOffAligned) w1) \/
      (cnt = pg_count /\
       exists off',
         fat_mmap_body ops um lv w
         = fat_mmap_next ops (lv_idx lv) (lv_clu lv) off'
             (ulong (lv_vaddr lv + ulong (Z.shiftl pg_count PAGE_SHIFT)))
             (ulong (lv_tot_mapped_cnt lv + cnt)) w1))).
Proof.
  unfold fat_mmap_body.
  destruct (ulong (um_off um + um_len um) <=? lv_off lv); [auto|].
  destruct (um_off um <? ulong (lv_off lv + cluster_size (w_dev w)));
    [|right; left; eauto].
  right. right.
  destruct (if lv_off lv <? um_off um then _ else _) as [off data].
  destruct (call_map_pages _ _ _ _ _ _) as [cnt w1] eqn:Hcall.
  do 4 eexists. split; [exact Hcall|].
  destruct (Z.eqb_spec cnt
              (Z.shiftr
                 (ulong
                    (Z.min (ulong (lv_off lv + cluster_size (w_dev w)))
                       (ulong (um_off um + um_len um)) - off)) PAGE_SHIFT))
    as [Heq|Hne]; cbn [negb].
  - right. destruct (asserts_enabled ops && negb _).
    + left. split; [exact Heq|reflexivity].
    + right. split; [exact Heq|]. eauto.
  - left. split; [exact Hne|reflexivity].
Qed.

Lemma map_calls_snoc_map evs c :
  map_calls (evs ++ [EvMapPages c]) = map_calls evs ++ [c].
Proof. unfold map_calls. rewrite omap_app. reflexivity. Qed.

Lemma end_vaddr_snoc v l c :
  end_vaddr v (l ++ [c])
  = ulong (end_vaddr v l + ulong (Z.shiftl (mc_count c) PAGE_SHIFT)).
Proof. unfold end_vaddr. rewrite foldl_app. reflexivity. Qed.

Lemma tot_of_snoc l c : tot_of (l ++ [c]) = ulong (tot_of l + mc_count c).
Proof. unfold tot_of. rewrite foldl_app. reflexivity. Qed.

Lemma chained_snoc l : forall v c,
  chained v l -> mc_vaddr c = end_vaddr v l -> chained v (l ++ [c]).
Proof.
  induction l as [|c0 l IH]; intros v c Hl Hc; cbn in *.
  - split; [exact Hc|exact I].
  - destruct Hl as [Hv Hl]. split; [exact Hv|]. apply IH; assumption.
Qed.

(** Unmapping only removes entries. *)
Lemma unmap_pages_int_None n : forall m vaddr x,
  m !! x = None -> unmap_pages_int n m vaddr !! x = None.
Proof.
  induction n as [|n IH]; intros m vaddr x Hx; cbn; [exact Hx|].
  apply IH. rewrite lookup_delete_None. auto.
Qed.

(** After unmapping [n] pages from [vaddr], none of them is mapped. *)
Lemma unmap_pages_int_unmapped n : forall m vaddr k,
  0 <= k < Z.of_nat n ->
  unmap_pages_int n m vaddr !! (vaddr + k * PAGE_SIZE) = None.
Proof.
  induction n as [|n IH]; intros m vaddr k Hk; [lia|].
  cbn [unmap_pages_int].
  destruct (Z.eq_dec k 0) as [->|Hk0].
  - apply unmap_pages_int_None. rewrite Z.mul_0_l, Z.add_0_r.
    apply lookup_delete_eq.
  - replace (vaddr + k * PAGE_SIZE)
      with (vaddr + PAGE_SIZE + (k - 1) * PAGE_SIZE) by lia.
    apply IH. lia.
Qed.

(** A loop invariant [Inv] that every round keeps, and that gives [Post]
    when the loop is left or the fuel is used up, gives [Post] of the
    result of the loop. *)
Lemma fat_mmap_loop_inv (ops : fat_ops) (um : user_mapping)
    (Inv : loop_vars -> world -> Prop) (Post : outcome -> world -> Prop) :
  (forall lv w, Inv lv w -> Post OutOfFuel w) ->
  (forall lv w, Inv lv w ->
     match fat_mmap_body ops um lv w with
     | Done o w' => Post o w'
     | Next lv' w' => Inv lv' w'
     end) ->
  forall fuel lv w, Inv lv w ->
    Post (fst (fat_mmap_loop ops fuel um lv w))
      (snd (fat_mmap_loop ops fuel um lv w)).
Proof.
  intros Hfuel Hstep fuel.
  induction fuel as [|fuel IH]; intros lv w HI; cbn [fat_mmap_loop].
  - apply (Hfuel lv). exact HI.
  - pose proof (Hstep lv w HI) as Hs.
    destruct (fat_mmap_body ops um lv w) as [o w'|lv' w'].
    + exact Hs.
    + apply IH. exact Hs.
Qed.

Lemma run_inv_post_open (um : user_mapping) (w0 : world) lv w o :
  run_inv um w0 lv w -> o <> Ret (- ENOMEM) ->
  (forall rc, o = Ret rc -> rc = 0) ->
  run_post um w0 o w.
Proof.
  intros (evs & Hl & Hall & Hch & _ & _ & Hd & Hi & Hp & Hr) Ho Hrc.
  exists evs. repeat (split; [assumption|]). left. auto.
Qed.

Lemma run_inv_next (ops : fat_ops) (um : user_mapping) (w0 : world)
    idx clu off vaddr tot w evs :
  w_log w = w_log w0 ++ evs ->
  forallb is_map_event evs = true ->
  chained (um_vaddr um) (map_calls evs) ->
  vaddr = end_vaddr (um_vaddr um) (map_calls evs) ->
  tot = tot_of (map_calls evs) ->
  w_dev w = w_dev w0 -> w_image w = w_image w0 ->
  w_pins w = w_pins w0 -> w_rw w = w_rw w0 ->
  match fat_mmap_next ops idx clu off vaddr tot w with
  | Done o w' => run_post um w0 o w'
  | Next lv' w' => run_inv um w0 lv' w'
  end.
Proof.
  intros Hl Hall Hch Hv Ht Hd Hi Hp Hr.
  assert (Hinv : forall lv, lv_vaddr lv = vaddr -> lv_tot_mapped_cnt lv = tot ->
                   run_inv um w0 lv w).
  { intros lv Hlv Hlt. exists evs. rewrite Hlv, Hlt. auto 10. }
  pose (lv0 := {| lv_idx := idx; lv_clu := clu; lv_off := off;
                  lv_vaddr := vaddr; lv_tot_mapped_cnt := tot |}).
  destruct (fat_mmap_next_cases ops idx clu off vaddr tot w)
    as [-> | [-> | ->]].
  - apply (run_inv_post_open um w0 lv0); [apply Hinv; reflexivity| |];
      [discriminate|intros rc [=]].
  - apply (run_inv_post_open um w0 lv0); [apply Hinv; reflexivity| |].
    + intros [=].
    + intros rc [= <-]. reflexivity.
  - apply Hinv; reflexivity.
Qed.

Lemma fat_mmap_body_run (ops : fat_ops) (um : user_mapping) (w0 : world)
    lv w :
  run_inv um w0 lv w ->
  match fat_mmap_body ops um lv w with
  | Done o w' => run_post um w0 o w'
  | Next lv' w' => run_inv um w0 lv' w'
  end.
Proof.
  intros HI.
  destruct (fat_mmap_body_cases ops um lv w)
    as [-> | [(off' & ->) | (paddr & n & cnt & w1 & Hcall & Hcases)]].
  - apply (run_inv_post_open um w0 lv); [exact HI| |].
    + intros [=].
    + intros rc [= <-]. reflexivity.
  - destruct HI as (evs & Hl & Hall & Hch & Hv & Ht & Hd & Hi & Hp & Hr).
    eapply run_inv_next; eassumption.
  - destruct HI as (evs & Hl & Hall & Hch & Hv & Ht & Hd & Hi & Hp & Hr).
    apply call_map_pages_world in Hcall as [Hw1 Hcnt].
    set (c := {| mc_idx := lv_idx lv; mc_clu := lv_clu lv;
                 mc_vaddr := lv_vaddr lv; mc_paddr := paddr;
                 mc_count := n |}) in *.
    assert (Hl1 : w_log w1 = w_log w0 ++ (evs ++ [EvMapPages c])).
    { rewrite Hw1. cbn. rewrite Hl. symmetry. apply app_assoc. }
    assert (Hall1 : forallb is_map_event (evs ++ [EvMapPages c]) = true).
    { rewrite forallb_app, Hall. reflexivity. }
    assert (Hch1 : chained (um_vaddr um) (map_calls (evs ++ [EvMapPages c]))).
    { rewrite map_calls_snoc_map. apply chained_snoc; [exact Hch|exact Hv]. }
    assert (Hf1 : w_dev w1 = w_dev w0 /\ w_image w1 = w_image w0 /\
                  w_pins w1 = w_pins w0 /\ w_rw w1 = w_rw w0).
    { rewrite Hw1. cbn. auto. }
    destruct Hf1 as (Hd1 & Hi1 & Hp1 & Hr1).
    destruct Hcases as [[Hne ->] | [[Heq ->] | [Heq (off' & ->)]]].
    + exists (evs ++ [EvMapPages c;
                      EvUnmapPages (um_vaddr um) (tot_of (map_calls evs))]).
      split.
      { cbn. rewrite Hl1, Ht, <- !app_assoc. reflexivity. }
      cbn. repeat (split; [assumption|]). right. split; [reflexivity|].
      exists evs, c. split; [reflexivity|]. split; [exact Hall|].
      split; [exact Hch1|].
      intros k Hk. apply unmap_pages_int_unmapped.
      rewrite Ht. lia.
    + exists (evs ++ [EvMapPages c]).
      repeat (split; [assumption|]). left.
      split; [discriminate|]. split; [intros rc [=]|]. auto.
    + eapply run_inv_next; try eassumption.
      * rewrite map_calls_snoc_map, end_vaddr_snoc, <- Hv. reflexivity.
      * rewrite map_calls_snoc_map, tot_of_snoc, <- Ht, Heq. reflexivity.
Qed.

Lemma run_inv_start (um : user_mapping) (w : world) clu off :
  run_inv um w
    {| lv_idx := O; lv_clu := clu; lv_off := off; lv_vaddr := um_vaddr um;
       lv_tot_mapped_cnt := 0 |} w.
Proof.
  exists []. rewrite app_nil_r. cbn. auto 10.
Qed.

(** The run of fat_mmap as a whole satisfies [run_post], up to the codes of
    the entry guards. *)
Lemma fat_mmap_run (ops : fat_ops) (fuel : nat) (um : user_mapping)
    (flags : Z) (w : world) :
  (fat_mmap ops fuel um flags w = (Ret (- ENODEV), w)) \/
  (fat_mmap ops fuel um flags w = (Ret (- EACCES), w)) \/
  run_post um w (fst (fat_mmap ops fuel um flags w))
    (snd (fat_mmap ops fuel um flags w)).
Proof.
  unfold fat_mmap.
  destruct (negb (mmap_support (w_dev w))); [auto|].
  destruct (directory (e (h um))); [auto|].
  right. right.
  destruct (negb _).
  - cbn [fst snd].
    apply (run_inv_post_open um w _ w (Ret 0) (run_inv_start um w 0 0)).
    + intros [=].
    + intros rc [= <-]. reflexivity.
  - apply (fat_mmap_loop_inv ops um (run_inv um w) (run_post um w)).
    + intros lv w' HI. apply (run_inv_post_open um w lv); [exact HI| |];
        [discriminate|intros rc [=]].
    + intros lv w' HI. apply fat_mmap_body_run. exact HI.
    + apply run_inv_start.
Qed.

(** fat_mmap passes consecutive virtual addresses to the page mapper: the
    first call is made at [um->vaddr], and each later call at the address
    of the call before it plus that call's pages (modulo 2^32), whatever
    the region, the FAT chain and the outcome. *)
Theorem fat_mmap_vaddrs_chained (ops : fat_ops) (fuel : nat)
    (um : user_mapping) (flags : Z) (w : world) :
  exists evs,
    w_log (snd (fat_mmap ops fuel um flags w)) = w_log w ++ evs /\
    chained (um_vaddr um) (map_calls evs).
Proof.
  destruct (fat_mmap_run ops fuel um flags w) as [-> | [-> | Hpost]].
  - exists []. rewrite app_nil_r. split; [reflexivity|exact I].
  - exists []. rewrite app_nil_r. split; [reflexivity|exact I].
  - destruct Hpost as (evs & Hl & _ & _ & _ & _ & Hcase).
    exists evs. split; [exact Hl|].
    destruct Hcase as [(_ & _ & _ & Hch) | (_ & pre & c & -> & _ & Hch & _)].
    + exact Hch.
    + replace (pre ++ [EvMapPages c; EvUnmapPages (um_vaddr um)
                                       (tot_of (map_calls pre))])
        with ((pre ++ [EvMapPages c])
              ++ [EvUnmapPages (um_vaddr um) (tot_of (map_calls pre))])
        by (rewrite <- app_assoc; reflexivity).
      rewrite map_calls_app. cbn. rewrite app_nil_r. exact Hch.
Qed.

(** When fat_mmap returns -ENOMEM, the last two things it did are a call of
    map_pages() and the call unmap_pages_permissive(pdir, um->vaddr, tot)
    with [tot] the pages of the rounds before; all it did before were calls
    of map_pages(), and after the call none of the [tot] pages from
    [um->vaddr] on is mapped. *)
Theorem fat_mmap_enomem_rollback (ops : fat_ops) (fuel : nat)
    (um : user_mapping) (flags : Z) (w : world) :
  fst (fat_mmap ops fuel um flags w) = Ret (- ENOMEM) ->
  exists pre c,
    w_log (snd (fat_mmap ops fuel um flags w))
    = w_log w ++ pre
      ++ [EvMapPages c;
          EvUnmapPages (um_vaddr um) (tot_of (map_calls pre))] /\
    forallb is_map_event pre = true /\
    forall k, 0 <= k < tot_of (map_calls pre) ->
      pd_map (w_pdir (snd (fat_mmap ops fuel um flags w)))
        !! (um_vaddr um + k * PAGE_SIZE) = None.
Proof.
  intros Hrc.
  destruct (fat_mmap_run ops fuel um flags w) as [Heq | [Heq | Hpost]].
  - rewrite Heq in Hrc. discriminate Hrc.
  - rewrite Heq in Hrc. discriminate Hrc.
  - destruct Hpost as (evs & Hl & _ & _ & _ & _ & Hcase).
    destruct Hcase as [(Hne & _) | (_ & pre & c & -> & Hall & _ & Hun)].
    + contradiction.
    + exists pre, c. split; [exact Hl|]. split; [exact Hall|exact Hun].
Qed.

(** fat_mmap returns 0, -ENODEV, -EACCES or -ENOMEM and nothing else, and
    unless it returns -ENOMEM all it does to the world is call map_pages():
    no page is ever unmapped on the other paths. *)
Theorem fat_mmap_return_codes (ops : fat_ops) (fuel : nat)
    (um : user_mapping) (flags : Z) (w : world) :
  (forall rc, fst (fat_mmap ops fuel um flags w) = Ret rc ->
     rc = 0 \/ rc = - ENODEV \/ rc = - EACCES \/ rc = - ENOMEM) /\
  (fst (fat_mmap ops fuel um flags w) <> Ret (- ENOMEM) ->
   exists evs,
     w_log (snd (fat_mmap ops fuel um flags w)) = w_log w ++ evs /\
     forallb is_map_event evs = true).
Proof.
  destruct (fat_mmap_run ops fuel um flags w) as [-> | [-> | Hpost]].
  - split.
    + intros rc [= <-]. auto.
    + intros _. exists []. rewrite app_nil_r. split; reflexivity.
  - split.
    + intros rc [= <-]. auto.
    + intros _. exists []. rewrite app_nil_r. split; reflexivity.
  - destruct Hpost as (evs & Hl & _ & _ & _ & _ & Hcase). split.
    + intros rc Hrc.
      destruct Hcase as [(_ & H0 & _) | (Hen & _)].
      * left. apply H0. exact Hrc.
      * rewrite Hrc in Hen. injection Hen as ->. auto.
    + intros Hne. destruct Hcase as [(_ & _ & Hall & _) | (Hen & _)].
      * exists evs. split; assumption.
      * contradiction.
Qed.

(** fat_mmap reads the ramdisk and never writes it: the bytes of the image
    and the device data of the mount (cluster size, FAT type, mmap support)
    are the same after the call as before, whatever the inputs and the
    outcome. *)
Theorem fat_mmap_frame (ops : fat_ops) (fuel : nat) (um : user_mapping)
    (flags : Z) (w : world) :
  w_dev (snd (fat_mmap ops fuel um flags w)) = w_dev w /\
  w_image (snd (fat_mmap ops fuel um flags w)) = w_image w.
Proof.
  destruct (fat_mmap_run ops fuel um flags w) as [-> | [-> | Hpost]].
  - auto.
  - auto.
  - destruct Hpost as (evs & _ & Hd & Hi & _). auto.
Qed.

Lemma fat_mmap_enomem_rollback_witness :
  exists pre c,
    w_log (snd (fat_mmap (big_cluster_ops false) 10
                  (mk_um false 1073741824 0 16384) 0 (mk_world 8192 true 3)))
    = w_log (mk_world 8192 true 3) ++ pre
      ++ [EvMapPages c;
          EvUnmapPages (um_vaddr (mk_um false 1073741824 0 16384))
            (tot_of (map_calls pre))] /\
    forallb is_map_event pre = true /\
    forall k, 0 <= k < tot_of (map_calls pre) ->
      pd_map (w_pdir (snd (fat_mmap (big_cluster_ops false) 10
                             (mk_um false 1073741824 0 16384) 0
                             (mk_world 8192 true 3))))
        !! (um_vaddr (mk_um false 1073741824 0 16384) + k * PAGE_SIZE) = None.
Proof.
  apply (fat_mmap_enomem_rollback (big_cluster_ops false) 10
           (mk_um false 1073741824 0 16384) 0 (mk_world 8192 true 3)).
  vm_compute. reflexivity.
Defined.

Lemma fat_mmap_return_codes_witness :
  exists evs,
    w_log (snd (fat_mmap (scenario_ops true) 10
                  (mk_um false 1073741824 0 12288) 0 scenario_world))
    = w_log scenario_world ++ evs /\
    forallb is_map_event evs = true.
Proof.
  apply (fat_mmap_return_codes (scenario_ops true) 10
           (mk_um false 1073741824 0 12288) 0 scenario_world).
  vm_compute. discriminate.
Defined.

(** ** Page-aligned regions: one round, in closed form *)

Section AlignedRound.

Variable ops : fat_ops.
Variable um : user_mapping.
Variable lv : loop_vars.
Variable w : world.

Hypothesis cs_ge_page : PAGE_SIZE <= cluster_size (w_dev w).
Hypothesis cs_aligned : cluster_size (w_dev w) mod PAGE_SIZE = 0.
Hypothesis off_nonneg : 0 <= um_off um.
Hypothesis len_nonneg : 0 <= um_len um.
Hypothesis off_aligned : um_off um mod PAGE_SIZE = 0.
Hypothesis len_aligned : um_len um mod PAGE_SIZE = 0.
Hypothesis no_overflow :
  um_off um + um_len um + cluster_size (w_dev w) <= 2 ^ ULONG_BITS.
Hypothesis cur_nonneg : 0 <= lv_off lv.
Hypothesis cur_aligned : lv_off lv mod PAGE_SIZE = 0.

(** Once [off] has reached the end of the region the loop is left. *)
Lemma fat_mmap_body_past :
  um_off um + um_len um <= lv_off lv ->
  fat_mmap_body ops um lv w = Done (Ret 0) w.
Proof.
  intros Hpast. pose proof ulong_range_eq as HU. pose proof PAGE_SIZE_eq as HP.
  unfold fat_mmap_body.
  rewrite (ulong_small (um_off um + um_len um)) by lia.
  destruct (Z.leb_spec (um_off um + um_len um) (lv_off lv)); [reflexivity|lia].
Qed.

(** A round inside the region: the cluster is skipped when it ends at or
    before the start of the region; otherwise the pages from
    max(off, off_begin) to min(off + cluster_size, off_end) are passed to
    the page mapper and [off] moves on to the latter. *)
Lemma fat_mmap_body_aligned :
  lv_off lv < um_off um + um_len um ->
  fat_mmap_body ops um lv w
  = if um_off um <? lv_off lv + cluster_size (w_dev w) then
      let m := Z.min (lv_off lv + cluster_size (w_dev w))
                 (um_off um + um_len um) in
      let n := (m - Z.max (lv_off lv) (um_off um)) / PAGE_SIZE in
      let '(mapped_cnt, w1) :=
        call_map_pages (lv_idx lv) (lv_clu lv) (lv_vaddr lv)
          (KERNEL_VA_TO_PA ops
             (fat_get_pointer_to_cluster_data ops (hdr (w_dev w)) (w_image w)
                (lv_clu lv))) n w in
      if negb (mapped_cnt =? n) then
        Done (Ret (- ENOMEM))
          (call_unmap_pages_permissive (um_vaddr um)
             (lv_tot_mapped_cnt lv) w1)
      else if asserts_enabled ops && negb (m mod cluster_size (w_dev w) =? 0)
      then Done (Panic AssertOffAligned) w1
      else
        fat_mmap_next ops (lv_idx lv) (lv_clu lv) m
          (ulong (lv_vaddr lv + ulong (Z.shiftl n PAGE_SHIFT)))
          (ulong (lv_tot_mapped_cnt lv + mapped_cnt)) w1
    else
      fat_mmap_next ops (lv_idx lv) (lv_clu lv)
        (lv_off lv + cluster_size (w_dev w)) (lv_vaddr lv)
        (lv_tot_mapped_cnt lv) w.
Proof.
  intros Hin. pose proof ulong_range_eq as HU. pose proof PAGE_SIZE_eq as HP.
  pose proof cs_ge_page as G1. pose proof cs_aligned as G2.
  pose proof off_nonneg as G3. pose proof len_nonneg as G4.
  pose proof off_aligned as G5. pose proof len_aligned as G6.
  pose proof no_overflow as G7. pose proof cur_nonneg as G8.
  pose proof cur_aligned as G9.
  unfold fat_mmap_body.
  set (cs := cluster_size (w_dev w)) in G1, G2, G7 |- *.
  set (a := um_off um) in G3, G5, G7, Hin |- *.
  set (len := um_len um) in G4, G6, G7, Hin |- *.
  set (off := lv_off lv) in G8, G9, Hin |- *.
  rewrite (ulong_small (a + len)) by lia.
  rewrite (ulong_small (off + cs)) by lia.
  destruct (Z.leb_spec (a + len) off); [lia|].
  destruct (Z.ltb_spec a (off + cs)) as [Hov|Hbefore]; [|reflexivity].
  set (off1 := Z.max off a).
  set (m := Z.min (off + cs) (a + len)).
  assert (Hm : 0 <= m - off1 < 2 ^ ULONG_BITS) by lia.
  assert (Hdiv : Z.divide PAGE_SIZE (m - off1)).
  { assert (Hdo := divide_of_mod off G9).
    assert (Hda := divide_of_mod a G5).
    assert (Hdl := divide_of_mod len G6).
    assert (Hdc := divide_of_mod cs G2).
    apply Z.divide_sub_r.
    - unfold m. destruct (Z.min_spec (off + cs) (a + len)) as [[_ ->]|[_ ->]];
        apply Z.divide_add_r; assumption.
    - unfold off1.
      destruct (Z.max_spec off a) as [[_ ->]|[_ ->]]; assumption. }
  assert (Hcount :
    Z.shiftr (ulong (m - off1)) PAGE_SHIFT = (m - off1) / PAGE_SIZE).
  { rewrite ulong_small by exact Hm.
    rewrite Z.shiftr_div_pow2 by (unfold PAGE_SHIFT; lia). reflexivity. }
  assert (Hadv :
    ulong (off1 + ulong (Z.shiftl ((m - off1) / PAGE_SIZE) PAGE_SHIFT)) = m).
  { rewrite <- Hcount, page_round_exact by assumption.
    replace (off1 + (m - off1)) with m by lia. apply ulong_small. lia. }
  replace
    (if off <? a
     then (a, fat_get_pointer_to_cluster_data ops (hdr (w_dev w)) (w_image w)
                (lv_clu lv) + ulong (a - a))
     else (off,
           fat_get_pointer_to_cluster_data ops (hdr (w_dev w)) (w_image w)
             (lv_clu lv)))
    with (off1,
          fat_get_pointer_to_cluster_data ops (hdr (w_dev w)) (w_image w)
            (lv_clu lv)).
  2: { unfold off1. destruct (Z.ltb_spec off a).
       - rewrite Z.sub_diag, ulong_0, Z.add_0_r, Z.max_r by lia. reflexivity.
       - rewrite Z.max_l by lia. reflexivity. }
  cbv beta iota zeta. fold m. rewrite Hcount, Hadv. reflexivity.
Qed.

End AlignedRound.

(** ** Page-aligned regions: whole runs *)

Lemma span_divide cs a len off :
  cs mod PAGE_SIZE = 0 -> a mod PAGE_SIZE = 0 -> len mod PAGE_SIZE = 0 ->
  off mod PAGE_SIZE = 0 ->
  Z.divide PAGE_SIZE (Z.min (off + cs) (a + len) - Z.max off a).
Proof.
  intros Hc Ha Hl Ho.
  apply divide_of_mod in Hc, Ha, Hl, Ho.
  apply Z.divide_sub_r.
  - destruct (Z.min_spec (off + cs) (a + len)) as [[_ ->]|[_ ->]];
      apply Z.divide_add_r; assumption.
  - destruct (Z.max_spec off a) as [[_ ->]|[_ ->]]; assumption.
Qed.

Lemma mod_of_divide x : Z.divide PAGE_SIZE x -> x mod PAGE_SIZE = 0.
Proof. intros H. apply Z.mod_divide; [rewrite PAGE_SIZE_eq; lia|exact H]. Qed.

Lemma min_aligned cs a len off :
  cs mod PAGE_SIZE = 0 -> a mod PAGE_SIZE = 0 -> len mod PAGE_SIZE = 0 ->
  off mod PAGE_SIZE = 0 ->
  Z.min (off + cs) (a + len) mod PAGE_SIZE = 0.
Proof.
  intros Hc Ha Hl Ho. apply divide_of_mod in Hc, Ha, Hl, Ho.
  apply mod_of_divide.
  destruct (Z.min_spec (off + cs) (a + len)) as [[_ ->]|[_ ->]];
    apply Z.divide_add_r; assumption.
Qed.

Section AlignedRuns.

Variable ops : fat_ops.
Variable um : user_mapping.
Variable w0 : world.

Hypothesis cs_ge_page : PAGE_SIZE <= cluster_size (w_dev w0).
Hypothesis cs_aligned : cluster_size (w_dev w0) mod PAGE_SIZE = 0.
Hypothesis off_nonneg : 0 <= um_off um.
Hypothesis len_nonneg : 0 <= um_len um.
Hypothesis off_aligned : um_off um mod PAGE_SIZE = 0.
Hypothesis len_aligned : um_len um mod PAGE_SIZE = 0.
Hypothesis no_overflow :
  um_off um + um_len um + cluster_size (w_dev w0) <= 2 ^ ULONG_BITS.

(** Every round that is not the last one brings the loop closer to the end
    of the region. *)
Lemma fat_mmap_body_progress lv w :
  w_dev w = w_dev w0 -> 0 <= lv_off lv -> lv_off lv mod PAGE_SIZE = 0 ->
  match fat_mmap_body ops um lv w with
  | Done o _ => o <> OutOfFuel
  | Next lv' w' =>
      w_dev w' = w_dev w0 /\ 0 <= lv_off lv' /\
      lv_off lv' mod PAGE_SIZE = 0 /\
      (rounds_left (cluster_size (w_dev w0)) (um_off um + um_len um) lv'
       < rounds_left (cluster_size (w_dev w0)) (um_off um + um_len um) lv)%nat
  end.
Proof.
  intros Hd H0 Hal.
  pose proof cs_ge_page as G1. pose proof cs_aligned as G2.
  pose proof off_nonneg as G3. pose proof len_nonneg as G4.
  pose proof off_aligned as G5. pose proof len_aligned as G6.
  pose proof no_overflow as G7.
  pose proof PAGE_SIZE_eq as HP.
  rewrite <- Hd in G1, G2, G7.
  destruct (Z.le_gt_cases (um_off um + um_len um) (lv_off lv)) as [Hpast|Hin].
  { rewrite fat_mmap_body_past by assumption. discriminate. }
  rewrite fat_mmap_body_aligned by assumption.
  rewrite Hd in G1, G2, G7 |- *.
  set (cs := cluster_size (w_dev w0)) in G1, G2, G7 |- *.
  set (b := um_off um + um_len um) in G7, Hin |- *.
  assert (Hdec : forall off',
            off' = lv_off lv + cs \/ (off' = b /\ b <= lv_off lv + cs) ->
            forall idx clu vaddr tot,
              (rounds_left cs b
                 {| lv_idx := idx; lv_clu := clu; lv_off := off';
                    lv_vaddr := vaddr; lv_tot_mapped_cnt := tot |}
               < rounds_left cs b lv)%nat).
  { intros off' Hoff' idx clu vaddr tot. unfold rounds_left. cbn [lv_off].
    destruct (Z.leb_spec b (lv_off lv)); [lia|].
    assert (0 <= (b - lv_off lv) / cs) by (apply Z.div_pos; lia).
    destruct (Z.leb_spec b off'); [lia|].
    destruct Hoff' as [->|[-> _]]; [|lia].
    replace (b - (lv_off lv + cs)) with (b - lv_off lv + (-1) * cs) by lia.
    rewrite Z.div_add by lia.
    assert (1 <= (b - lv_off lv) / cs).
    { apply Z.div_le_lower_bound; lia. }
    lia. }
  assert (Hnext : forall off' vaddr tot w',
            w_dev w' = w_dev w0 -> 0 <= off' -> off' mod PAGE_SIZE = 0 ->
            off' = lv_off lv + cs \/ (off' = b /\ b <= lv_off lv + cs) ->
            match fat_mmap_next ops (lv_idx lv) (lv_clu lv) off' vaddr tot w'
            with
            | Done o _ => o <> OutOfFuel
            | Next lv' w'' =>
                w_dev w'' = w_dev w0 /\ 0 <= lv_off lv' /\
                lv_off lv' mod PAGE_SIZE = 0 /\
                (rounds_left cs b lv' < rounds_left cs b lv)%nat
            end).
  { intros off' vaddr tot w' Hd' Hp Ha Hoff'.
    destruct (fat_mmap_next_cases ops (lv_idx lv) (lv_clu lv) off' vaddr tot w')
      as [-> | [-> | ->]]; [discriminate|discriminate|].
    cbn [lv_off]. repeat split; try assumption. apply Hdec. exact Hoff'. }
  destruct (Z.ltb_spec (um_off um) (lv_off lv + cs)) as [Hov|Hbefore].
  - cbv zeta.
    destruct (call_map_pages _ _ _ _ _ _) as [cnt w1] eqn:Hcall.
    apply call_map_pages_world in Hcall as [Hw1 _].
    destruct (negb (cnt =? _)); [discriminate|].
    destruct (asserts_enabled ops && _); [discriminate|].
    apply Hnext.
    + rewrite Hw1. exact Hd.
    + lia.
    + apply min_aligned; assumption.
    + fold b. lia.
  - apply Hnext.
    + exact Hd.
    + lia.
    + apply mod_of_divide. apply Z.divide_add_r; apply divide_of_mod; assumption.
    + left. reflexivity.
Qed.

Lemma fat_mmap_loop_terminates : forall fuel lv w,
  w_dev w = w_dev w0 -> 0 <= lv_off lv -> lv_off lv mod PAGE_SIZE = 0 ->
  (rounds_left (cluster_size (w_dev w0)) (um_off um + um_len um) lv
   <= fuel)%nat ->
  fst (fat_mmap_loop ops fuel um lv w) <> OutOfFuel.
Proof.
  induction fuel as [|fuel IH]; intros lv w Hd H0 Hal Hfuel.
  - exfalso. revert Hfuel. unfold rounds_left.
    destruct (Z.leb_spec (um_off um + um_len um) (lv_off lv)); [lia|].
    assert (0 <= (um_off um + um_len um - lv_off lv)
                 / cluster_size (w_dev w0)).
    { pose proof cs_ge_page. pose proof PAGE_SIZE_eq.
      apply Z.div_pos; lia. }
    lia.
  - cbn [fat_mmap_loop].
    pose proof (fat_mmap_body_progress lv w Hd H0 Hal) as Hs.
    destruct (fat_mmap_body ops um lv w) as [o w'|lv' w'].
    + exact Hs.
    + destruct Hs as (Hd' & H0' & Hal' & Hlt). apply IH; try assumption. lia.
Qed.

End AlignedRuns.

Lemma fat_mmap_fuel_enough (ops : fat_ops) (fuel : nat) (um : user_mapping)
    (flags : Z) (w : world) :
  PAGE_SIZE <= cluster_size (w_dev w) ->
  cluster_size (w_dev w) mod PAGE_SIZE = 0 ->
  0 <= um_off um -> 0 <= um_len um ->
  um_off um mod PAGE_SIZE = 0 ->
  um_len um mod PAGE_SIZE = 0 ->
  um_off um + um_len um + cluster_size (w_dev w) <= 2 ^ ULONG_BITS ->
  (Z.to_nat ((um_off um + um_len um) / cluster_size (w_dev w)) + 2
   <= fuel)%nat ->
  fst (fat_mmap ops fuel um flags w) <> OutOfFuel.
Proof.
  intros H1 H2 H3 H4 H5 H6 H7 Hfuel. unfold fat_mmap.
  destruct (negb (mmap_support (w_dev w))); [discriminate|].
  destruct (directory (e (h um))); [discriminate|].
  destruct (negb _); [discriminate|].
  apply (fat_mmap_loop_terminates ops um w H1 H2 H3 H4 H5 H6 H7);
    cbn [lv_off]; try reflexivity; try lia.
  unfold rounds_left. cbn [lv_off].
  pose proof PAGE_SIZE_eq.
  assert (0 <= (um_off um + um_len um) / cluster_size (w_dev w))
    by (apply Z.div_pos; lia).
  destruct (Z.leb_spec (um_off um + um_len um) 0); [lia|].
  rewrite Z.sub_0_r. lia.
Qed.

(** For a page-aligned region the loop of fat_mmap always comes to an end,
    whatever the FAT says (also when the chain of the file is cyclic): with
    fuel for (off + len) / cluster_size + 2 rounds the run does not stop for
    lack of fuel. *)
Theorem fat_mmap_terminates (ops : fat_ops) (fuel : nat) (um : user_mapping)
    (flags : Z) (w : world) :
  PAGE_SIZE <= cluster_size (w_dev w) ->
  cluster_size (w_dev w) mod PAGE_SIZE = 0 ->
  0 <= um_off um -> 0 <= um_len um ->
  um_off um mod PAGE_SIZE = 0 ->
  um_len um mod PAGE_SIZE = 0 ->
  um_off um + um_len um + cluster_size (w_dev w) <= 2 ^ ULONG_BITS ->
  (Z.to_nat ((um_off um + um_len um) / cluster_size (w_dev w)) + 2
   <= fuel)%nat ->
  fst (fat_mmap ops fuel um flags w) <> OutOfFuel.
Proof. apply fat_mmap_fuel_enough. Qed.

Lemma fat_mmap_terminates_witness :
  fst (fat_mmap (scenario_ops true) 5 (mk_um false 1073741824 0 12288) 0
         scenario_world) <> OutOfFuel.
Proof.
  apply fat_mmap_terminates;
    first [ reflexivity | (vm_compute; discriminate) | (vm_compute; lia) ].
Defined.

Section AlignedCounts.

Variable ops : fat_ops.
Variable um : user_mapping.
Variable w0 : world.

Hypothesis cs_ge_page : PAGE_SIZE <= cluster_size (w_dev w0).
Hypothesis cs_aligned : cluster_size (w_dev w0) mod PAGE_SIZE = 0.
Hypothesis off_nonneg : 0 <= um_off um.
Hypothesis len_nonneg : 0 <= um_len um.
Hypothesis off_aligned : um_off um mod PAGE_SIZE = 0.
Hypothesis len_aligned : um_len um mod PAGE_SIZE = 0.
Hypothesis no_overflow :
  um_off um + um_len um + cluster_size (w_dev w0) <= 2 ^ ULONG_BITS.

Lemma fat_mmap_body_exact lv w evs0 :
  extends w0 w evs0 -> in_step_aligned ops um w0 lv ->
  step_ok (exact_call ops um w0) (in_step_aligned ops um w0) w
    (fat_mmap_body ops um lv w).
Proof.
  intros Hext ([Hat Hoff] & H0 & Hal & Hle & Hva).
  pose proof ulong_range_eq as HU.
  pose proof cs_ge_page as G1. pose proof cs_aligned as G2.
  pose proof off_nonneg as G3. pose proof len_nonneg as G4.
  pose proof off_aligned as G5. pose proof len_aligned as G6.
  pose proof no_overflow as G7.
  pose proof PAGE_SIZE_eq as HP.
  pose proof Hext as (Hd & Hi & Hl).
  rewrite <- Hd in G1, G2, G7.
  destruct (Z.le_gt_cases (um_off um + um_len um) (lv_off lv)) as [Hpast|Hin].
  { rewrite fat_mmap_body_past by assumption.
    exists []. split; [apply extends_refl|constructor]. }
  destruct Hoff as [Hoff|Hoff]; [|lia].
  rewrite fat_mmap_body_aligned by assumption.
  rewrite Hd in G1, G2, G7 |- *.
  set (cs := cluster_size (w_dev w0)) in G1, G2, G7, Hoff |- *.
  set (a := um_off um) in G3, G5, G7, Hin |- *.
  set (len := um_len um) in G4, G6, G7, Hin |- *.
  assert (Hnext : forall off' vaddr tot w' evs,
            extends w w' evs ->
            Forall (exact_call ops um w0) (map_calls evs) ->
            0 <= off' -> off' mod PAGE_SIZE = 0 ->
            off' = (Z.of_nat (lv_idx lv) + 1) * cs \/ a + len <= off' ->
            off' <= a + len ->
            (0 <= um_vaddr um -> um_vaddr um + len < 2 ^ ULONG_BITS ->
             vaddr = um_vaddr um + (Z.max off' a - a)) ->
            step_ok (exact_call ops um w0) (in_step_aligned ops um w0) w
              (fat_mmap_next ops (lv_idx lv) (lv_clu lv) off' vaddr tot w')).
  { intros off' vaddr tot w' evs Hext' HP' Hp Ha Hoff' Hle' Hva'.
    apply fat_mmap_next_step with (evs := evs); [assumption|assumption|].
    intros _. split; [split|].
    - destruct Hext' as (Hd' & Hi' & _). rewrite Hd', Hi'.
      eapply at_cluster_next; [|exact Hat]. exact Hext.
    - cbn [lv_off lv_idx]. fold cs a len.
      destruct Hoff' as [->|Hge]; [left; lia|right; exact Hge].
    - cbn [lv_off lv_vaddr]. fold a len. auto. }
  destruct (Z.ltb_spec a (lv_off lv + cs)) as [Hov|Hbefore].
  - cbv zeta.
    set (m := Z.min (lv_off lv + cs) (a + len)).
    set (n := (m - Z.max (lv_off lv) a) / PAGE_SIZE).
    match goal with |- context [call_map_pages ?i ?c ?v ?p ?k ?w] =>
      pose proof (call_map_pages_extends i c v p k w) as Hcall;
      destruct (call_map_pages i c v p k w) as [mapped_cnt w1] end.
    cbn [snd] in Hcall.
    assert (Hn : n * PAGE_SIZE = m - Z.max (lv_off lv) a).
    { destruct (span_divide cs a len (lv_off lv) G2 G5 G6 Hal) as [q Hq].
      unfold n, m. fold a len in Hq. rewrite Hq.
      rewrite Z.div_mul by lia. reflexivity. }
    assert (HPc : Forall (exact_call ops um w0)
                    (map_calls
                       [EvMapPages
                          {| mc_idx := lv_idx lv; mc_clu := lv_clu lv;
                             mc_vaddr := lv_vaddr lv;
                             mc_paddr :=
                               KERNEL_VA_TO_PA ops
                                 (fat_get_pointer_to_cluster_data ops
                                    (hdr (w_dev w0)) (w_image w) (lv_clu lv));
                             mc_count := n |}])).
    { cbn. constructor; [|constructor].
      split; [split; [split|]|split];
        cbn [mc_idx mc_clu mc_paddr mc_count mc_vaddr].
      - exact Hat.
      - rewrite Hi. reflexivity.
      - fold cs a len. lia.
      - fold cs a len. rewrite Hn. unfold m. rewrite <- Hoff.
        replace ((Z.of_nat (lv_idx lv) + 1) * cs) with (lv_off lv + cs) by lia.
        reflexivity.
      - fold cs a len. rewrite <- Hoff. exact Hva. }
    destruct (negb (mapped_cnt =? n)).
    { eexists. split.
      - eapply extends_trans; [exact Hcall|apply call_unmap_extends].
      - rewrite map_calls_app. apply Forall_app. split; [exact HPc|constructor]. }
    destruct (asserts_enabled ops && negb _).
    { eexists. split; [exact Hcall|exact HPc]. }
    eapply Hnext; [exact Hcall|exact HPc| | | | |].
    + unfold m. lia.
    + apply min_aligned; assumption.
    + unfold m. lia.
    + unfold m. lia.
    + intros Hv0 Hv1. fold a len in Hva. rewrite (Hva Hv0 Hv1).
      rewrite Z.shiftl_mul_pow2 by (unfold PAGE_SHIFT; lia).
      change (2 ^ PAGE_SHIFT) with PAGE_SIZE. rewrite Hn.
      assert (Hm1 : a <= m) by (unfold m; lia).
      assert (Hm2 : m <= a + len) by (unfold m; lia).
      rewrite (ulong_small (m - Z.max (lv_off lv) a)) by lia.
      rewrite ulong_small by lia. lia.
  - apply Hnext with (evs := []).
    + apply extends_refl.
    + constructor.
    + lia.
    + apply mod_of_divide. apply Z.divide_add_r; apply divide_of_mod; assumption.
    + left. lia.
    + lia.
    + intros Hv0 Hv1. fold a len in Hva. rewrite (Hva Hv0 Hv1). lia.
Qed.

End AlignedCounts.

(** For a page-aligned region, each call of the page mapper asks for
    exactly the pages of the part of its cluster that lies in the region:
    in round [i] the page count times the page size is
    min((i + 1) * cs, off + len) - max(i * cs, off), hence never more than
    the pages of one cluster. *)
Theorem fat_mmap_exact_page_counts (ops : fat_ops) (fuel : nat)
    (um : user_mapping) (flags : Z) (w : world) :
  PAGE_SIZE <= cluster_size (w_dev w) ->
  cluster_size (w_dev w) mod PAGE_SIZE = 0 ->
  0 <= um_off um -> 0 <= um_len um ->
  um_off um mod PAGE_SIZE = 0 ->
  um_len um mod PAGE_SIZE = 0 ->
  um_off um + um_len um + cluster_size (w_dev w) <= 2 ^ ULONG_BITS ->
  exists evs,
    w_log (snd (fat_mmap ops fuel um flags w)) = w_log w ++ evs /\
    Forall
      (fun c =>
         mc_count c * PAGE_SIZE
         = Z.min ((Z.of_nat (mc_idx c) + 1) * cluster_size (w_dev w))
             (um_off um + um_len um)
           - Z.max (Z.of_nat (mc_idx c) * cluster_size (w_dev w)) (um_off um)
         /\ 0 <= mc_count c <= cluster_size (w_dev w) / PAGE_SIZE)
      (map_calls evs).
Proof.
  intros H1 H2 H3 H4 H5 H6 H7. unfold fat_mmap.
  destruct (negb (mmap_support (w_dev w))).
  { exists []. split; [symmetry; apply app_nil_r|constructor]. }
  destruct (directory (e (h um))).
  { exists []. split; [symmetry; apply app_nil_r|constructor]. }
  destruct (negb _).
  { exists []. split; [symmetry; apply app_nil_r|constructor]. }
  destruct (fat_mmap_loop_calls ops
              (exact_call ops um w) (in_step_aligned ops um w) um w
              (fat_mmap_body_exact ops um w H1 H2 H3 H4 H5 H6 H7)
              fuel
              {| lv_idx := O; lv_clu := first_cluster (e (h um)); lv_off := 0;
                 lv_vaddr := um_vaddr um; lv_tot_mapped_cnt := 0 |}
              w [] (extends_refl w))
    as (evs & (_ & _ & Hlog) & HP).
  { split; [split; [reflexivity|left; reflexivity]|].
    cbn [lv_off lv_vaddr]. split; [lia|]. split; [reflexivity|].
    split; [lia|]. intros _ _. lia. }
  exists evs. split; [exact Hlog|].
  eapply Forall_impl; [exact HP|].
  intros c ((_ & Ha & Hb) & Hc & _). split; [exact Hc|].
  pose proof PAGE_SIZE_eq as HP'.
  split; [lia|].
  apply Z.div_le_lower_bound; lia.
Qed.

Lemma fat_mmap_exact_page_counts_witness :
  exists evs,
    w_log (snd (fat_mmap (big_cluster_ops false) 10
                  (mk_um false 1073741824 4096 8192) 0
                  (mk_world 8192 true 100)))
    = w_log (mk_world 8192 true 100) ++ evs /\
    Forall
      (fun c =>
         mc_count c * PAGE_SIZE
         = Z.min ((Z.of_nat (mc_idx c) + 1)
                  * cluster_size (w_dev (mk_world 8192 true 100)))
             (um_off (mk_um false 1073741824 4096 8192)
              + um_len (mk_um false 1073741824 4096 8192))
           - Z.max (Z.of_nat (mc_idx c)
                    * cluster_size (w_dev (mk_world 8192 true 100)))
               (um_off (mk_um false 1073741824 4096 8192))
         /\ 0 <= mc_count c
            <= cluster_size (w_dev (mk_world 8192 true 100)) / PAGE_SIZE)
      (map_calls evs).
Proof.
  apply (fat_mmap_exact_page_counts (big_cluster_ops false) 10
           (mk_um false 1073741824 4096 8192) 0 (mk_world 8192 true 100));
    first [ reflexivity | (vm_compute; discriminate) ].
Defined.

(** For a page-aligned region mapped at a virtual range that does not wrap
    around, the part of the file that starts at offset [f] is passed to the
    page mapper at [um_vaddr + (f - um_off)]: in round [i] the call is made
    at um_vaddr + (max(i * cs, um_off) - um_off). *)
Theorem fat_mmap_vaddr_of_offset (ops : fat_ops) (fuel : nat)
    (um : user_mapping) (flags : Z) (w : world) :
  PAGE_SIZE <= cluster_size (w_dev w) ->
  cluster_size (w_dev w) mod PAGE_SIZE = 0 ->
  0 <= um_off um -> 0 <= um_len um ->
  um_off um mod PAGE_SIZE = 0 ->
  um_len um mod PAGE_SIZE = 0 ->
  um_off um + um_len um + cluster_size (w_dev w) <= 2 ^ ULONG_BITS ->
  0 <= um_vaddr um -> um_vaddr um + um_len um < 2 ^ ULONG_BITS ->
  exists evs,
    w_log (snd (fat_mmap ops fuel um flags w)) = w_log w ++ evs /\
    Forall
      (fun c =>
         mc_vaddr c
         = um_vaddr um
           + (Z.max (Z.of_nat (mc_idx c) * cluster_size (w_dev w)) (um_off um)
              - um_off um))
      (map_calls evs).
Proof.
  intros H1 H2 H3 H4 H5 H6 H7 Hv0 Hv1. unfold fat_mmap.
  destruct (negb (mmap_support (w_dev w))).
  { exists []. split; [symmetry; apply app_nil_r|constructor]. }
  destruct (directory (e (h um))).
  { exists []. split; [symmetry; apply app_nil_r|constructor]. }
  destruct (negb _).
  { exists []. split; [symmetry; apply app_nil_r|constructor]. }
  destruct (fat_mmap_loop_calls ops
              (exact_call ops um w) (in_step_aligned ops um w) um w
              (fat_mmap_body_exact ops um w H1 H2 H3 H4 H5 H6 H7)
              fuel
              {| lv_idx := O; lv_clu := first_cluster (e (h um)); lv_off := 0;
                 lv_vaddr := um_vaddr um; lv_tot_mapped_cnt := 0 |}
              w [] (extends_refl w))
    as (evs & (_ & _ & Hlog) & HP).
  { split; [split; [reflexivity|left; reflexivity]|].
    cbn [lv_off lv_vaddr]. split; [lia|]. split; [reflexivity|].
    split; [lia|]. intros _ _. lia. }
  exists evs. split; [exact Hlog|].
  eapply Forall_impl; [exact HP|].
  intros c (_ & _ & Hc). apply Hc; assumption.
Qed.

Lemma fat_mmap_vaddr_of_offset_witness :
  exists evs,
    w_log (snd (fat_mmap (big_cluster_ops false) 10
                  (mk_um false 1073741824 4096 8192) 0
                  (mk_world 8192 true 100)))
    = w_log (mk_world 8192 true 100) ++ evs /\
    Forall
      (fun c =>
         mc_vaddr c
         = um_vaddr (mk_um false 1073741824 4096 8192)
           + (Z.max (Z.of_nat (mc_idx c)
                     * cluster_size (w_dev (mk_world 8192 true 100)))
                (um_off (mk_um false 1073741824 4096 8192))
              - um_off (mk_um false 1073741824 4096 8192)))
      (map_calls evs).
Proof.
  apply (fat_mmap_vaddr_of_offset (big_cluster_ops false) 10
           (mk_um false 1073741824 4096 8192) 0 (mk_world 8192 true 100));
    first [ reflexivity | (vm_compute; discriminate) ].
Defined.

(** ** The page directory after a run *)

(** map_pages() leaves the pages outside the range it was asked to map as
    they were, and when it reports the full count, every page of the range
    is mapped as asked. *)
Lemma map_pages_int_outside n : forall pd vaddr paddr x,
  x < vaddr \/ vaddr + Z.of_nat n * PAGE_SIZE <= x ->
  pd_map (fst (map_pages_int n pd vaddr paddr)) !! x = pd_map pd !! x.
Proof.
  pose proof PAGE_SIZE_eq as HP.
  induction n as [|n IH]; intros pd vaddr paddr x Hx; cbn [map_pages_int].
  - reflexivity.
  - destruct (pd_avail pd) as [|av]; [reflexivity|].
    specialize (IH {| pd_map := <[vaddr := paddr]> (pd_map pd);
                      pd_avail := av |}
                  (vaddr + PAGE_SIZE) (paddr + PAGE_SIZE) x).
    destruct (map_pages_int n _ _ _) as [pd2 k]. cbn [fst] in *.
    rewrite IH by lia. cbn [pd_map]. apply lookup_insert_ne. lia.
Qed.

Lemma map_pages_int_count n : forall pd vaddr paddr,
  0 <= snd (map_pages_int n pd vaddr paddr) <= Z.of_nat n.
Proof.
  induction n as [|n IH]; intros pd vaddr paddr; cbn [map_pages_int].
  - cbn. lia.
  - destruct (pd_avail pd) as [|av]; [cbn; lia|].
    specialize (IH {| pd_map := <[vaddr := paddr]> (pd_map pd);
                      pd_avail := av |}
                  (vaddr + PAGE_SIZE) (paddr + PAGE_SIZE)).
    destruct (map_pages_int n _ _ _) as [pd2 k]. cbn [snd] in *. lia.
Qed.

(** Each page mapped takes one unit of the mapper's memory, and a request
    within that memory is served in full. *)
Lemma map_pages_int_avail n : forall pd vaddr paddr,
  Z.of_nat (pd_avail (fst (map_pages_int n pd vaddr paddr)))
  = Z.of_nat (pd_avail pd) - snd (map_pages_int n pd vaddr paddr).
Proof.
  induction n as [|n IH]; intros pd vaddr paddr; cbn [map_pages_int].
  - cbn. lia.
  - destruct (pd_avail pd) as [|av] eqn:Hav; [cbn; lia|].
    specialize (IH {| pd_map := <[vaddr := paddr]> (pd_map pd);
                      pd_avail := av |}
                  (vaddr + PAGE_SIZE) (paddr + PAGE_SIZE)).
    destruct (map_pages_int n _ _ _) as [pd2 k]. cbn [fst snd pd_avail] in *.
    lia.
Qed.

Lemma map_pages_int_enough n : forall pd vaddr paddr,
  (n <= pd_avail pd)%nat ->
  snd (map_pages_int n pd vaddr paddr) = Z.of_nat n.
Proof.
  induction n as [|n IH]; intros pd vaddr paddr Hle; cbn [map_pages_int].
  - reflexivity.
  - destruct (pd_avail pd) as [|av] eqn:Hav; [lia|].
    specialize (IH {| pd_map := <[vaddr := paddr]> (pd_map pd);
                      pd_avail := av |}
                  (vaddr + PAGE_SIZE) (paddr + PAGE_SIZE)).
    destruct (map_pages_int n _ _ _) as [pd2 k]. cbn [snd pd_avail] in *.
    rewrite IH by lia. lia.
Qed.

Lemma map_pages_int_full n : forall pd vaddr paddr j,
  snd (map_pages_int n pd vaddr paddr) = Z.of_nat n ->
  0 <= j < Z.of_nat n ->
  pd_map (fst (map_pages_int n pd vaddr paddr)) !! (vaddr + j * PAGE_SIZE)
  = Some (paddr + j * PAGE_SIZE).
Proof.
  pose proof PAGE_SIZE_eq as HP.
  induction n as [|n IH]; intros pd vaddr paddr j Hfull Hj; [lia|].
  revert Hfull. cbn [map_pages_int].
  destruct (pd_avail pd) as [|av]; [cbn; lia|].
  pose proof (map_pages_int_outside n
                {| pd_map := <[vaddr := paddr]> (pd_map pd); pd_avail := av |}
                (vaddr + PAGE_SIZE) (paddr + PAGE_SIZE) vaddr) as Hout.
  specialize (IH {| pd_map := <[vaddr := paddr]> (pd_map pd);
                    pd_avail := av |}
                (vaddr + PAGE_SIZE) (paddr + PAGE_SIZE) (j - 1)).
  destruct (map_pages_int n _ _ _) as [pd2 k]. cbn [fst snd] in *.
  intros Hfull.
  destruct (Z.eq_dec j 0) as [->|Hj0].
  - rewrite Z.mul_0_l, !Z.add_0_r. rewrite Hout by lia.
    cbn [pd_map]. apply lookup_insert_eq.
  - replace (vaddr + j * PAGE_SIZE)
      with (vaddr + PAGE_SIZE + (j - 1) * PAGE_SIZE) by lia.
    replace (paddr + j * PAGE_SIZE)
      with (paddr + PAGE_SIZE + (j - 1) * PAGE_SIZE) by lia.
    apply IH; lia.
Qed.

(** Unmapping leaves the pages outside the range as they were. *)
Lemma unmap_pages_int_outside n : forall m vaddr x,
  x < vaddr \/ vaddr + Z.of_nat n * PAGE_SIZE <= x ->
  unmap_pages_int n m vaddr !! x = m !! x.
Proof.
  pose proof PAGE_SIZE_eq as HP.
  induction n as [|n IH]; intros m vaddr x Hx; cbn [unmap_pages_int].
  - reflexivity.
  - rewrite IH by lia. apply lookup_delete_ne. lia.
Qed.

Lemma served_weaken m m' lo hi hi' c :
  served m lo hi c -> hi <= hi' ->
  (forall x, x < hi -> lo <= x -> m' !! x = m !! x) ->
  served m' lo hi' c.
Proof.
  pose proof PAGE_SIZE_eq as HP.
  intros (Hlo & Hhi & Hc & Hm) Hle Hsame.
  split; [exact Hlo|]. split; [lia|]. split; [exact Hc|].
  intros j Hj. rewrite Hsame; [apply Hm; exact Hj| |]; nia.
Qed.

Section AlignedPages.

Variable ops : fat_ops.
Variable um : user_mapping.
Variable w0 : world.

Hypothesis cs_ge_page : PAGE_SIZE <= cluster_size (w_dev w0).
Hypothesis cs_aligned : cluster_size (w_dev w0) mod PAGE_SIZE = 0.
Hypothesis off_nonneg : 0 <= um_off um.
Hypothesis len_nonneg : 0 <= um_len um.
Hypothesis off_aligned : um_off um mod PAGE_SIZE = 0.
Hypothesis len_aligned : um_len um mod PAGE_SIZE = 0.
Hypothesis no_overflow :
  um_off um + um_len um + cluster_size (w_dev w0) <= 2 ^ ULONG_BITS.
Hypothesis vaddr_nonneg : 0 <= um_vaddr um.
Hypothesis vaddr_no_wrap : um_vaddr um + um_len um < 2 ^ ULONG_BITS.

Lemma pages_post_intro o w vhi evs :
  o <> Ret (- ENOMEM) ->
  vhi <= um_vaddr um + um_len um ->
  (forall x, x < um_vaddr um \/ vhi <= x ->
     pd_map (w_pdir w) !! x = pd_map (w_pdir w0) !! x) ->
  w_log w = w_log w0 ++ evs ->
  Forall (served (pd_map (w_pdir w)) (um_vaddr um) vhi) (map_calls evs) ->
  pages_post um w0 o w.
Proof.
  intros Ho Hhi Hout Hl Hs. split; [|split].
  - intros x Hx. apply Hout. lia.
  - intros _. exists evs. split; [exact Hl|].
    eapply Forall_impl; [exact Hs|].
    intros c Hc. apply (served_weaken _ _ _ _ _ _ Hc Hhi). reflexivity.
  - intros _. exact Ho.
Qed.

Lemma pages_next idx clu off' vaddr tot w evs :
  w_dev w = w_dev w0 ->
  0 <= off' <= um_off um + um_len um -> off' mod PAGE_SIZE = 0 ->
  vaddr = um_vaddr um + (Z.max off' (um_off um) - um_off um) ->
  tot * PAGE_SIZE = Z.max off' (um_off um) - um_off um ->
  (forall x, x < um_vaddr um \/ vaddr <= x ->
     pd_map (w_pdir w) !! x = pd_map (w_pdir w0) !! x) ->
  (um_len um <= Z.of_nat (pd_avail (w_pdir w0)) * PAGE_SIZE ->
   um_off um + um_len um - Z.max off' (um_off um)
   <= Z.of_nat (pd_avail (w_pdir w)) * PAGE_SIZE) ->
  w_log w = w_log w0 ++ evs ->
  Forall (served (pd_map (w_pdir w)) (um_vaddr um) vaddr) (map_calls evs) ->
  match fat_mmap_next ops idx clu off' vaddr tot w with
  | Done o w' => pages_post um w0 o w'
  | Next lv' w' => pages_inv um w0 lv' w'
  end.
Proof.
  intros Hd Hoff Hal Hva Htot Hout Hav Hl Hs.
  assert (Hhi : vaddr <= um_vaddr um + um_len um) by lia.
  destruct (fat_mmap_next_cases ops idx clu off' vaddr tot w)
    as [-> | [-> | ->]].
  - eapply pages_post_intro; [discriminate|eassumption..].
  - eapply pages_post_intro; [discriminate|eassumption..].
  - unfold pages_inv. cbn [lv_off lv_vaddr lv_tot_mapped_cnt].
    repeat (split; [assumption|]). exists evs. split; assumption.
Qed.

Lemma fat_mmap_body_pages lv w :
  pages_inv um w0 lv w ->
  match fat_mmap_body ops um lv w with
  | Done o w' => pages_post um w0 o w'
  | Next lv' w' => pages_inv um w0 lv' w'
  end.
Proof.
  intros (Hd & Hrange & Hal & Hva & Htot & Hout & Hav & evs & Hl & Hs).
  pose proof cs_ge_page as G1. pose proof cs_aligned as G2.
  pose proof off_nonneg as G3. pose proof len_nonneg as G4.
  pose proof off_aligned as G5. pose proof len_aligned as G6.
  pose proof no_overflow as G7. pose proof vaddr_nonneg as G8.
  pose proof vaddr_no_wrap as G9.
  pose proof PAGE_SIZE_eq as HP. pose proof ulong_range_eq as HU.
  rewrite <- Hd in G1, G2, G7.
  destruct (Z.le_gt_cases (um_off um + um_len um) (lv_off lv)) as [Hpast|Hin].
  { rewrite fat_mmap_body_past by assumption.
    apply (pages_post_intro _ _ (lv_vaddr lv) evs);
      first [discriminate | assumption | lia]. }
  rewrite fat_mmap_body_aligned by (assumption || lia).
  rewrite Hd in G1, G2, G7 |- *.
  set (cs := cluster_size (w_dev w0)) in G1, G2, G7 |- *.
  set (a := um_off um) in *.
  set (len := um_len um) in *.
  set (v0 := um_vaddr um) in *.
  destruct (Z.ltb_spec a (lv_off lv + cs)) as [Hov|Hbefore].
  2: { apply (pages_next _ _ _ _ _ _ evs);
         first [ assumption
               | (apply mod_of_divide;
                  apply Z.divide_add_r; apply divide_of_mod; assumption)
               | (fold a len v0; lia)
               | (intros Hmem; specialize (Hav Hmem); fold a len; lia) ]. }
  cbv zeta.
  set (m := Z.min (lv_off lv + cs) (a + len)).
  set (n := (m - Z.max (lv_off lv) a) / PAGE_SIZE).
  assert (Hn : n * PAGE_SIZE = m - Z.max (lv_off lv) a).
  { destruct (span_divide cs a len (lv_off lv) G2 G5 G6 Hal) as [q Hq].
    unfold n, m. rewrite Hq. rewrite Z.div_mul by lia. reflexivity. }
  assert (Hm1 : a <= m <= a + len) by (unfold m; lia).
  assert (Hn0 : 0 <= n) by (unfold m in *; nia).
  set (paddr := KERNEL_VA_TO_PA ops
                  (fat_get_pointer_to_cluster_data ops (hdr (w_dev w0))
                     (w_image w) (lv_clu lv))).
  destruct (call_map_pages (lv_idx lv) (lv_clu lv) (lv_vaddr lv) paddr n w)
    as [cnt w1] eqn:Hcall.
  apply call_map_pages_world in Hcall as [Hw1 Hcnt].
  unfold map_pages in Hw1, Hcnt.
  set (c := {| mc_idx := lv_idx lv; mc_clu := lv_clu lv;
               mc_vaddr := lv_vaddr lv; mc_paddr := paddr;
               mc_count := n |}) in *.
  set (pd1 := fst (map_pages_int (Z.to_nat n) (w_pdir w) (lv_vaddr lv) paddr))
    in *.
  assert (Hpd1 : w_pdir w1 = pd1) by (rewrite Hw1; reflexivity).
  assert (Hl1 : w_log w1 = w_log w0 ++ (evs ++ [EvMapPages c])).
  { rewrite Hw1. cbn. rewrite Hl. symmetry. apply app_assoc. }
  assert (Hd1 : w_dev w1 = w_dev w0) by (rewrite Hw1; exact Hd).
  assert (Fout : forall x, x < lv_vaddr lv \/ lv_vaddr lv + n * PAGE_SIZE <= x ->
                   pd_map pd1 !! x = pd_map (w_pdir w) !! x).
  { intros x Hx. apply map_pages_int_outside. rewrite Z2Nat.id by lia. exact Hx. }
  assert (Hcnt0 : 0 <= cnt <= n).
  { rewrite Hcnt.
    pose proof (map_pages_int_count (Z.to_nat n) (w_pdir w) (lv_vaddr lv)
                  paddr). lia. }
  assert (Hav1 : Z.of_nat (pd_avail pd1)
                 = Z.of_nat (pd_avail (w_pdir w)) - cnt).
  { rewrite Hcnt. apply map_pages_int_avail. }
  assert (Hfull : n <= Z.of_nat (pd_avail (w_pdir w)) -> cnt = n).
  { intros Hle. rewrite Hcnt, map_pages_int_enough by lia. lia. }
  set (vnew := lv_vaddr lv + n * PAGE_SIZE) in *.
  assert (Hvnew : vnew = v0 + (Z.max m a - a)) by (unfold vnew; lia).
  assert (Hout1 : forall x, x < v0 \/ vnew <= x ->
                    pd_map (w_pdir w1) !! x = pd_map (w_pdir w0) !! x).
  { intros x Hx. rewrite Hpd1, Fout by (unfold vnew in *; lia).
    apply Hout. unfold vnew in *. lia. }
  destruct (Z.eqb_spec cnt n) as [Heq|Hne]; cbn [negb].
  - assert (Hs1 : Forall (served (pd_map (w_pdir w1)) v0 vnew)
                    (map_calls (evs ++ [EvMapPages c]))).
    { rewrite map_calls_snoc_map. apply Forall_app. split.
      - eapply Forall_impl; [exact Hs|]. intros c' Hc'.
        apply (served_weaken _ _ _ _ vnew _ Hc'); [unfold vnew; lia|].
        intros x Hx _. rewrite Hpd1. apply Fout. lia.
      - constructor; [|constructor].
        split; [cbn; lia|]. split; [cbn; fold vnew; lia|].
        split; [exact Hn0|]. cbn [mc_count mc_vaddr mc_paddr c].
        intros j Hj. rewrite Hpd1. apply map_pages_int_full.
        + fold (snd (map_pages_int (Z.to_nat n) (w_pdir w) (lv_vaddr lv) paddr)).
          rewrite <- Hcnt, Heq. symmetry. apply Z2Nat.id. exact Hn0.
        + rewrite Z2Nat.id by lia. exact Hj. }
    destruct (asserts_enabled ops && _).
    + apply (pages_post_intro _ _ vnew (evs ++ [EvMapPages c]));
        first [discriminate | assumption | (fold v0 len; lia)].
    + rewrite Z.shiftl_mul_pow2 by (unfold PAGE_SHIFT; lia).
      change (2 ^ PAGE_SHIFT) with PAGE_SIZE. fold vnew.
      assert (Htot0 : 0 <= lv_tot_mapped_cnt lv) by nia.
      rewrite (ulong_small (n * PAGE_SIZE)) by lia.
      fold vnew. rewrite (ulong_small vnew) by lia.
      rewrite (ulong_small (lv_tot_mapped_cnt lv + cnt)) by nia.
      apply (pages_next _ _ _ _ _ _ (evs ++ [EvMapPages c]));
        first [ assumption
              | (apply min_aligned; assumption)
              | (fold a len v0; first [exact Hvnew | (rewrite Heq; lia) | lia])
              | (intros Hmem; specialize (Hav Hmem); fold a len;
                 rewrite Hpd1, Hav1, Heq; lia) ].
  - split; [|split].
    + intros x Hx. cbn [call_unmap_pages_permissive set_pdir w_pdir
                          unmap_pages_permissive pd_map].
      assert (Htot0 : 0 <= lv_tot_mapped_cnt lv) by nia.
      rewrite unmap_pages_int_outside
        by (rewrite Z2Nat.id by lia; fold v0 len in Hx; fold v0; lia).
      apply Hout1. fold v0 len in Hx. lia.
    + intros Ho. exfalso. apply Ho. reflexivity.
    + intros Hmem. exfalso. apply Hne, Hfull.
      specialize (Hav Hmem). fold a len in Hav. nia.
Qed.

End AlignedPages.

Lemma fat_mmap_pages (ops : fat_ops) (fuel : nat) (um : user_mapping)
    (flags : Z) (w : world) :
  PAGE_SIZE <= cluster_size (w_dev w) ->
  cluster_size (w_dev w) mod PAGE_SIZE = 0 ->
  0 <= um_off um -> 0 <= um_len um ->
  um_off um mod PAGE_SIZE = 0 ->
  um_len um mod PAGE_SIZE = 0 ->
  um_off um + um_len um + cluster_size (w_dev w) <= 2 ^ ULONG_BITS ->
  0 <= um_vaddr um -> um_vaddr um + um_len um < 2 ^ ULONG_BITS ->
  pages_post um w (fst (fat_mmap ops fuel um flags w))
    (snd (fat_mmap ops fuel um flags w)).
Proof.
  intros H1 H2 H3 H4 H5 H6 H7 H8 H9.
  assert (Hsame : forall o, o <> Ret (- ENOMEM) -> pages_post um w o w).
  { intros o Ho. split; [reflexivity|]. split; [|intros _; exact Ho].
    intros _. exists [].
    split; [symmetry; apply app_nil_r|constructor]. }
  unfold fat_mmap.
  destruct (negb (mmap_support (w_dev w))); [apply Hsame; discriminate|].
  destruct (directory (e (h um))); [apply Hsame; discriminate|].
  destruct (negb _); [apply Hsame; discriminate|].
  apply (fat_mmap_loop_inv ops um (pages_inv um w) (pages_post um w)).
  - intros lv w' (Hd & Hrange & Hal & Hva & Htot & Hout & _ & evs & Hl & Hs).
    apply (pages_post_intro um w OutOfFuel w' (lv_vaddr lv) evs);
      first [discriminate | assumption | lia].
  - intros lv w' HI. apply fat_mmap_body_pages; assumption.
  - unfold pages_inv. cbn [lv_off lv_vaddr lv_tot_mapped_cnt].
    split; [reflexivity|]. split; [lia|]. split; [reflexivity|].
    split; [lia|]. split; [lia|]. split; [reflexivity|].
    split; [lia|].
    exists []. split; [symmetry; apply app_nil_r|constructor].
Qed.

(** A call of fat_mmap for a page-aligned region changes the page
    directory inside the requested virtual range only: every page below
    [um_vaddr] or at or above [um_vaddr + um_len] is mapped, or not mapped,
    as before, whatever the outcome (also after the rollback of -ENOMEM). *)
Theorem fat_mmap_outside_untouched (ops : fat_ops) (fuel : nat)
    (um : user_mapping) (flags : Z) (w : world) (x : Z) :
  PAGE_SIZE <= cluster_size (w_dev w) ->
  cluster_size (w_dev w) mod PAGE_SIZE = 0 ->
  0 <= um_off um -> 0 <= um_len um ->
  um_off um mod PAGE_SIZE = 0 ->
  um_len um mod PAGE_SIZE = 0 ->
  um_off um + um_len um + cluster_size (w_dev w) <= 2 ^ ULONG_BITS ->
  0 <= um_vaddr um -> um_vaddr um + um_len um < 2 ^ ULONG_BITS ->
  x < um_vaddr um \/ um_vaddr um + um_len um <= x ->
  pd_map (w_pdir (snd (fat_mmap ops fuel um flags w))) !! x
  = pd_map (w_pdir w) !! x.
Proof.
  intros H1 H2 H3 H4 H5 H6 H7 H8 H9 Hx.
  destruct (fat_mmap_pages ops fuel um flags w H1 H2 H3 H4 H5 H6 H7 H8 H9)
    as [Hout _].
  apply Hout. exact Hx.
Qed.

(** Unless fat_mmap returns -ENOMEM, every page it asked the page mapper
    for is mapped when it returns, at the virtual address and to the
    physical address of the call: no call has been undone or overwritten
    by a later one. *)
Theorem fat_mmap_calls_served (ops : fat_ops) (fuel : nat)
    (um : user_mapping) (flags : Z) (w : world) :
  PAGE_SIZE <= cluster_size (w_dev w) ->
  cluster_size (w_dev w) mod PAGE_SIZE = 0 ->
  0 <= um_off um -> 0 <= um_len um ->
  um_off um mod PAGE_SIZE = 0 ->
  um_len um mod PAGE_SIZE = 0 ->
  um_off um + um_len um + cluster_size (w_dev w) <= 2 ^ ULONG_BITS ->
  0 <= um_vaddr um -> um_vaddr um + um_len um < 2 ^ ULONG_BITS ->
  fst (fat_mmap ops fuel um flags w) <> Ret (- ENOMEM) ->
  exists evs,
    w_log (snd (fat_mmap ops fuel um flags w)) = w_log w ++ evs /\
    Forall
      (fun c =>
         forall j, 0 <= j < mc_count c ->
           pd_map (w_pdir (snd (fat_mmap ops fuel um flags w)))
             !! (mc_vaddr c + j * PAGE_SIZE)
           = Some (mc_paddr c + j * PAGE_SIZE))
      (map_calls evs).
Proof.
  intros H1 H2 H3 H4 H5 H6 H7 H8 H9 Hne.
  destruct (fat_mmap_pages ops fuel um flags w H1 H2 H3 H4 H5 H6 H7 H8 H9)
    as (_ & Hs & _).
  destruct (Hs Hne) as (evs & Hl & Hall).
  exists evs. split; [exact Hl|].
  eapply Forall_impl; [exact Hall|].
  intros c (_ & _ & _ & Hm). exact Hm.
Qed.

Lemma fat_mmap_outside_untouched_witness :
  pd_map (w_pdir (snd (fat_mmap (big_cluster_ops false) 10
                         (mk_um false 1073741824 0 16384) 0
                         (mk_world 8192 true 3))))
    !! (1073741824 + 16384)
  = pd_map (w_pdir (mk_world 8192 true 3)) !! (1073741824 + 16384).
Proof.
  apply (fat_mmap_outside_untouched (big_cluster_ops false) 10
           (mk_um false 1073741824 0 16384) 0 (mk_world 8192 true 3));
    first [ reflexivity | (vm_compute; discriminate)
          | (right; vm_compute; discriminate) ].
Defined.

Lemma fat_mmap_calls_served_witness :
  exists evs,
    w_log (snd (fat_mmap (big_cluster_ops false) 10
                  (mk_um false 1073741824 4096 8192) 0
                  (mk_world 8192 true 100)))
    = w_log (mk_world 8192 true 100) ++ evs /\
    Forall
      (fun c =>
         forall j, 0 <= j < mc_count c ->
           pd_map (w_pdir (snd (fat_mmap (big_cluster_ops false) 10
                                  (mk_um false 1073741824 4096 8192) 0
                                  (mk_world 8192 true 100))))
             !! (mc_vaddr c + j * PAGE_SIZE)
           = Some (mc_paddr c + j * PAGE_SIZE))
      (map_calls evs).
Proof.
  apply (fat_mmap_calls_served (big_cluster_ops false) 10
           (mk_um false 1073741824 4096 8192) 0 (mk_world 8192 true 100));
    first [ reflexivity | (vm_compute; discriminate) ].
Defined.

(** fat_mmap for a page-aligned region fails with -ENOMEM only when the
    page mapper is short of memory: if the mapper can map as many pages as
    the region has, the call does not return -ENOMEM. *)
Theorem fat_mmap_enough_memory (ops : fat_ops) (fuel : nat)
    (um : user_mapping) (flags : Z) (w : world) :
  PAGE_SIZE <= cluster_size (w_dev w) ->
  cluster_size (w_dev w) mod PAGE_SIZE = 0 ->
  0 <= um_off um -> 0 <= um_len um ->
  um_off um mod PAGE_SIZE = 0 ->
  um_len um mod PAGE_SIZE = 0 ->
  um_off um + um_len um + cluster_size (w_dev w) <= 2 ^ ULONG_BITS ->
  0 <= um_vaddr um -> um_vaddr um + um_len um < 2 ^ ULONG_BITS ->
  um_len um <= Z.of_nat (pd_avail (w_pdir w)) * PAGE_SIZE ->
  fst (fat_mmap ops fuel um flags w) <> Ret (- ENOMEM).
Proof.
  intros H1 H2 H3 H4 H5 H6 H7 H8 H9 Hmem.
  destruct (fat_mmap_pages ops fuel um flags w H1 H2 H3 H4 H5 H6 H7 H8 H9)
    as (_ & _ & Hok).
  apply Hok. exact Hmem.
Qed.

Lemma fat_mmap_enough_memory_witness :
  fst (fat_mmap (big_cluster_ops false) 10 (mk_um false 1073741824 0 16384) 0
         (mk_world 8192 true 4)) <> Ret (- ENOMEM).
Proof.
  apply fat_mmap_enough_memory;
    first [ reflexivity | (vm_compute; discriminate) ].
Defined.

(** In a build without ASSERT() the loop of fat_mmap never panics. *)
Lemma fat_mmap_body_no_panic (ops : fat_ops) (um : user_mapping)
    (lv : loop_vars) (w : world) :
  asserts_enabled ops = false ->
  forall why w', fat_mmap_body ops um lv w <> Done (Panic why) w'.
Proof.
  intros Hoff why w'. unfold fat_mmap_body, fat_mmap_next.
  rewrite Hoff. cbn [andb].
  destruct (_ <=? _); [discriminate|].
  destruct (_ <? _).
  - destruct (if lv_off lv <? um_off um then _ else _) as [off data].
    destruct (call_map_pages _ _ _ _ _ _) as [cnt w1].
    destruct (negb _); [discriminate|].
    destruct (fat_is_end_of_clusterchain _ _ _); discriminate.
  - destruct (fat_is_end_of_clusterchain _ _ _); discriminate.
Qed.

Lemma fat_mmap_no_panic (ops : fat_ops) (fuel : nat) (um : user_mapping)
    (flags : Z) (w : world) :
  asserts_enabled ops = false ->
  forall why, fst (fat_mmap ops fuel um flags w) <> Panic why.
Proof.
  intros Hoff why. unfold fat_mmap.
  destruct (negb (mmap_support (w_dev w))); [discriminate|].
  destruct (directory (e (h um))); [discriminate|].
  destruct (negb _); [discriminate|].
  apply (fat_mmap_loop_inv ops um (fun _ _ => True)
           (fun o _ => o <> Panic why)).
  - intros _ _ _. discriminate.
  - intros lv w' _.
    pose proof (fat_mmap_body_no_panic ops um lv w' Hoff why) as Hnp.
    destruct (fat_mmap_body ops um lv w') as [o w''|lv' w'']; [|exact I].
    intros ->. apply (Hnp w''). reflexivity.
  - exact I.
Qed.

(** Past the two failing guards, the run satisfies [run_post]. *)
Lemma fat_mmap_run_past_guards (ops : fat_ops) (fuel : nat)
    (um : user_mapping) (flags : Z) (w : world) :
  mmap_support (w_dev w) = true -> directory (e (h um)) = false ->
  run_post um w (fst (fat_mmap ops fuel um flags w))
    (snd (fat_mmap ops fuel um flags w)).
Proof.
  intros Hsup Hdir. unfold fat_mmap. rewrite Hsup, Hdir. cbn [negb].
  destruct (negb _).
  - cbn [fst snd].
    apply (run_inv_post_open um w _ w (Ret 0) (run_inv_start um w 0 0)).
    + intros [=].
    + intros rc [= <-]. reflexivity.
  - apply (fat_mmap_loop_inv ops um (run_inv um w) (run_post um w)).
    + intros lv w' HI. apply (run_inv_post_open um w lv); [exact HI| |];
        [discriminate|intros rc [=]].
    + intros lv w' HI. apply fat_mmap_body_run. exact HI.
    + apply run_inv_start.
Qed.

(** All or nothing, the "all" half: for a page-aligned region on a mount
    that supports mmap, a file that is not a directory, a page mapper with
    memory for the whole region and a build without ASSERT(), fat_mmap
    returns 0 having called nothing but map_pages(), and every page it
    asked the mapper for is then mapped as asked. *)
Theorem fat_mmap_succeeds (ops : fat_ops) (fuel : nat) (um : user_mapping)
    (flags : Z) (w : world) :
  PAGE_SIZE <= cluster_size (w_dev w) ->
  cluster_size (w_dev w) mod PAGE_SIZE = 0 ->
  0 <= um_off um -> 0 <= um_len um ->
  um_off um mod PAGE_SIZE = 0 ->
  um_len um mod PAGE_SIZE = 0 ->
  um_off um + um_len um + cluster_size (w_dev w) <= 2 ^ ULONG_BITS ->
  0 <= um_vaddr um -> um_vaddr um + um_len um < 2 ^ ULONG_BITS ->
  um_len um <= Z.of_nat (pd_avail (w_pdir w)) * PAGE_SIZE ->
  (Z.to_nat ((um_off um + um_len um) / cluster_size (w_dev w)) + 2
   <= fuel)%nat ->
  asserts_enabled ops = false ->
  mmap_support (w_dev w) = true ->
  directory (e (h um)) = false ->
  fst (fat_mmap ops fuel um flags w) = Ret 0 /\
  exists evs,
    w_log (snd (fat_mmap ops fuel um flags w)) = w_log w ++ evs /\
    forallb is_map_event evs = true /\
    Forall
      (fun c =>
         forall j, 0 <= j < mc_count c ->
           pd_map (w_pdir (snd (fat_mmap ops fuel um flags w)))
             !! (mc_vaddr c + j * PAGE_SIZE)
           = Some (mc_paddr c + j * PAGE_SIZE))
      (map_calls evs).
Proof.
  intros H1 H2 H3 H4 H5 H6 H7 H8 H9 Hmem Hfuel Hoff Hsup Hdir.
  pose proof (fat_mmap_pages ops fuel um flags w H1 H2 H3 H4 H5 H6 H7 H8 H9)
    as (_ & Hs & Hok).
  specialize (Hok Hmem). destruct (Hs Hok) as (evs & Hl & Hall).
  pose proof (fat_mmap_fuel_enough ops fuel um flags w H1 H2 H3 H4 H5 H6 H7
                Hfuel) as Hterm.
  pose proof (fat_mmap_no_panic ops fuel um flags w Hoff) as Hnp.
  pose proof (fat_mmap_run_past_guards ops fuel um flags w Hsup Hdir)
    as (evs' & Hl' & _ & _ & _ & _ & Hcase).
  destruct Hcase as [(_ & H0 & Hmaps & _) | (Hen & _)]; [|contradiction].
  rewrite Hl in Hl'. apply app_inv_head in Hl'. subst evs'.
  split.
  - destruct (fst (fat_mmap ops fuel um flags w)) as [rc|why|].
    + rewrite (H0 rc eq_refl). reflexivity.
    + exfalso. apply (Hnp why). reflexivity.
    + exfalso. apply Hterm. reflexivity.
  - exists evs. split; [exact Hl|]. split; [exact Hmaps|].
    eapply Forall_impl; [exact Hall|].
    intros c (_ & _ & _ & Hm). exact Hm.
Qed.

Lemma fat_mmap_succeeds_witness :
  fst (fat_mmap (big_cluster_ops false) 10 (mk_um false 1073741824 4096 8192)
         0 (mk_world 8192 true 100)) = Ret 0.
Proof.
  apply (fat_mmap_succeeds (big_cluster_ops false) 10
           (mk_um false 1073741824 4096 8192) 0 (mk_world 8192 true 100));
    first [ reflexivity | (vm_compute; discriminate) | (vm_compute; lia) ].
Defined.

(** A request whose end offset is 0 modulo 2^32 (no bytes from offset 0, or
    a region that ends exactly at 2^32) maps nothing: fat_mmap returns 0 in
    its first round, the world unchanged. *)
Theorem fat_mmap_empty_region (ops : fat_ops) (fuel : nat)
    (um : user_mapping) (flags : Z) (w : world) :
  ulong (um_off um + um_len um) = 0 ->
  (1 <= fuel)%nat ->
  mmap_support (w_dev w) = true ->
  directory (e (h um)) = false ->
  fat_mmap ops fuel um flags w = (Ret 0, w).
Proof.
  intros Hend Hfuel Hsup Hdir. unfold fat_mmap. rewrite Hsup, Hdir.
  cbn [negb]. destruct (negb _); [reflexivity|].
  destruct fuel as [|fuel]; [lia|]. cbn [fat_mmap_loop].
  unfold fat_mmap_body. cbn [lv_off]. rewrite Hend. reflexivity.
Qed.

Lemma fat_mmap_empty_region_witness :
  fat_mmap (scenario_ops true) 1 (mk_um false 1073741824 4294963200 4096) 0
    scenario_world = (Ret 0, scenario_world).
Proof.
  apply fat_mmap_empty_region; first [reflexivity | lia].
Defined.

(** fat_mmap returns -ENODEV exactly when the mount has no mmap support,
    and on such a mount fat_munmap returns -ENODEV as well, without calling
    the generic unmap and without changing anything. *)
Theorem fat_mmap_munmap_enodev (ops : fat_ops)
    (generic_fs_munmap : user_mapping -> Z -> Z -> world -> Z * world)
    (fuel : nat) (um : user_mapping) (flags vaddrp len : Z) (w : world) :
  (fst (fat_mmap ops fuel um flags w) = Ret (- ENODEV)
   <-> mmap_support (w_dev w) = false) /\
  (fst (fat_mmap ops fuel um flags w) = Ret (- ENODEV) ->
   fat_munmap generic_fs_munmap um vaddrp len w = (- ENODEV, w)) /\
  (mmap_support (w_dev w) = true ->
   fat_munmap generic_fs_munmap um vaddrp len w
   = generic_fs_munmap um vaddrp len w).
Proof.
  assert (Hiff : fst (fat_mmap ops fuel um flags w) = Ret (- ENODEV)
                 <-> mmap_support (w_dev w) = false).
  { split.
    - intros Hrc. destruct (mmap_support (w_dev w)) eqn:Hsup; [|reflexivity].
      exfalso. destruct (directory (e (h um))) eqn:Hdir.
      + revert Hrc. unfold fat_mmap. rewrite Hsup, Hdir. discriminate.
      + destruct (fat_mmap_run_past_guards ops fuel um flags w Hsup Hdir)
          as (evs & _ & _ & _ & _ & _ & Hcase).
        rewrite Hrc in Hcase.
        destruct Hcase as [(_ & H0 & _) | (Hen & _)].
        * specialize (H0 _ eq_refl). discriminate H0.
        * discriminate Hen.
    - intros Hsup. unfold fat_mmap. rewrite Hsup. reflexivity. }
  split; [exact Hiff|]. split.
  - intros Hrc. apply Hiff in Hrc. unfold fat_munmap. rewrite Hrc. reflexivity.
  - intros Hsup. unfold fat_munmap. rewrite Hsup. reflexivity.
Qed.

Lemma fat_mmap_munmap_enodev_witness :
  fat_munmap (fun _ _ _ w => (0, w)) (mk_um false 1073741824 0 4096)
    1073741824 4096 (mk_world 4096 false 100)
  = (- ENODEV, mk_world 4096 false 100).
Proof.
  apply (fat_mmap_munmap_enodev (scenario_ops true) (fun _ _ _ w => (0, w))
           10 (mk_um false 1073741824 0 4096) 0 1073741824 4096
           (mk_world 4096 false 100)).
  reflexivity.
Defined.

(** ** fat_ramdisk_prepare_for_mmap: all paths *)

Section PrepareAll.

Variable ops : fat_ops.


(** [for_each_page_ptr] visits the pages of [range_pages], in order, when
    it is given rounds enough and the range ends a page or more below
    2^32, so that the pointer does not wrap around. *)
Lemma range_pages_empty va va_end :
  va_end <= va -> range_pages va va_end = [].
Proof.
  intros Hle. unfold range_pages. pose proof PAGE_SIZE_eq as HP.
  assert (H : (va_end - va + PAGE_SIZE - 1) / PAGE_SIZE <= 0).
  { assert ((va_end - va + PAGE_SIZE - 1) / PAGE_SIZE < 1); [|lia].
    apply Z.div_lt_upper_bound; lia. }
  replace (Z.to_nat _) with O by lia. reflexivity.
Qed.

Lemma range_pages_cons va va_end :
  va < va_end ->
  range_pages va va_end = va :: range_pages (va + PAGE_SIZE) va_end.
Proof.
  intros Hlt. unfold range_pages. pose proof PAGE_SIZE_eq as HP.
  replace (va_end - va + PAGE_SIZE - 1)
    with (va_end - (va + PAGE_SIZE) + PAGE_SIZE - 1 + 1 * PAGE_SIZE) by lia.
  rewrite Z.div_add by lia.
  assert (H0 : 0 <= (va_end - (va + PAGE_SIZE) + PAGE_SIZE - 1) / PAGE_SIZE)
    by (apply Z.div_pos; lia).
  rewrite Z2Nat.inj_add by lia. rewrite Nat.add_comm. reflexivity.
Qed.

Lemma for_each_page_ptr_fold (f : Z -> world -> world) n :
  forall va va_end w,
    0 <= va -> va_end + PAGE_SIZE <= 2 ^ ULONG_BITS ->
    (length (range_pages va va_end) <= n)%nat ->
    for_each_page_ptr n va va_end f w
    = foldl (fun w va => f va w) w (range_pages va va_end).
Proof.
  pose proof PAGE_SIZE_eq as HP.
  induction n as [|n IH]; intros va va_end w Hva Hend Hn;
    cbn [for_each_page_ptr].
  - destruct (range_pages va va_end); [reflexivity|cbn in Hn; lia].
  - destruct (Z.ltb_spec va va_end) as [Hlt|Hge].
    + rewrite range_pages_cons in Hn |- * by exact Hlt.
      cbn [foldl]. rewrite ulong_small by lia.
      apply IH; [lia|exact Hend|]. cbn in Hn. lia.
    + rewrite range_pages_empty by exact Hge. reflexivity.
Qed.

Lemma pages_from_length n va : length (pages_from n va) = n.
Proof. revert va. induction n as [|n IH]; intros va; cbn; [|rewrite IH]; reflexivity. Qed.

Lemma page_rounds_enough va len :
  (length (range_pages va (va + len)) <= page_rounds len)%nat.
Proof.
  unfold range_pages, page_rounds. rewrite pages_from_length.
  pose proof PAGE_SIZE_eq as HP.
  replace (va + len - va + PAGE_SIZE - 1) with (len + PAGE_SIZE - 1) by lia.
  assert (H : (len + PAGE_SIZE - 1) / PAGE_SIZE <= len / PAGE_SIZE + 1).
  { replace (len / PAGE_SIZE + 1) with ((len + 1 * PAGE_SIZE) / PAGE_SIZE)
      by (rewrite Z.div_add by lia; reflexivity).
    apply Z.div_le_mono; lia. }
  lia.
Qed.

Lemma foldl_set_page_rw_log b l : forall w,
  w_log (foldl (fun w va => set_page_rw b va w) w l)
  = w_log w ++ ((fun va => EvSetPageRw va b) <$> l).
Proof.
  induction l as [|va l IH]; intros w; cbn [foldl fmap list_fmap].
  - symmetry. apply app_nil_r.
  - rewrite IH. cbn. rewrite <- app_assoc. reflexivity.
Qed.

Lemma foldl_set_page_rw_rw b l : forall w x,
  w_rw (foldl (fun w va => set_page_rw b va w) w l) !! x
  = if decide (x ∈ l) then Some b else w_rw w !! x.
Proof.
  induction l as [|va l IH]; intros w x; cbn [foldl].
  - destruct (decide (x ∈ [])) as [Hin|_]; [inversion Hin|reflexivity].
  - rewrite IH. cbn.
    destruct (decide (x ∈ l)) as [Hin|Hnin].
    + rewrite decide_True by (right; exact Hin). reflexivity.
    + destruct (decide (x = va)) as [->|Hne].
      * rewrite decide_True by left. apply lookup_insert_eq.
      * rewrite decide_False by (intros Hc; inversion Hc; subst; tauto).
        apply lookup_insert_ne. congruence.
Qed.

Lemma foldl_preserves {A : Type} (proj : world -> A)
    (f : Z -> world -> world) l :
  (forall va w, proj (f va w) = proj w) ->
  forall w, proj (foldl (fun w va => f va w) w l) = proj w.
Proof.
  intros Hf. induction l as [|va l IH]; intros w; cbn [foldl];
    [reflexivity|]. rewrite IH. apply Hf.
Qed.

(** The repair: when the cluster size passes the test, the first data
    sector is not aligned, the region has a page of headroom and it ends a
    page or more below the top of the 32-bit address space (so that the
    pointers of the two loops do not wrap around), the function returns 0
    and what it does is, in this order: retain the region, make every page
    of the region writable, align the first data sector (the one change of
    the image), make every page read-only again.  The device data is
    untouched and every page of the region ends up read-only. *)
Theorem prepare_repairs (rd_size : Z) (w : world) :
  PAGE_SIZE <= cluster_size (w_dev w) ->
  cluster_size (w_dev w) mod PAGE_SIZE = 0 ->
  fat_is_first_data_sector_aligned ops (w_image w) PAGE_SIZE = false ->
  0 <= hdr (w_dev w) ->
  0 <= fat_calculate_used_bytes ops (w_image w) ->
  hdr (w_dev w) + region_size ops rd_size w + PAGE_SIZE <= 2 ^ ULONG_BITS ->
  fat_calculate_used_bytes ops (w_image w) <= region_size ops rd_size w ->
  PAGE_SIZE
  <= ulong (region_size ops rd_size w
            - fat_calculate_used_bytes ops (w_image w)) ->
  let rd := region_size ops rd_size w in
  let pages := range_pages (hdr (w_dev w)) (hdr (w_dev w) + rd) in
  exists w',
    fat_ramdisk_prepare_for_mmap ops rd_size w = (Ret 0, w') /\
    w_image w' = fat_align_first_data_sector ops (w_image w) PAGE_SIZE /\
    w_dev w' = w_dev w /\
    w_log w'
    = w_log w ++ [EvRetain (hdr (w_dev w)) rd]
      ++ ((fun va => EvSetPageRw va true) <$> pages)
      ++ [EvAlignFirstDataSector]
      ++ ((fun va => EvSetPageRw va false) <$> pages)
      ++ [EvPrintk 1] /\
    forall va, va ∈ pages -> w_rw w' !! va = Some false.
Proof.
  intros Hge Hmod Hmis Hhdr Hused0 Htop Hused Hroom rd pages.
  pose proof PAGE_SIZE_eq as HP.
  unfold fat_ramdisk_prepare_for_mmap. fold (region_size ops rd_size w).
  fold rd. fold rd in Htop, Hused. rewrite cluster_size_ok_test by assumption.
  rewrite (ulong_small (hdr (w_dev w) + rd)) by lia.
  rewrite retain_image, Hmis.
  destruct (Z.leb_spec (fat_calculate_used_bytes ops (w_image w)) rd);
    [|unfold rd in *; lia].
  cbn [negb].
  destruct (Z.ltb_spec (ulong (rd - fat_calculate_used_bytes ops (w_image w)))
              PAGE_SIZE); [unfold rd in *; lia|].
  rewrite !for_each_page_ptr_fold
    by first [exact Hhdr | lia | apply page_rounds_enough].
  fold pages. eexists. split; [reflexivity|].
  set (w1 := retain_pageframes_mapped_at (hdr (w_dev w)) rd w).
  set (w2 := foldl (fun w va => set_page_rw true va w) w1 pages).
  split; [|split; [|split]].
  - cbn [log_event w_image].
    rewrite (foldl_preserves w_image (set_page_rw false)) by reflexivity.
    cbn [set_image w_image]. unfold w2.
    rewrite (foldl_preserves w_image (set_page_rw true)) by reflexivity.
    unfold w1. rewrite retain_image. reflexivity.
  - cbn [log_event w_dev].
    rewrite (foldl_preserves w_dev (set_page_rw false)) by reflexivity.
    cbn [set_image log_event w_dev]. unfold w2.
    rewrite (foldl_preserves w_dev (set_page_rw true)) by reflexivity.
    unfold w1. apply retain_dev.
  - cbn [log_event w_log]. rewrite foldl_set_page_rw_log.
    cbn [set_image log_event w_log]. unfold w2.
    rewrite foldl_set_page_rw_log. unfold w1. rewrite retain_log.
    repeat rewrite <- app_assoc. reflexivity.
  - intros va Hva. cbn [log_event w_rw].
    rewrite foldl_set_page_rw_rw. rewrite decide_True by exact Hva.
    reflexivity.
Qed.

(** A call that does not return 0 has not written the image and has not
    changed any page permission; and no call, whatever it returns, changes
    the device data (so never the mmap support flag) or the page directory
    fat_mmap works on. *)
Theorem prepare_failure_frame (rd_size : Z) (w : world) :
  w_dev (snd (fat_ramdisk_prepare_for_mmap ops rd_size w)) = w_dev w /\
  w_pdir (snd (fat_ramdisk_prepare_for_mmap ops rd_size w)) = w_pdir w /\
  (fst (fat_ramdisk_prepare_for_mmap ops rd_size w) <> Ret 0 ->
   w_image (snd (fat_ramdisk_prepare_for_mmap ops rd_size w)) = w_image w /\
   w_rw (snd (fat_ramdisk_prepare_for_mmap ops rd_size w)) = w_rw w).
Proof.
  unfold fat_ramdisk_prepare_for_mmap. fold (region_size ops rd_size w).
  set (rd := region_size ops rd_size w).
  destruct (_ || _); [cbn; auto|].
  rewrite retain_image.
  set (w1 := retain_pageframes_mapped_at (hdr (w_dev w)) rd w).
  assert (Hd1 : w_dev w1 = w_dev w) by apply retain_dev.
  assert (Hp1 : w_pdir w1 = w_pdir w) by apply retain_pdir.
  assert (Hi1 : w_image w1 = w_image w) by apply retain_image.
  assert (Hr1 : w_rw w1 = w_rw w) by apply retain_rw.
  destruct (fat_is_first_data_sector_aligned ops (w_image w) PAGE_SIZE);
    [cbn [fst snd]; auto|].
  destruct (negb _); [cbn [fst snd]; auto|].
  destruct (_ <? PAGE_SIZE); [cbn; auto|].
  cbn [fst snd log_event w_dev w_pdir].
  rewrite (for_each_page_ptr_preserves w_dev) by reflexivity.
  rewrite (for_each_page_ptr_preserves w_pdir) by reflexivity.
  cbn [set_image log_event w_dev w_pdir].
  rewrite (for_each_page_ptr_preserves w_dev) by reflexivity.
  rewrite (for_each_page_ptr_preserves w_pdir) by reflexivity.
  split; [exact Hd1|]. split; [exact Hp1|]. intros Hne. exfalso.
  apply Hne. reflexivity.
Qed.

End PrepareAll.

Lemma prepare_repairs_witness :
  exists w',
    fat_ramdisk_prepare_for_mmap (prepare_ops 8192 false false) 16384
      (mk_world 4096 false 100) = (Ret 0, w') /\
    w_log w'
    = [EvRetain 3225419776 16384;
       EvSetPageRw 3225419776 true; EvSetPageRw (3225419776 + 4096) true;
       EvSetPageRw (3225419776 + 8192) true;
       EvSetPageRw (3225419776 + 12288) true;
       EvAlignFirstDataSector;
       EvSetPageRw 3225419776 false; EvSetPageRw (3225419776 + 4096) false;
       EvSetPageRw (3225419776 + 8192) false;
       EvSetPageRw (3225419776 + 12288) false;
       EvPrintk 1].
Proof.
  destruct (prepare_repairs (prepare_ops 8192 false false) 16384
              (mk_world 4096 false 100))
    as (w' & Hrun & _ & _ & Hlog & _);
    [ vm_compute; discriminate | reflexivity | reflexivity
    | vm_compute; discriminate | vm_compute; discriminate
    | vm_compute; discriminate | vm_compute; discriminate
    | vm_compute; discriminate | ].
  exists w'. split; [exact Hrun|]. rewrite Hlog. reflexivity.
Defined.

Lemma prepare_failure_frame_witness :
  w_image (snd (fat_ramdisk_prepare_for_mmap (prepare_ops 65000 false false)
                  65536 (mk_world 4096 false 100)))
  = w_image (mk_world 4096 false 100).
Proof.
  apply (prepare_failure_frame (prepare_ops 65000 false false) 65536
           (mk_world 4096 false 100)).
  vm_compute. discriminate.
Defined.

(** ** tracing_types.c *)

(** is_flag_on(var, fl) tests that every bit of [fl] is set in [var].  So
    a flag whose value is 0 is on in every [var], and a flag made of two
    others is on exactly when both are. *)
Theorem is_flag_on_bits (var fl f1 f2 : Z) :
  (is_flag_on var fl = true <->
   forall n, Z.testbit fl n = true -> Z.testbit var n = true) /\
  is_flag_on var 0 = true /\
  is_flag_on var (Z.lor f1 f2) = is_flag_on var f1 && is_flag_on var f2.
Proof.
  assert (Hspec : forall v f,
            is_flag_on v f = true <->
            forall n, Z.testbit f n = true -> Z.testbit v n = true).
  { intros v f. unfold is_flag_on. rewrite Z.eqb_eq. split.
    - intros H n Hn. rewrite <- H, Z.land_spec in Hn.
      apply andb_prop in Hn. tauto.
    - intros H. apply Z.bits_inj'. intros n _. rewrite Z.land_spec.
      destruct (Z.testbit f n) eqn:Hf.
      + rewrite (H n Hf). reflexivity.
      + apply andb_false_r. }
  split; [apply Hspec|]. split.
  - unfold is_flag_on. rewrite Z.land_0_r. reflexivity.
  - apply eq_true_iff_eq. rewrite andb_true_iff, !Hspec. split.
    + intros H. split; intros n Hn; apply H; rewrite Z.lor_spec, Hn;
        [reflexivity|apply orb_true_r].
    + intros [H1 H2] n Hn. rewrite Z.lor_spec in Hn.
      apply orb_prop in Hn as [Hn|Hn]; auto.
Qed.

Lemma sint_small x : - 2 ^ 31 <= x < 2 ^ 31 -> sint x = x.
Proof.
  intros Hx. unfold sint. rewrite Z.mod_small; lia.
Qed.

Lemma buf_append_spec (asserts : bool) (snprintk : snprintk_t)
    (dest : dest_mem) (used rem : Z) (str : string)
    (ok : bool) (dest' : dest_mem) (used' rem' : Z) :
  buf_append asserts snprintk dest used rem str
  = Some (ok, dest', used', rem') ->
  (ok = false -> used' = used /\ rem' = rem) /\
  (rem = 0 -> ok = false /\ dest' = dest) /\
  (ok = true ->
   0 <= snd (snprintk dest used (ulong rem) str) ->
   0 <= used -> used + rem < 2 ^ 31 ->
   used' + rem' = used + rem /\ used <= used' /\ 0 < rem' <= rem).
Proof.
  unfold buf_append.
  destruct (asserts && (rem <? 0)); [discriminate|].
  destruct (Z.eqb_spec rem 0) as [->|Hrem].
  { intros [= <- <- <- <-].
    intuition (first [discriminate | congruence | lia]). }
  destruct (snprintk dest used (ulong rem) str) as [d rc]. cbn [snd].
  destruct (Z.leb_spec rem rc) as [Hle|Hlt].
  { intros [= <- <- <- <-].
    intuition (first [discriminate | congruence | lia]). }
  intros [= <- <- <- <-]. split; [discriminate|]. split; [tauto|].
  intros _ Hrc Hused Hsum.
  rewrite !sint_small by lia. lia.
Qed.

(** buf_append() and the two counters: when it returns false, *used and
    *rem are as before, and with *rem = 0 nothing is printed at all; when
    it returns true (snprintk having returned a count that is not
    negative), what *used gains *rem loses, and *rem stays positive. *)
Theorem buf_append_counters (asserts : bool) (snprintk : snprintk_t)
    (dest : dest_mem) (used rem : Z) (str : string)
    (ok : bool) (dest' : dest_mem) (used' rem' : Z) :
  buf_append asserts snprintk dest used rem str
  = Some (ok, dest', used', rem') ->
  (ok = false -> used' = used /\ rem' = rem) /\
  (rem = 0 -> ok = false /\ dest' = dest) /\
  (ok = true ->
   0 <= snd (snprintk dest used (ulong rem) str) ->
   0 <= used -> used + rem < 2 ^ 31 ->
   used' + rem' = used + rem /\ used <= used' /\ 0 < rem' <= rem).
Proof. apply buf_append_spec. Qed.

Lemma buf_append_counters_witness :
  6 + 58 = 0 + 64 /\ 0 <= 6 /\ 0 < 58 <= 64.
Proof.
  apply (buf_append_counters true snprintk_c99 ∅ 0 64 "O_EXCL"
           true (write_str ∅ 0 64 "O_EXCL") 6 58);
    first [ reflexivity | (vm_compute; discriminate) ].
Defined.

Section OpenFlags.

Variable asserts : bool.
Variable snprintk : snprintk_t.
Variable flag_val : open_flag -> Z.

(** When no flag of the list is on, the OPEN_CHECK_FLAG lines do nothing. *)
Lemma open_check_flags_none_on fl l : forall dest used rem,
  (forall x, x ∈ l -> is_flag_on fl (flag_val x) = false) ->
  open_check_flags asserts snprintk flag_val l fl dest used rem
  = Some (true, dest, used, rem).
Proof.
  induction l as [|x l IH]; intros dest used rem Hoff; cbn [open_check_flags].
  - reflexivity.
  - rewrite (Hoff x) by left. apply IH. intros y Hy. apply Hoff. right.
    exact Hy.
Qed.

(** With [fl] = 0 the function writes the two bytes of "0" whatever the
    size of the buffer.  With an [fl] that is not 0 but has none of the
    flags of the list on (an access mode such as O_WRONLY alone), nothing is
    appended, [used] is still 0, and the function tests and overwrites the
    byte before the buffer, dest[-1]: with ASSERT() compiled in it stops
    unless that byte is '|', and otherwise it stores 0 there and returns
    true. *)
Theorem dump_param_open_flags_no_flag (fl : Z) (dest : dest_mem)
    (dest_buf_size : Z) :
  (fl = 0 ->
   dump_param_open_flags asserts snprintk flag_val fl dest dest_buf_size
   = Some (true, <[1 := 0]> (<[0 := 48]> dest))) /\
  (fl <> 0 ->
   (forall x, is_flag_on fl (flag_val x) = false) ->
   dump_param_open_flags asserts snprintk flag_val fl dest dest_buf_size
   = if asserts && negb (default 0 (dest !! (-1)) =? 124) then None
     else Some (true, <[-1 := 0]> dest)).
Proof.
  unfold dump_param_open_flags. split.
  - intros ->. reflexivity.
  - intros Hfl Hoff. destruct (Z.eqb_spec fl 0); [contradiction|].
    rewrite open_check_flags_none_on by (intros x _; apply Hoff).
    reflexivity.
Qed.

Hypothesis snprintk_nonneg :
  forall dest off size str, 0 <= snd (snprintk dest off size str).

(** The counters through the OPEN_CHECK_FLAG lines. *)
Lemma open_check_flags_counters fl l :
  forall dest used rem ok dest' used' rem',
    0 <= used -> 0 <= rem -> used + rem < 2 ^ 31 ->
    open_check_flags asserts snprintk flag_val l fl dest used rem
    = Some (ok, dest', used', rem') ->
    used' + rem' = used + rem /\ used <= used' /\ 0 <= rem' /\
    (ok = true -> (used' = used /\ dest' = dest) \/ 0 < rem').
Proof.
  induction l as [|x l IH]; intros dest used rem ok dest' used' rem'
    Hused Hrem Hsum; cbn [open_check_flags].
  - intros [= <- <- <- <-]. repeat split; try lia. auto.
  - destruct (is_flag_on fl (flag_val x)); [|apply IH; assumption].
    destruct (buf_append asserts snprintk dest used rem (flag_text x))
      as [[[[ok1 d1] u1] r1]|] eqn:Happ; [|discriminate].
    destruct (buf_append_spec _ _ _ _ _ _ _ _ _ _ Happ)
      as (Hfalse & _ & Htrue).
    destruct ok1.
    + destruct (Htrue eq_refl (snprintk_nonneg _ _ _ _) Hused Hsum)
        as (Hs1 & Hu1 & Hr1).
      intros Hrest.
      destruct (IH d1 u1 r1 ok dest' used' rem' ltac:(lia) ltac:(lia)
                  ltac:(lia) Hrest) as (Hs2 & Hu2 & Hr2 & Hok).
      repeat split; try lia.
      intros Hok'. right. destruct (Hok Hok') as [[-> _]|Hpos]; lia.
    + destruct (Hfalse eq_refl) as [-> ->].
      intros [= <- <- <- <-]. repeat split; try lia.
Qed.

(** When dump_param_open_flags() returns true for an [fl] that is not 0,
    it has stored the final NUL at dest[used - 1] for a [used] with
    0 <= used, and used < dest_buf_size whenever the buffer has a size: the
    NUL is never stored at or after the last byte of the buffer, but it can
    be stored at dest[-1]. *)
Theorem dump_param_open_flags_nul (fl : Z) (dest : dest_mem)
    (dest_buf_size : Z) (dest' : dest_mem) :
  fl <> 0 -> 0 <= dest_buf_size < 2 ^ 31 ->
  dump_param_open_flags asserts snprintk flag_val fl dest dest_buf_size
  = Some (true, dest') ->
  exists used dest'',
    dest' = <[used - 1 := 0]> dest'' /\
    0 <= used <= dest_buf_size /\
    (0 < dest_buf_size -> used < dest_buf_size).
Proof.
  intros Hfl Hsize. unfold dump_param_open_flags.
  destruct (Z.eqb_spec fl 0); [contradiction|].
  rewrite sint_small by lia.
  destruct (open_check_flags asserts snprintk flag_val open_flags_checked fl
              dest 0 dest_buf_size) as [[[[ok d1] u1] r1]|] eqn:Hrun;
    [|discriminate].
  assert (Hz : 0 <= 0) by lia.
  assert (Hsz : 0 + dest_buf_size < 2 ^ 31) by lia.
  destruct (open_check_flags_counters fl _ _ _ _ _ _ _ _
              Hz (proj1 Hsize) Hsz Hrun)
    as (Hsum & Hu & Hr & Hok).
  destruct ok; [|discriminate].
  destruct (asserts && _); [discriminate|].
  intros [= <-]. exists u1, d1. split; [reflexivity|].
  split; [lia|].
  intros Hpos. destruct (Hok eq_refl) as [[-> _]|Hrpos]; lia.
Qed.

End OpenFlags.

Section OpenFlagsProgress.

Variable asserts : bool.
Variable snprintk : snprintk_t.
Variable flag_val : open_flag -> Z.

Hypothesis snprintk_pos_nonneg :
  forall dest off size str, 0 <= snd (snprintk dest off size str).
Hypothesis snprintk_pos :
  forall dest off size x, 1 <= snd (snprintk dest off size (flag_text x)).

Lemma open_check_flags_progress fl l :
  forall dest used rem dest' used' rem',
    0 <= used -> 0 <= rem -> used + rem < 2 ^ 31 ->
    open_check_flags asserts snprintk flag_val l fl dest used rem
    = Some (true, dest', used', rem') ->
    (exists x, x ∈ l /\ is_flag_on fl (flag_val x) = true) ->
    used < used'.
Proof.
  induction l as [|x l IH]; intros dest used rem dest' used' rem'
    Hused Hrem Hsum; cbn [open_check_flags].
  - intros _ (x & Hx & _). inversion Hx.
  - destruct (is_flag_on fl (flag_val x)) eqn:Hon.
    + destruct (buf_append asserts snprintk dest used rem (flag_text x))
        as [[[[ok1 d1] u1] r1]|] eqn:Happ; [|discriminate].
      destruct ok1; [|discriminate].
      pose proof Happ as Happ'. unfold buf_append in Happ'.
      destruct (asserts && (rem <? 0)); [discriminate|].
      destruct (Z.eqb_spec rem 0); [discriminate|].
      pose proof (snprintk_pos dest used (ulong rem) x) as Hrc.
      destruct (snprintk dest used (ulong rem) (flag_text x)) as [d rc].
      cbn [snd] in Hrc.
      destruct (Z.leb_spec rem rc); [discriminate|].
      injection Happ' as _ Hu1 Hr1.
      rewrite sint_small in Hu1, Hr1 by lia.
      intros Hrest _.
      assert (G1 : 0 <= u1) by lia.
      assert (G2 : 0 <= r1) by lia.
      assert (G3 : u1 + r1 < 2 ^ 31) by lia.
      destruct (open_check_flags_counters asserts snprintk flag_val
                  snprintk_pos_nonneg fl l d1 u1 r1 true dest' used' rem'
                  G1 G2 G3 Hrest) as (_ & Hu & _).
      lia.
    + intros Hrest (y & Hy & Hyon). apply (IH dest used rem dest' used' rem');
        try assumption.
      exists y. split; [|exact Hyon].
      inversion Hy; subst; [congruence|assumption].
Qed.

(** When one of the flags of the list is on in [fl] (and snprintk returns at
    least 1 for the text of a flag, as it does when it returns the length
    of what it printed), a call that returns true has stored the final NUL
    inside the buffer, at an index from 0 to dest_buf_size - 2. *)
Theorem dump_param_open_flags_in_bounds (fl : Z) (dest : dest_mem)
    (dest_buf_size : Z) (dest' : dest_mem) (x : open_flag) :
  is_flag_on fl (flag_val x) = true -> fl <> 0 ->
  0 <= dest_buf_size < 2 ^ 31 ->
  dump_param_open_flags asserts snprintk flag_val fl dest dest_buf_size
  = Some (true, dest') ->
  exists used dest'',
    dest' = <[used - 1 := 0]> dest'' /\
    0 <= used - 1 <= dest_buf_size - 2.
Proof.
  intros Hon Hfl Hsize. unfold dump_param_open_flags.
  destruct (Z.eqb_spec fl 0); [contradiction|].
  rewrite sint_small by lia.
  destruct (open_check_flags asserts snprintk flag_val open_flags_checked fl
              dest 0 dest_buf_size) as [[[[ok d1] u1] r1]|] eqn:Hrun;
    [|discriminate].
  destruct ok; [|discriminate].
  assert (Hz : 0 <= 0) by lia.
  assert (Hsz : 0 + dest_buf_size < 2 ^ 31) by lia.
  destruct (open_check_flags_counters asserts snprintk flag_val
              snprintk_pos_nonneg fl _ _ _ _ _ _ _ _
              Hz (proj1 Hsize) Hsz Hrun)
    as (Hsum & Hu & Hr & Hok).
  assert (Hprog : 0 < u1).
  { apply (open_check_flags_progress fl _ _ _ _ _ _ _ Hz (proj1 Hsize) Hsz
             Hrun).
    exists x. split; [|exact Hon].
    unfold open_flags_checked. apply list_elem_of_In.
    destruct x; cbn; repeat (first [left; reflexivity | right]). }
  destruct (asserts && _); [discriminate|].
  intros [= <-]. exists u1, d1. split; [reflexivity|].
  destruct (Hok eq_refl) as [[-> _]|Hrpos]; lia.
Qed.

End OpenFlagsProgress.

Lemma flag_val_linux_wronly (x : open_flag) :
  is_flag_on 1 (flag_val_linux x) = false.
Proof. destruct x; reflexivity. Qed.

Lemma snprintk_c99_pos dest off size (x : open_flag) :
  1 <= snd (snprintk_c99 dest off size (flag_text x)).
Proof. destruct x; vm_compute; discriminate. Qed.

Lemma dump_param_open_flags_no_flag_witness :
  dump_param_open_flags false snprintk_c99 flag_val_linux 1 ∅ 64
  = Some (true, <[-1 := 0]> ∅).
Proof.
  apply (dump_param_open_flags_no_flag false snprintk_c99 flag_val_linux 1
           ∅ 64).
  - discriminate.
  - apply flag_val_linux_wronly.
Defined.

Lemma snprintk_c99_nonneg dest off size str :
  0 <= snd (snprintk_c99 dest off size str).
Proof. cbn. lia. Qed.

Lemma dump_param_open_flags_nul_witness :
  exists used dest'',
    snd (default (true, ∅)
           (dump_param_open_flags false snprintk_c99 flag_val_linux 1088 ∅ 64))
    = <[used - 1 := 0]> dest'' /\
    0 <= used <= 64 /\ (0 < 64 -> used < 64).
Proof.
  apply (dump_param_open_flags_nul false snprintk_c99 flag_val_linux
           snprintk_c99_nonneg 1088 ∅ 64).
  - discriminate.
  - lia.
  - vm_compute. reflexivity.
Defined.

Lemma dump_param_open_flags_in_bounds_witness :
  exists used dest'',
    snd (default (true, ∅)
           (dump_param_open_flags false snprintk_c99 flag_val_linux 1088 ∅ 64))
    = <[used - 1 := 0]> dest'' /\
    0 <= used - 1 <= 64 - 2.
Proof.
  apply (dump_param_open_flags_in_bounds false snprintk_c99 flag_val_linux
           snprintk_c99_nonneg snprintk_c99_pos 1088 ∅ 64 _ O_CREAT).
  - reflexivity.
  - discriminate.
  - lia.
  - vm_compute. reflexivity.
Defined.

(** ** What a page-aligned run leaves in the page directory *)

Lemma fat_mmap_exact_calls (ops : fat_ops) (fuel : nat) (um : user_mapping)
    (flags : Z) (w : world) :
  PAGE_SIZE <= cluster_size (w_dev w) ->
  cluster_size (w_dev w) mod PAGE_SIZE = 0 ->
  0 <= um_off um -> 0 <= um_len um ->
  um_off um mod PAGE_SIZE = 0 ->
  um_len um mod PAGE_SIZE = 0 ->
  um_off um + um_len um + cluster_size (w_dev w) <= 2 ^ ULONG_BITS ->
  exists evs,
    w_log (snd (fat_mmap ops fuel um flags w)) = w_log w ++ evs /\
    Forall (exact_call ops um w) (map_calls evs).
Proof.
  intros H1 H2 H3 H4 H5 H6 H7. unfold fat_mmap.
  destruct (negb (mmap_support (w_dev w))).
  { exists []. split; [symmetry; apply app_nil_r|constructor]. }
  destruct (directory (e (h um))).
  { exists []. split; [symmetry; apply app_nil_r|constructor]. }
  destruct (negb _).
  { exists []. split; [symmetry; apply app_nil_r|constructor]. }
  destruct (fat_mmap_loop_calls ops
              (exact_call ops um w) (in_step_aligned ops um w) um w
              (fat_mmap_body_exact ops um w H1 H2 H3 H4 H5 H6 H7)
              fuel
              {| lv_idx := O; lv_clu := first_cluster (e (h um)); lv_off := 0;
                 lv_vaddr := um_vaddr um; lv_tot_mapped_cnt := 0 |}
              w [] (extends_refl w))
    as (evs & (_ & _ & Hlog) & HP).
  { split; [split; [reflexivity|left; reflexivity]|].
    cbn [lv_off lv_vaddr]. split; [lia|]. split; [reflexivity|].
    split; [lia|]. intros _ _. lia. }
  exists evs. split; [exact Hlog|exact HP].
Qed.

(** What fat_mmap leaves in the page directory, in terms of the file: for a
    page-aligned region and any outcome but -ENOMEM, each round [i] that
    called the page mapper has mapped the part of cluster [i] that lies in
    the region, page by page, at um_vaddr + (max(i * cs, off) - off), to
    the physical pages of the cluster counted from the START of the
    cluster's data (so for a region that begins inside a cluster, the first
    pages mapped are the first pages of that cluster). *)
Theorem fat_mmap_maps_cluster_pages (ops : fat_ops) (fuel : nat)
    (um : user_mapping) (flags : Z) (w : world) :
  PAGE_SIZE <= cluster_size (w_dev w) ->
  cluster_size (w_dev w) mod PAGE_SIZE = 0 ->
  0 <= um_off um -> 0 <= um_len um ->
  um_off um mod PAGE_SIZE = 0 ->
  um_len um mod PAGE_SIZE = 0 ->
  um_off um + um_len um + cluster_size (w_dev w) <= 2 ^ ULONG_BITS ->
  0 <= um_vaddr um -> um_vaddr um + um_len um < 2 ^ ULONG_BITS ->
  fst (fat_mmap ops fuel um flags w) <> Ret (- ENOMEM) ->
  exists evs,
    w_log (snd (fat_mmap ops fuel um flags w)) = w_log w ++ evs /\
    Forall
      (fun c =>
         let lo := Z.max (Z.of_nat (mc_idx c) * cluster_size (w_dev w))
                     (um_off um) in
         let hi := Z.min ((Z.of_nat (mc_idx c) + 1) * cluster_size (w_dev w))
                     (um_off um + um_len um) in
         forall j, 0 <= j -> lo + j * PAGE_SIZE < hi ->
           pd_map (w_pdir (snd (fat_mmap ops fuel um flags w)))
             !! (um_vaddr um + (lo - um_off um) + j * PAGE_SIZE)
           = Some
               (KERNEL_VA_TO_PA ops
                  (fat_get_pointer_to_cluster_data ops (hdr (w_dev w))
                     (w_image w)
                     (cluster_at ops w (first_cluster (e (h um)))
                        (mc_idx c)))
                + j * PAGE_SIZE))
      (map_calls evs).
Proof.
  intros H1 H2 H3 H4 H5 H6 H7 H8 H9 Hne.
  destruct (fat_mmap_exact_calls ops fuel um flags w H1 H2 H3 H4 H5 H6 H7)
    as (evs & Hl & Hexact).
  destruct (fat_mmap_pages ops fuel um flags w H1 H2 H3 H4 H5 H6 H7 H8 H9)
    as (_ & Hs & _).
  destruct (Hs Hne) as (evs' & Hl' & Hserved).
  rewrite Hl in Hl'. apply app_inv_head in Hl'. subst evs'.
  exists evs. split; [exact Hl|].
  rewrite Forall_forall in *. intros c Hc. cbv zeta. intros j Hj0 Hj.
  destruct (Hexact c Hc) as (((Hclu & Hpa) & _ & _) & Hcount & Hva).
  destruct (Hserved c Hc) as (_ & _ & _ & Hmapped).
  rewrite <- (Hva H8 H9), <- Hclu, <- Hpa.
  apply Hmapped. pose proof PAGE_SIZE_eq. split; [exact Hj0|]. nia.
Qed.

Lemma fat_mmap_maps_cluster_pages_witness :
  exists evs,
    w_log (snd (fat_mmap (big_cluster_ops false) 10
                  (mk_um false 1073741824 4096 8192) 0
                  (mk_world 8192 true 100)))
    = w_log (mk_world 8192 true 100) ++ evs /\
    evs <> [].
Proof.
  destruct (fat_mmap_maps_cluster_pages (big_cluster_ops false) 10
              (mk_um false 1073741824 4096 8192) 0 (mk_world 8192 true 100))
    as (evs & Hl & _);
    [ (vm_compute; discriminate) | reflexivity | (vm_compute; discriminate)
    | (vm_compute; discriminate) | reflexivity | reflexivity
    | (vm_compute; discriminate) | (vm_compute; discriminate)
    | reflexivity | (vm_compute; discriminate) | ].
  exists evs. split; [exact Hl|].
  intros ->. vm_compute in Hl. discriminate Hl.
Defined.
